(** * Solar challenge: the cleaning and ranking pipeline

    A shallow embedding of [scripts/data_processing.py] (class
    [SolarDataProcessor]) and [scripts/analysis.py] (class [SolarAnalyzer]).

    Numbers are IEEE 754 binary64 values, as Python's [float] and pandas'
    [float64] are: Rocq's primitive [float].  A missing entry of a column is
    NaN, as in pandas.  A Python [dict] is an insertion-ordered association
    list with unique keys.  An operation that can raise returns a [result]. *)

From Stdlib Require Import List String Ascii DecimalString Bool Arith ZArith Lia Floats
  Permutation Sorted.
From Stdlib Require Uint63.
Import ListNotations.

Set Warnings "-inexact-float".
Open Scope string_scope.
Open Scope float_scope.

(** ** Python dictionaries *)

Module Dict.
Section WithValues.
Context {V : Type}.

Definition t := list (string * V).

Definition empty : t := [].

(** [d.get(k)] *)
Fixpoint get (k : string) (d : t) : option V :=
  match d with
  | [] => None
  | (k', v) :: d' => if String.eqb k k' then Some v else get k d'
  end.

(** [k in d] *)
Definition contains (k : string) (d : t) : bool :=
  match get k d with Some _ => true | None => false end.

(** [d[k] = v]: an existing key keeps its place, a new key goes last. *)
Fixpoint set (k : string) (v : V) (d : t) : t :=
  match d with
  | [] => [(k, v)]
  | (k', v') :: d' =>
      if String.eqb k k' then (k', v) :: d' else (k', v') :: set k v d'
  end.

Definition keys (d : t) : list string := map fst d.

(** [dict(pairs)] *)
Definition of_items (l : list (string * V)) : t :=
  fold_left (fun d kv => set (fst kv) (snd kv) d) l empty.
End WithValues.
Arguments t : clear implicits.
End Dict.

(** ** Exceptions *)

Inductive exn : Type :=
| ValueError (msg : string).

Inductive result (A : Type) : Type :=
| Ok (a : A)
| Raise (e : exn).
Arguments Ok {A} a.
Arguments Raise {A} e.

Definition bind {A B : Type} (r : result A) (k : A -> result B) : result B :=
  match r with
  | Ok a => k a
  | Raise e => Raise e
  end.

Notation "x <- r ;; k" := (bind r (fun x => k))
  (at level 61, r at next level, right associativity).

(** What the analysis code can raise: the [KeyError] of [df[name]] for a
    column that is not there, or an exception of the cleaning code and of the
    statistical tests. *)
Inductive failure : Type :=
| KeyError (key : string)
| Raised (e : exn).

Inductive outcome (A : Type) : Type :=
| Done (a : A)
| Failed (f : failure).
Arguments Done {A} a.
Arguments Failed {A} f.

Definition lift {A : Type} (r : result A) : outcome A :=
  match r with
  | Ok a => Done a
  | Raise e => Failed (Raised e)
  end.

Definition and_then {A B : Type} (o : outcome A) (k : A -> outcome B) : outcome B :=
  match o with
  | Done a => k a
  | Failed f => Failed f
  end.

Notation "x <-- o ;; k" := (and_then o (fun x => k))
  (at level 61, o at next level, right associativity).

(** ** The numeric library: NumPy, pandas and SciPy on one column

    These functions are not code of the repository.  They follow the
    libraries' documented behaviour on binary64 values; sums run from left to
    right. *)

Module Np.

Definition float_of_nat (n : nat) : float :=
  PrimFloat.of_uint63 (Uint63.of_Z (Z.of_nat n)).

Definition float_of_Z (z : Z) : float :=
  if (z <? 0)%Z then - PrimFloat.of_uint63 (Uint63.of_Z (- z))
  else PrimFloat.of_uint63 (Uint63.of_Z z).

(** [Series.isna()], [Series.dropna()], [Series.isna().sum()],
    [Series.fillna(v)] *)
Definition isna (x : float) : bool := PrimFloat.is_nan x.
Definition dropna (a : list float) : list float :=
  filter (fun x => negb (isna x)) a.
Definition count_na (a : list float) : nat :=
  List.length (filter isna a).
Definition fillna (v : float) (a : list float) : list float :=
  map (fun x => if isna x then v else x) a.

(** [ndarray.sum()] of a float64 array, NumPy's pairwise summation: fewer
    than 8 values are added from left to right; up to 128 values go to 8
    running sums, one per position in a group of 8, which are then added as a
    tree, and the values past the last full group are added one by one; a
    longer array is split at a multiple of 8 near its middle and the sums of
    the two parts are added.  The reduction starts from 0. *)
Definition sum_small (a : list float) : float := fold_left PrimFloat.add a 0.

Fixpoint add_groups (k : nat) (r a : list float) : list float * list float :=
  match k with
  | O => (r, a)
  | S k' =>
      add_groups k' (map (fun p => fst p + snd p) (combine r (firstn 8 a))) (skipn 8 a)
  end.

Definition sum_block (a : list float) : float :=
  let (r, rest) := add_groups (List.length a / 8 - 1) (firstn 8 a) (skipn 8 a) in
  let acc := fun i => nth i r 0 in
  fold_left PrimFloat.add rest
    (((acc 0%nat + acc 1%nat) + (acc 2%nat + acc 3%nat))
     + ((acc 4%nat + acc 5%nat) + (acc 6%nat + acc 7%nat))).

(** [fuel] bounds the depth of the splitting; the length of the array is
    enough ([pairwise_sum_fuel]). *)
Fixpoint pairwise_sum (fuel : nat) (a : list float) : float :=
  let n := List.length a in
  if (n <? 8)%nat then sum_small a
  else if (n <=? 128)%nat then sum_block a
  else
    match fuel with
    | O => sum_block a
    | S fuel' =>
        let n2 := (n / 2 - (n / 2) mod 8)%nat in
        pairwise_sum fuel' (firstn n2 a) + pairwise_sum fuel' (skipn n2 a)
    end.

Definition sum (a : list float) : float := 0 + pairwise_sum (List.length a) a.

(** [ndarray.mean()]; the mean of nothing is 0/0, NaN. *)
Definition mean (a : list float) : float :=
  sum a / float_of_nat (List.length a).

(** [ndarray.std(ddof=0)], the population standard deviation SciPy's
    [zscore] uses. *)
Definition std0 (a : list float) : float :=
  let m := mean a in
  PrimFloat.sqrt
    (sum (map (fun x => (x - m) * (x - m)) a) / float_of_nat (List.length a)).

(** [Series.std()], the sample standard deviation (ddof=1) of values that
    hold no NaN; NaN when there are fewer than two values. *)
Definition std1 (a : list float) : float :=
  let n := List.length a in
  if (n <=? 1)%nat then nan
  else
    let avg := sum a / float_of_nat n in
    PrimFloat.sqrt
      (sum (map (fun x => (avg - x) * (avg - x)) a) / float_of_nat (n - 1)).

(** [Series.max()] *)
Definition max (a : list float) : float :=
  match a with
  | [] => nan
  | x :: a' => fold_left (fun m y => if m <? y then y else m) a' x
  end.

(** [Series.min()] *)
Definition min (a : list float) : float :=
  match a with
  | [] => nan
  | x :: a' => fold_left (fun m y => if y <? m then y else m) a' x
  end.

(** Ascending sort of values that hold no NaN. *)
Fixpoint insert (x : float) (l : list float) : list float :=
  match l with
  | [] => [x]
  | y :: l' => if x <=? y then x :: l else y :: insert x l'
  end.
Definition sort (a : list float) : list float := fold_right insert [] a.

(** [Series.median()], which skips NaN: the middle value, or the mean of
    the two middle values; NaN when nothing is left. *)
Definition median (a : list float) : float :=
  let s := sort (dropna a) in
  let n := List.length s in
  if (n =? 0)%nat then nan
  else if Nat.odd n then nth (n / 2) s nan
  else (nth (n / 2 - 1) s nan + nth (n / 2) s nan) / 2.

(** The largest [j <= k] with [j <= v], for [v >= 0]. *)
Fixpoint floor_upto (v : float) (k : nat) : nat :=
  match k with
  | O => O
  | S k' => if float_of_nat k <=? v then k else floor_upto v k'
  end.

(** [Series.quantile(q)] with linear interpolation, on values that hold no
    NaN (NumPy's [percentile] with its [_lerp]). *)
Definition quantile (q : float) (a : list float) : float :=
  let s := sort a in
  let n := List.length s in
  if (n =? 0)%nat then nan
  else
    let virtual := float_of_nat (n - 1) * q in
    let lo := floor_upto virtual (n - 1) in
    let hi := Nat.min (lo + 1) (n - 1) in
    let gamma := virtual - float_of_nat lo in
    let va := nth lo s nan in
    let vb := nth hi s nan in
    let diff := vb - va in
    if gamma <? 0.5 then va + diff * gamma else vb - diff * (1 - gamma).

(** [scipy.stats.zscore(a)] (ddof=0, nan_policy='propagate'): an empty
    input gives an empty output; a constant input gives NaN everywhere
    (SciPy sets the scores of a constant input to NaN; the test here is the
    comparison of every element with the first); otherwise [(a - mean) / std],
    where a division by zero is NaN or an infinity and no fault.  The result
    is an array: it has lost the row labels of the input. *)
Definition zscore (a : list float) : list float :=
  match a with
  | [] => []
  | a0 :: _ =>
      let mn := mean a in
      let sd := std0 a in
      if forallb (fun x => x =? a0) a then map (fun _ => nan) a
      else map (fun x => (x - mn) / sd) a
  end.

(** [np.abs] *)
Definition abs (a : list float) : list float := map PrimFloat.abs a.

(** [a > t], elementwise *)
Definition gt (a : list float) (t : float) : list bool :=
  map (fun x => t <? x) a.

(** [mask.any()], [np.sum(mask)], [~mask] *)
Definition any (m : list bool) : bool := existsb (fun b => b) m.
Definition count_true (m : list bool) : nat :=
  List.length (filter (fun b => b) m).
Definition invert (m : list bool) : list bool := map negb m.

(** Selection of the positions a boolean mask of the same length marks. *)
Fixpoint select {A : Type} (m : list bool) (l : list A) : list A :=
  match m, l with
  | b :: m', x :: l' => if b then x :: select m' l' else select m' l'
  | _, _ => []
  end.

End Np.

(** ** Tables

    A [DataFrame] as [read_csv] delivers the input files: row labels, the
    numeric fields by name, and the time stamp fields by name.  Every column
    is as long as the index ([wf]).  The cleaning and analysis operations look
    a name up among the numeric fields, [process_timestamp] among the time
    stamp fields.  An entry of a time stamp field is what [pd.to_datetime]
    reads it as; [None] is NaT. *)

Inductive dtype : Type := float64 | int64 | int32.

Record Series : Type := { dtype_of : dtype; values : list float }.

(** What the [.dt] accessor reads off a parsed time stamp. *)
Record DateTime : Type := { dt_hour : Z; dt_month : Z; dt_dayofweek : Z }.

Record DataFrame : Type := {
  index : list nat;
  columns : Dict.t Series;
  stamps : Dict.t (list (option DateTime))
}.

(** [df.shape[0]] *)
Definition nrows (df : DataFrame) : nat := List.length (index df).

Definition wf (df : DataFrame) : Prop :=
  Forall (fun kv => List.length (values (snd kv)) = nrows df) (columns df) /\
  Forall (fun kv => List.length (snd kv) = nrows df) (stamps df).

Definition wfb (df : DataFrame) : bool :=
  forallb (fun kv => (List.length (values (snd kv)) =? nrows df)%nat) (columns df) &&
  forallb (fun kv => (List.length (snd kv) =? nrows df)%nat) (stamps df).

(** [df[col] = s] *)
Definition set_column (df : DataFrame) (col : string) (s : Series) : DataFrame :=
  {| index := index df;
     columns := Dict.set col s (columns df);
     stamps := stamps df |}.

(** [df[mask]] for a boolean array: pandas raises when the array is not as
    long as the index, and keeps the marked rows otherwise. *)
Definition getitem_mask (df : DataFrame) (mask : list bool) : result DataFrame :=
  if (List.length mask =? nrows df)%nat then
    Ok {| index := Np.select mask (index df);
          columns :=
            map (fun kv =>
                   (fst kv, {| dtype_of := dtype_of (snd kv);
                               values := Np.select mask (values (snd kv)) |}))
                (columns df);
          stamps := map (fun kv => (fst kv, Np.select mask (snd kv))) (stamps df) |}
  else Raise (ValueError "Item wrong length").

(** ** scripts/data_processing.py *)

Module SolarDataProcessor.

(** [self.cleaning_report]: a key that was never assigned is [None]. *)
Record t : Type := {
  missing_values : option (Dict.t nat);
  outliers_detected : option (Dict.t nat);
  outliers_removed : option Z
}.

(** [__init__] *)
Definition init : t :=
  {| missing_values := None; outliers_detected := None; outliers_removed := None |}.

Definition default_columns_to_impute : list string :=
  ["GHI"; "DNI"; "DHI"; "Tamb"; "WS"; "RH"; "BP"].

Definition default_outlier_columns : list string :=
  ["GHI"; "DNI"; "DHI"; "ModA"; "ModB"; "WS"; "WSgust"; "Tamb"].

Definition default_z_threshold : float := 3.

Definition or_default (columns : option (list string)) (d : list string) :=
  match columns with
  | Some l => l
  | None => d
  end.

(** One turn of the loop of [handle_missing_values].  The fill is in place
    on [df[col]] and reaches the table, as [test_handle_missing_values]
    expects. *)
Definition impute_column (acc : DataFrame * Dict.t nat) (col : string)
  : DataFrame * Dict.t nat :=
  let (df, missing_report) := acc in
  match Dict.get col (columns df) with
  | Some s =>
      let missing_count := Np.count_na (values s) in
      if (0 <? missing_count)%nat then
        (set_column df col
           {| dtype_of := dtype_of s;
              values := Np.fillna (Np.median (values s)) (values s) |},
         Dict.set col missing_count missing_report)
      else acc
  | None => acc
  end.

Definition handle_missing_values (self : t) (df : DataFrame)
    (columns_to_impute : option (list string)) : t * DataFrame :=
  let cols := or_default columns_to_impute default_columns_to_impute in
  let (df', missing_report) := fold_left impute_column cols (df, Dict.empty) in
  ({| missing_values := Some missing_report;
      outliers_detected := outliers_detected self;
      outliers_removed := outliers_removed self |},
   df').

Definition numeric_dtype (d : dtype) : bool :=
  match d with
  | float64 | int64 => true
  | int32 => false
  end.

(** [np.abs(stats.zscore(df[col].dropna())) > z_threshold] *)
Definition outlier_mask (s : Series) (z_threshold : float) : list bool :=
  Np.gt (Np.abs (Np.zscore (Np.dropna (values s)))) z_threshold.

(** One turn of the loop of [detect_outliers]. *)
Definition detect_column (df : DataFrame) (z_threshold : float)
    (outliers_report : Dict.t nat) (col : string) : Dict.t nat :=
  match Dict.get col (columns df) with
  | Some s =>
      if numeric_dtype (dtype_of s) then
        Dict.set col (Np.count_true (outlier_mask s z_threshold)) outliers_report
      else outliers_report
  | None => outliers_report
  end.

Definition detect_outliers (df : DataFrame) (columns : option (list string))
    (z_threshold : float) : Dict.t nat :=
  fold_left (detect_column df z_threshold)
    (or_default columns default_outlier_columns) Dict.empty.

(** One turn of the loop of [remove_outliers]. *)
Definition remove_column (z_threshold : float) (df : DataFrame) (col : string)
  : result DataFrame :=
  match Dict.get col (columns df) with
  | Some s =>
      let mask := outlier_mask s z_threshold in
      if Np.any mask then getitem_mask df (Np.invert mask) else Ok df
  | None => Ok df
  end.

(** The loop of [remove_outliers]. *)
Definition remove_loop (z_threshold : float) (cols : list string) (df : DataFrame)
  : result DataFrame :=
  fold_left (fun acc col => df' <- acc ;; remove_column z_threshold df' col)
    cols (Ok df).

Definition remove_outliers (self : t) (df : DataFrame)
    (columns : option (list string)) (z_threshold : float) : result (t * DataFrame) :=
  let initial_rows := nrows df in
  df' <- remove_loop z_threshold (or_default columns default_outlier_columns) df ;;
  let removed_count := (Z.of_nat initial_rows - Z.of_nat (nrows df'))%Z in
  Ok ({| missing_values := missing_values self;
         outliers_detected := outliers_detected self;
         outliers_removed := Some removed_count |},
      df').

(** [(month % 12 + 3) // 3] *)
Definition season (month : Z) : Z := ((month mod 12 + 3) / 3)%Z.

(** A column derived from the parsed time stamps; a missing time stamp
    (NaT) gives NaN and turns the column into [float64]. *)
Definition derived (f : DateTime -> Z) (ts : list (option DateTime)) : Series :=
  {| dtype_of := if forallb (fun o => match o with Some _ => true | None => false end) ts
                 then int32 else float64;
     values := map (fun o => match o with
                             | Some d => Np.float_of_Z (f d)
                             | None => nan
                             end) ts |}.

(** [process_timestamp] on a table whose time stamp column [pd.to_datetime]
    reads, the time stamps being held as they are read: the exception
    [pd.to_datetime] raises on a cell it cannot read is outside this model,
    and so is a numeric column under the name [timestamp_col]. *)
Definition process_timestamp (df : DataFrame) (timestamp_col : string) : DataFrame :=
  match Dict.get timestamp_col (stamps df) with
  | Some ts =>
      let df1 := set_column df "Hour" (derived dt_hour ts) in
      let df2 := set_column df1 "Month" (derived dt_month ts) in
      let df3 := set_column df2 "DayOfWeek" (derived dt_dayofweek ts) in
      set_column df3 "Season" (derived (fun d => season (dt_month d)) ts)
  | None => df
  end.

Definition get_cleaning_summary (self : t) : t := self.

(** [clean_solar_data] after [load_data]: [None] is a file that could not
    be read. *)
Definition clean_solar_data (self : t) (loaded : option DataFrame)
  : result (t * option DataFrame) :=
  match loaded with
  | None => Ok (self, None)
  | Some df =>
      let (self1, df1) := handle_missing_values self df None in
      let outliers_report := detect_outliers df1 None default_z_threshold in
      let self2 := {| missing_values := missing_values self1;
                      outliers_detected := Some outliers_report;
                      outliers_removed := outliers_removed self1 |} in
      r <- remove_outliers self2 df1 None default_z_threshold ;;
      Ok (fst r, Some (process_timestamp (snd r) "Timestamp"))
  end.

End SolarDataProcessor.


(** ** scripts/analysis.py *)

Module SolarAnalyzer.

(** The dictionary of [calculate_summary_statistics]: under every key the
    value of each numeric column, missing values skipped. *)
Record Summary : Type := {
  summary_count : Dict.t nat;
  summary_mean : Dict.t float;
  summary_median : Dict.t float;
  summary_std : Dict.t float;
  summary_min : Dict.t float;
  summary_max : Dict.t float;
  summary_q25 : Dict.t float;
  summary_q75 : Dict.t float
}.

(** [df[numeric_columns].f()]: one value per numeric column. *)
Definition per_column {V : Type} (f : list float -> V) (df : DataFrame) : Dict.t V :=
  map (fun kv => (fst kv, f (Np.dropna (values (snd kv))))) (columns df).

(** [if country_name:] *)
Definition truthy (country_name : option string) : bool :=
  match country_name with
  | None => false
  | Some EmptyString => false
  | Some _ => true
  end.

(** [df[name]] *)
Definition getitem (df : DataFrame) (name : string) : outcome Series :=
  match Dict.get name (columns df) with
  | Some s => Done s
  | None => Failed (KeyError name)
  end.

(** The lines printed for a country read [df['GHI']] and [df['Tamb']]
    without a test of their presence, and [df['RH']] after one. *)
Definition calculate_summary_statistics (df : DataFrame) (country_name : option string)
  : outcome Summary :=
  let summary :=
    {| summary_count := per_column (fun a => List.length a) df;
       summary_mean := per_column Np.mean df;
       summary_median := per_column Np.median df;
       summary_std := per_column Np.std1 df;
       summary_min := per_column Np.min df;
       summary_max := per_column Np.max df;
       summary_q25 := per_column (Np.quantile 0.25) df;
       summary_q75 := per_column (Np.quantile 0.75) df |} in
  if truthy country_name then
    ghi <-- getitem df "GHI" ;;
    tamb <-- getitem df "Tamb" ;;
    Done summary
  else Done summary.

Section Correlations.

(** [numeric_df.corr()[target_column].sort_values(ascending=False)]: the
    Pearson correlation of every numeric column with the target, as pandas
    computes and orders it. *)
Variable corr : DataFrame -> string -> Dict.t float.

(** One turn of the loop of [analyze_correlations]. *)
Definition keep_correlation (target_column : string) (threshold : float)
    (significant_correlations : Dict.t float) (item : string * float) : Dict.t float :=
  let (col, c) := item in
  if negb (String.eqb col target_column) && (threshold <=? PrimFloat.abs c)
  then Dict.set col c significant_correlations
  else significant_correlations.

Definition analyze_correlations (df : DataFrame) (target_column : string)
    (threshold : float) : Dict.t float :=
  if negb (Dict.contains target_column (columns df)) then Dict.empty
  else fold_left (keep_correlation target_column threshold)
         (corr df target_column) Dict.empty.

End Correlations.

(** The dictionary [calculate_solar_potential_metrics] returns when it has a
    GHI column; the empty dictionary it returns otherwise is [None]. *)
Record Metrics : Type := {
  average_ghi : float;
  std_ghi : float;
  cv_ghi : float;
  peak_ghi : float;
  peak_95th : float;
  consistency_score : float;
  operational_hours : nat;
  high_potential_hours : nat
}.

(** [len(ghi_data[ghi_data > t])] *)
Definition hours_above (t : float) (ghi_data : list float) : nat :=
  List.length (filter (fun x => t <? x) ghi_data).

Definition calculate_solar_potential_metrics (df : DataFrame) : option Metrics :=
  match Dict.get "GHI" (columns df) with
  | None => None
  | Some s =>
      let ghi_data := Np.dropna (values s) in
      Some {| average_ghi := Np.mean ghi_data;
              std_ghi := Np.std1 ghi_data;
              cv_ghi := (Np.std1 ghi_data / Np.mean ghi_data) * 100;
              peak_ghi := Np.max ghi_data;
              peak_95th := Np.quantile 0.95 ghi_data;
              consistency_score := 100 - (Np.std1 ghi_data / Np.mean ghi_data) * 100;
              operational_hours := hours_above 50 ghi_data;
              high_potential_hours := hours_above 400 ghi_data |}
  end.

(** One value of the dictionary [rank_countries] builds. *)
Record Ranking : Type := {
  composite_score : float;
  ranking_average_ghi : float;
  consistency : float;
  ranking_high_potential_hours : nat;
  metrics : Metrics
}.

(** The weighted sum of [rank_countries], in the order Python evaluates it. *)
Definition composite (m : Metrics) : float :=
  average_ghi m * 0.4
  + (100 - cv_ghi m) * 0.3
  + Np.float_of_nat (high_potential_hours m) * 0.2
  + peak_95th m * 0.1.

(** One turn of the loop of [rank_countries]. *)
Definition rank_country (rankings : Dict.t Ranking) (item : string * DataFrame)
  : Dict.t Ranking :=
  let (country, df) := item in
  match calculate_solar_potential_metrics df with
  | Some m =>
      Dict.set country
        {| composite_score := composite m;
           ranking_average_ghi := average_ghi m;
           consistency := 100 - cv_ghi m;
           ranking_high_potential_hours := high_potential_hours m;
           metrics := m |}
        rankings
  | None => rankings
  end.

(** [sorted(items, key=key, reverse=True)]: a stable sort, largest key
    first.  Python decides with [<] alone; on keys without NaN every stable
    sort gives this list. *)
Fixpoint insert_reverse {A : Type} (key : A -> float) (x : A) (l : list A) : list A :=
  match l with
  | [] => [x]
  | y :: l' => if key x <? key y then y :: insert_reverse key x l' else x :: l
  end.

Definition sorted_reverse {A : Type} (key : A -> float) (l : list A) : list A :=
  fold_right (insert_reverse key) [] l.

Definition rank_countries (country_data_dict : Dict.t DataFrame) : Dict.t Ranking :=
  let rankings := fold_left rank_country country_data_dict Dict.empty in
  Dict.of_items (sorted_reverse (fun x => composite_score (snd x)) rankings).

Record TestResult : Type := {
  statistic : float;
  p_value : float;
  significant : bool
}.

(** The dictionary [compare_countries_statistical] returns when it ran the
    tests; the empty dictionary it returns otherwise is [None]. *)
Record Comparison : Type := {
  countries : list string;
  sample_sizes : Dict.t nat;
  anova : TestResult;
  kruskal_wallis : TestResult
}.

Record Insights : Type := {
  top_country : option string;
  statistical_significance : bool;
  country_metrics : Dict.t (option Metrics);
  rankings : Dict.t Ranking;
  statistical_tests : option Comparison
}.

Section Tests.

(** [scipy.stats.f_oneway] and [scipy.stats.kruskal]: the statistic and the
    p-value of the samples, or the exception the library raises. *)
Variable f_oneway : list (list float) -> result (float * float).
Variable kruskal : list (list float) -> result (float * float).

(** One turn of the first loop of [compare_countries_statistical]. *)
Definition collect_sample (metric : string) (country_samples : Dict.t (list float))
    (item : string * DataFrame) : Dict.t (list float) :=
  let (country, df) := item in
  match Dict.get metric (columns df) with
  | Some s => Dict.set country (Np.dropna (values s)) country_samples
  | None => country_samples
  end.

Definition compare_countries_statistical (country_data_dict : Dict.t DataFrame)
    (metric : string) : result (option Comparison) :=
  let country_samples := fold_left (collect_sample metric) country_data_dict Dict.empty in
  if (List.length country_samples <? 2)%nat then Ok None
  else
    anova_result <- f_oneway (map snd country_samples) ;;
    kruskal_result <- kruskal (map snd country_samples) ;;
    Ok (Some {| countries := Dict.keys country_samples;
                sample_sizes := map (fun kv => (fst kv, List.length (snd kv))) country_samples;
                anova := {| statistic := fst anova_result;
                            p_value := snd anova_result;
                            significant := snd anova_result <? 0.05 |};
                kruskal_wallis := {| statistic := fst kruskal_result;
                                     p_value := snd kruskal_result;
                                     significant := snd kruskal_result <? 0.05 |} |}).

Definition generate_insights_report (country_data_dict : Dict.t DataFrame)
  : result Insights :=
  let country_metrics :=
    fold_left (fun d item => Dict.set (fst item)
                               (calculate_solar_potential_metrics (snd item)) d)
      country_data_dict Dict.empty in
  statistical_results <- compare_countries_statistical country_data_dict "GHI" ;;
  let rankings := rank_countries country_data_dict in
  Ok {| top_country := match Dict.keys rankings with
                       | k :: _ => Some k
                       | [] => None
                       end;
        statistical_significance :=
          match statistical_results with
          | Some c => significant (anova c)
          | None => false
          end;
        country_metrics := country_metrics;
        rankings := rankings;
        statistical_tests := statistical_results |}.

End Tests.

End SolarAnalyzer.


(** ** Paths and names *)

(** [s.endswith("/")] *)
Fixpoint ends_with_sep (s : string) : bool :=
  match s with
  | EmptyString => false
  | String c EmptyString => Ascii.eqb c "/"
  | String _ s' => ends_with_sep s'
  end.

(** [os.path.join(a, b)] *)
Definition path_join (a b : string) : string :=
  if prefix "/" b then b
  else if (String.length a =? 0)%nat || ends_with_sep a then a ++ b
  else a ++ "/" ++ b.

(** [str.lower()] on ASCII letters *)
Definition lower_ascii (c : ascii) : ascii :=
  let n := nat_of_ascii c in
  if (65 <=? n)%nat && (n <=? 90)%nat then ascii_of_nat (n + 32) else c.

Fixpoint lower (s : string) : string :=
  match s with
  | EmptyString => EmptyString
  | String c s' => String (lower_ascii c) (lower s')
  end.

(** [str(n)] *)
Definition str_of_nat (n : nat) : string := NilEmpty.string_of_uint (Nat.to_uint n).

(** ** The functions of scripts/data_processing.py outside the class *)

Module DataProcessing.

Section Files.

(** [load_data]: the table [pd.read_csv] reads, [None] when it raises. *)
Variable read_csv : string -> option DataFrame.
(** [df.to_csv(path, index=False)]: the exception it raises, if any. *)
Variable to_csv : DataFrame -> string -> result unit.
(** [os.path.exists] *)
Variable path_exists : string -> bool.

(** [clean_solar_data(filepath, export_path, country_name)]: the cleaning of
    the loaded table, then the export when a path is given. *)
Definition clean_solar_data (self : SolarDataProcessor.t) (filepath : string)
    (export_path : option string) : result (SolarDataProcessor.t * option DataFrame) :=
  r <- SolarDataProcessor.clean_solar_data self (read_csv filepath) ;;
  match snd r, export_path with
  | Some df, Some path =>
      if (String.length path =? 0)%nat then Ok r
      else _ <- to_csv df path ;; Ok r
  | _, _ => Ok r
  end.

Definition load_and_clean_data (filepath : string) (export_path : option string)
  : result (option DataFrame) :=
  r <- clean_solar_data SolarDataProcessor.init filepath export_path ;;
  Ok (snd r).

Definition country_files : Dict.t string :=
  [("Benin", "benin-malanville.csv");
   ("Sierra_Leone", "sierra_leone.csv");
   ("Togo", "togo.csv")].

(** One turn of the loop of [batch_process_countries]. *)
Definition process_file (data_dir output_dir : string)
    (results : Dict.t (option DataFrame)) (item : string * string)
  : result (Dict.t (option DataFrame)) :=
  let (country, filename) := item in
  let input_path := path_join data_dir filename in
  let output_path := path_join output_dir (lower country ++ "_clean.csv") in
  if path_exists input_path then
    df <- load_and_clean_data input_path (Some output_path) ;;
    Ok (Dict.set country df results)
  else Ok results.

Definition batch_process_countries (data_dir output_dir : string)
  : result (Dict.t (option DataFrame)) :=
  fold_left (fun acc item => results <- acc ;; process_file data_dir output_dir results item)
    country_files (Ok Dict.empty).

End Files.

End DataProcessing.

(** ** The function of scripts/analysis.py outside the class *)

Module Analysis.

Section Files.

Variable read_csv : string -> option DataFrame.
Variable to_csv : DataFrame -> string -> result unit.
Variable corr : DataFrame -> string -> Dict.t float.
Variable f_oneway : list (list float) -> result (float * float).
Variable kruskal : list (list float) -> result (float * float).

(** [[f"Country_{i+1}" for i in range(n)]] *)
Definition default_country_names (n : nat) : list string :=
  map (fun i => "Country_" ++ str_of_nat (i + 1)) (seq 0 n).

(** One turn of the loop of [analyze_solar_data]; the result of
    [analyze_correlations] is not used. *)
Definition analyze_file (country_data : Dict.t DataFrame) (item : string * string)
  : outcome (Dict.t DataFrame) :=
  let (filepath, country) := item in
  loaded <-- lift (DataProcessing.load_and_clean_data read_csv to_csv filepath None) ;;
  match loaded with
  | Some df =>
      _ <-- SolarAnalyzer.calculate_summary_statistics df (Some country) ;;
      let _ := SolarAnalyzer.analyze_correlations corr df "GHI" 0.3 in
      Done (Dict.set country df country_data)
  | None => Done country_data
  end.

(** The dictionary of countries [analyze_solar_data] builds. *)
Definition analyzed_countries (filepaths : list string) (country_names : option (list string))
  : outcome (Dict.t DataFrame) :=
  let names := match country_names with
               | Some l => l
               | None => default_country_names (List.length filepaths)
               end in
  fold_left (fun acc item => country_data <-- acc ;; analyze_file country_data item)
    (combine filepaths names) (Done Dict.empty).

(** The insights, or [None] for the empty dictionary. *)
Definition analyze_solar_data (filepaths : list string) (country_names : option (list string))
  : outcome (option SolarAnalyzer.Insights) :=
  country_data <-- analyzed_countries filepaths country_names ;;
  if (2 <=? List.length country_data)%nat then
    insights <-- lift (SolarAnalyzer.generate_insights_report f_oneway kruskal country_data) ;;
    Done (Some insights)
  else Done None.

End Files.

End Analysis.

(** ** config/settings.py *)

Module Settings.

Record CountryInfo : Type := {
  file : string;
  cleaned_file : string;
  location : string
}.

Definition data_directory : string := "data".

Definition COUNTRIES : Dict.t CountryInfo :=
  [("Benin", {| file := "benin-malanville.csv";
                cleaned_file := "benin_clean.csv";
                location := "Malanville" |});
   ("Sierra_Leone", {| file := "sierra_leone.csv";
                       cleaned_file := "sierra_leone_clean.csv";
                       location := "Sierra Leone" |});
   ("Togo", {| file := "togo.csv";
               cleaned_file := "togo_clean.csv";
               location := "Togo" |})].

Definition get_country_filepath (country : string) (data_dir : option string)
  : result (string * string) :=
  let data_dir := match data_dir with
                  | Some d => d
                  | None => data_directory
                  end in
  match Dict.get country COUNTRIES with
  | None => Raise (ValueError ("Unknown country: " ++ country))
  | Some country_info =>
      Ok (data_dir ++ "/" ++ file country_info,
          data_dir ++ "/" ++ cleaned_file country_info)
  end.

Definition get_all_countries : list string := Dict.keys COUNTRIES.

End Settings.

(** ** main.py *)

Module Main.

Section Tests.

Variable f_oneway : list (list float) -> result (float * float).
Variable kruskal : list (list float) -> result (float * float).

(** [run_comparative_analysis]: [None] when it returns without insights. *)
Definition run_comparative_analysis (country_data : Dict.t DataFrame)
  : result (option SolarAnalyzer.Insights) :=
  if (List.length country_data <? 2)%nat then Ok None
  else
    insights <- SolarAnalyzer.generate_insights_report f_oneway kruskal country_data ;;
    Ok (Some insights).

End Tests.

End Main.

(** ** Vocabulary of the statements *)

Definition mem (c : string) (l : list string) : bool := existsb (String.eqb c) l.

(** The column [handle_missing_values] leaves in place of a column it
    imputes. *)
Definition imputed (s : Series) : Series :=
  {| dtype_of := dtype_of s;
     values := Np.fillna (Np.median (values s)) (values s) |}.


(** The value [rank_countries] stores for a country with these metrics. *)
Definition ranking_of (m : SolarAnalyzer.Metrics) : SolarAnalyzer.Ranking :=
  {| SolarAnalyzer.composite_score := SolarAnalyzer.composite m;
     SolarAnalyzer.ranking_average_ghi := SolarAnalyzer.average_ghi m;
     SolarAnalyzer.consistency := 100 - SolarAnalyzer.cv_ghi m;
     SolarAnalyzer.ranking_high_potential_hours := SolarAnalyzer.high_potential_hours m;
     SolarAnalyzer.metrics := m |}.

(** The countries of the input that have GHI metrics, in the order of the
    input, each with its ranking value. *)
Definition ranked (d : Dict.t DataFrame) : Dict.t SolarAnalyzer.Ranking :=
  flat_map (fun item =>
              match SolarAnalyzer.calculate_solar_potential_metrics (snd item) with
              | Some m => [(fst item, ranking_of m)]
              | None => []
              end) d.

Definition score (x : string * SolarAnalyzer.Ranking) : float :=
  SolarAnalyzer.composite_score (snd x).

(** [score[i] >= score[i+1]] for all adjacent entries. *)
Definition descending (l : Dict.t SolarAnalyzer.Ranking) : Prop :=
  forall i a b,
    nth_error l i = Some a -> nth_error l (S i) = Some b ->
    (score b <=? score a) = true.

(** A value that is neither NaN nor an infinity. *)
Definition sf_finite (x : spec_float) : bool :=
  match x with
  | S754_zero _ | S754_finite _ _ _ => true
  | S754_infinity _ | S754_nan => false
  end.

Definition finite (x : float) : bool := sf_finite (Prim2SF x).

(** [a] may stand before [b] in a descending order of keys. *)
Definition ge_key {A : Type} (key : A -> float) (a b : A) : Prop :=
  (key b <=? key a) = true.

(** No checked column that is present has a missing value. *)
Definition no_missing (cols : list string) (df : DataFrame) : Prop :=
  forall c s,
    In c cols -> Dict.get c (columns df) = Some s -> Np.count_na (values s) = 0%nat.

(** The rows one turn of [remove_outliers] keeps when the column has no
    missing value: those whose Z-score, over the column as it is now, does not
    exceed the threshold. *)
Definition kept (t : float) (s : Series) : list bool :=
  map (fun z => negb (t <? PrimFloat.abs z)) (Np.zscore (values s)).

(** The samples [compare_countries_statistical] collects: the metric column
    of every country that has it, missing values dropped, in the order of
    the input. *)
Definition samples (metric : string) (d : Dict.t DataFrame) : Dict.t (list float) :=
  flat_map (fun item =>
              match Dict.get metric (columns (snd item)) with
              | Some s => [(fst item, Np.dropna (values s))]
              | None => []
              end) d.

(** The single combined pass that the specification sets apart from
    [remove_outliers]: every present column's mask is computed on the table
    as it is given, and a row goes when any of the masks marks it. *)
Fixpoint mask_or (m1 m2 : list bool) : list bool :=
  match m1, m2 with
  | b1 :: m1', b2 :: m2' => (b1 || b2) :: mask_or m1' m2'
  | _, _ => m1
  end.

Definition combined_mask (z_threshold : float) (cols : list string) (df : DataFrame)
  : list bool :=
  fold_left (fun acc col =>
               match Dict.get col (columns df) with
               | Some s => mask_or acc (SolarDataProcessor.outlier_mask s z_threshold)
               | None => acc
               end)
    cols (repeat false (nrows df)).

Definition remove_single_pass (z_threshold : float) (cols : list string) (df : DataFrame)
  : result DataFrame :=
  getitem_mask df (Np.invert (combined_mask z_threshold cols df)).

(** What holds of the dictionary of countries at every turn of the loop of
    [analyze_solar_data] over [items]: the names are distinct, every table is
    the cleaned table of a file listed under its name, and a table under a
    non-empty name has the two columns the summary prints. *)
Definition analysed (read_csv : string -> option DataFrame)
    (to_csv : DataFrame -> string -> result unit) (items : list (string * string))
    (acc : Dict.t DataFrame) : Prop :=
  NoDup (Dict.keys acc) /\
  forall c df,
    In (c, df) acc ->
    exists filepath,
      In (filepath, c) items /\
      DataProcessing.load_and_clean_data read_csv to_csv filepath None = Ok (Some df) /\
      (c <> EmptyString ->
       Dict.get "GHI" (columns df) <> None /\ Dict.get "Tamb" (columns df) <> None).

(** ** Tables the statements are evaluated on *)

Module Examples.

Definition floats (l : list float) : Series := {| dtype_of := float64; values := l |}.

Definition table (n : nat) (cols : Dict.t Series) : DataFrame :=
  {| index := seq 0 n; columns := cols; stamps := [] |}.

(** Row 0 is an outlier of GHI.  Row 1 is an outlier of DNI only once row 0
    is gone. *)
Definition two_columns : DataFrame :=
  table 13 [("GHI", floats [100; 0; 0; 0; 0; 0; 0; 0; 0; 0; 0; 0; 0]);
            ("DNI", floats [-50; 50; 0; 0; 0; 0; 0; 0; 0; 0; 0; 0; 0])].

(** ModA is a column [clean_solar_data] checks for outliers and does not
    impute: one missing value and one outlier. *)
Definition gap_and_spike : DataFrame :=
  table 13 [("ModA", floats [nan; 0; 0; 0; 0; 0; 0; 0; 0; 0; 0; 0; 100])].


(** GHI is entirely missing, DNI is not. *)
Definition no_ghi_data : DataFrame :=
  table 3 [("GHI", floats [nan; nan; nan]); ("DNI", floats [1; nan; 3])].

Definition steady : DataFrame :=
  table 2 [("GHI", floats [100; 300])].

Definition bright : DataFrame :=
  table 2 [("GHI", floats [500; 450])].

(** One GHI value: its sample standard deviation is NaN. *)
Definition one_reading : DataFrame :=
  table 1 [("GHI", floats [500])].

Definition empty_ghi : DataFrame :=
  table 1 [("GHI", floats [nan])].

Definition without_ghi : DataFrame :=
  table 1 [("DNI", floats [500])].


Definition stamped : DataFrame :=
  {| index := [0; 1]%nat;
     columns := [("GHI", floats [1; 2])];
     stamps := [("Timestamp",
                 [Some {| dt_hour := 0; dt_month := 1; dt_dayofweek := 6 |};
                  Some {| dt_hour := 23; dt_month := 12; dt_dayofweek := 0 |}])] |}.

(** Two countries with the same table around a brighter one, and one
    without GHI. *)
Definition tied_countries : Dict.t DataFrame :=
  [("Togo", steady); ("Benin", bright); ("Mali", without_ghi); ("Niger", steady)].

Definition one_reading_countries : Dict.t DataFrame :=
  [("Togo", steady); ("Benin", one_reading)].

(** A stand-in for a statistical test: statistic 0, p-value 1. *)
Definition flat_test (groups : list (list float)) : result (float * float) :=
  Ok (0, 1).

(** Togo has a GHI column and no GHI value. *)
Definition empty_ghi_countries : Dict.t DataFrame :=
  [("Benin", steady); ("Togo", empty_ghi)].

(** Tables with the two columns the printed summary reads. *)
Definition with_tamb (ghi : list float) : DataFrame :=
  table (List.length ghi) [("GHI", floats ghi); ("Tamb", floats (map (fun _ => 25) ghi))].

(** A file system with two readable files and one without a Tamb column. *)
Definition disk (filepath : string) : option DataFrame :=
  if String.eqb filepath "data/benin-malanville.csv" then Some (with_tamb [100; 300])
  else if String.eqb filepath "data/togo.csv" then Some (with_tamb [500; 450])
  else if String.eqb filepath "data/sierra_leone.csv" then Some steady
  else None.

Definition on_disk (filepath : string) : bool :=
  match disk filepath with Some _ => true | None => false end.

Definition no_export (df : DataFrame) (path : string) : result unit := Ok tt.

(** A correlation series: GHI with itself, a strong, a weak and an undefined
    correlation. *)
Definition some_corr (df : DataFrame) (target_column : string) : Dict.t float :=
  [("GHI", 1); ("DNI", 0.9); ("Tamb", 0.1); ("WS", -0.5); ("BP", nan)].

End Examples.


(** * Properties *)

(** ** Order and equality of binary64 values *)

Lemma SFcompare_sym (a b : spec_float) :
  SFcompare b a = option_map CompOpp (SFcompare a b).
Proof.
  destruct a as [sa | sa | | sa ma ea], b as [sb | sb | | sb mb eb]; simpl;
    try destruct sa; try destruct sb; simpl; try reflexivity.
  - rewrite (Z.compare_antisym ea eb).
    destruct (ea ?= eb)%Z; simpl; try reflexivity.
    change (PosDef.Pos.compare_cont Eq mb ma) with (Pos.compare mb ma).
    change (PosDef.Pos.compare_cont Eq ma mb) with (Pos.compare ma mb).
    rewrite (Pos.compare_antisym ma mb). reflexivity.
  - rewrite (Z.compare_antisym ea eb).
    destruct (ea ?= eb)%Z; simpl; try reflexivity.
    change (PosDef.Pos.compare_cont Eq mb ma) with (Pos.compare mb ma).
    change (PosDef.Pos.compare_cont Eq ma mb) with (Pos.compare ma mb).
    rewrite (Pos.compare_antisym ma mb). reflexivity.
Qed.

Lemma SFcompare_refl (a : spec_float) :
  a <> S754_nan -> SFcompare a a = Some Eq.
Proof.
  destruct a as [sa | sa | | sa ma ea]; simpl; intros H;
    try destruct sa; try reflexivity; try congruence.
  - rewrite Z.compare_refl.
    change (PosDef.Pos.compare_cont Eq ma ma) with (Pos.compare ma ma).
    now rewrite Pos.compare_refl.
  - rewrite Z.compare_refl.
    change (PosDef.Pos.compare_cont Eq ma ma) with (Pos.compare ma ma).
    now rewrite Pos.compare_refl.
Qed.

Lemma SFcompare_None (a b : spec_float) :
  SFcompare a b = None -> a = S754_nan \/ b = S754_nan.
Proof.
  destruct a, b; simpl; intros H; try discriminate; auto.
Qed.

Lemma SFcompare_Eq_subst (a b c : spec_float) :
  SFcompare a b = Some Eq -> SFcompare a c = SFcompare b c.
Proof.
  destruct a as [sa | sa | | sa ma ea], b as [sb | sb | | sb mb eb]; simpl;
    try destruct sa; try destruct sb; simpl; try discriminate; intros H;
    try reflexivity.
  - destruct (ea ?= eb)%Z eqn:E; try discriminate.
    apply Z.compare_eq in E. subst eb.
    injection H as H.
    change (PosDef.Pos.compare_cont Eq ma mb) with (Pos.compare ma mb) in H.
    destruct (Pos.compare ma mb) eqn:E2; try discriminate.
    apply Pos.compare_eq in E2. subst. reflexivity.
  - destruct (ea ?= eb)%Z eqn:E; try discriminate.
    apply Z.compare_eq in E. subst eb.
    injection H as H.
    change (PosDef.Pos.compare_cont Eq ma mb) with (Pos.compare ma mb) in H.
    destruct (Pos.compare ma mb) eqn:E2; try discriminate.
    apply Pos.compare_eq in E2. subst. reflexivity.
Qed.

Lemma is_nan_spec (x : float) : is_nan x = true <-> Prim2SF x = S754_nan.
Proof.
  unfold is_nan. rewrite eqb_spec. unfold SFeqb. split.
  - intros H. destruct (Prim2SF x) eqn:E; try reflexivity;
      rewrite SFcompare_refl in H by congruence; discriminate.
  - intros ->. reflexivity.
Qed.

Lemma is_nan_false (x : float) : is_nan x = false <-> Prim2SF x <> S754_nan.
Proof.
  rewrite <- is_nan_spec. destruct (is_nan x); split; congruence.
Qed.

(** There is one NaN. *)
Lemma is_nan_eq (x : float) : is_nan x = true -> x = nan.
Proof.
  intros H. apply Prim2SF_inj. apply is_nan_spec in H. rewrite H. reflexivity.
Qed.

Lemma float_eqb_refl (x : float) : is_nan x = false -> (x =? x) = true.
Proof.
  unfold is_nan. destruct (x =? x); simpl; congruence.
Qed.

Lemma ltb_false_leb (x y : float) :
  is_nan x = false -> is_nan y = false -> (x <? y) = false -> (y <=? x) = true.
Proof.
  rewrite !is_nan_false, ltb_spec, leb_spec. unfold SFltb, SFleb.
  intros Hx Hy. rewrite (SFcompare_sym (Prim2SF x) (Prim2SF y)).
  destruct (SFcompare (Prim2SF x) (Prim2SF y)) as [[ | | ] | ] eqn:E; simpl;
    try congruence.
  apply SFcompare_None in E. tauto.
Qed.

Lemma ltb_leb (x y : float) : (x <? y) = true -> (x <=? y) = true.
Proof.
  rewrite ltb_spec, leb_spec. unfold SFltb, SFleb.
  destruct (SFcompare (Prim2SF x) (Prim2SF y)) as [[ | | ] | ]; congruence.
Qed.


Lemma leb_nan_l (x : float) : (nan <=? x) = false.
Proof.
  rewrite leb_spec. reflexivity.
Qed.

Lemma leb_nan_r (x : float) : (x <=? nan) = false.
Proof.
  rewrite leb_spec. unfold SFleb.
  replace (Prim2SF nan) with S754_nan by reflexivity.
  destruct (Prim2SF x); reflexivity.
Qed.

Lemma float_eqb_sym (x y : float) : (x =? y) = (y =? x).
Proof.
  rewrite !eqb_spec. unfold SFeqb. rewrite (SFcompare_sym (Prim2SF x) (Prim2SF y)).
  destruct (SFcompare (Prim2SF x) (Prim2SF y)) as [[ | | ] | ]; reflexivity.
Qed.


Lemma float_eqb_subst (x y z : float) : (x =? y) = true -> (x =? z) = (y =? z).
Proof.
  rewrite !eqb_spec. unfold SFeqb. intros H1.
  destruct (SFcompare (Prim2SF x) (Prim2SF y)) as [[ | | ] | ] eqn:E; try discriminate.
  now rewrite (SFcompare_Eq_subst _ _ _ E).
Qed.

Lemma ltb_not_eqb (x y : float) : (x <? y) = true -> (x =? y) = false.
Proof.
  rewrite !eqb_spec, !ltb_spec. unfold SFeqb, SFltb.
  destruct (SFcompare (Prim2SF x) (Prim2SF y)) as [[ | | ] | ]; congruence.
Qed.

Lemma SF64mul_comm (x y : spec_float) : SF64mul x y = SF64mul y x.
Proof.
  unfold SF64mul, SFmul.
  destruct x as [sa | sa | | sa ma ea], y as [sb | sb | | sb mb eb];
    try reflexivity; try (rewrite xorb_comm; reflexivity).
  rewrite xorb_comm, Pos.mul_comm, Z.add_comm. reflexivity.
Qed.

Lemma float_mul_comm (x y : float) : x * y = y * x.
Proof.
  apply Prim2SF_inj. rewrite !mul_spec. apply SF64mul_comm.
Qed.

(** ** Summation

    The splitting of [pairwise_sum] ends: any [fuel] that is at least the
    length of the array gives the sum the length itself gives. *)

Lemma pairwise_sum_fuel_irrelevant (f1 : nat) :
  forall (f2 : nat) (a : list float),
    (List.length a <= f1)%nat -> (List.length a <= f2)%nat ->
    Np.pairwise_sum f1 a = Np.pairwise_sum f2 a.
Proof.
  induction f1 as [| f1 IH]; intros f2 a H1 H2.
  - destruct a; [| simpl in H1; lia]. destruct f2; reflexivity.
  - destruct f2 as [| f2].
    + destruct a; [| simpl in H2; lia]. reflexivity.
    + cbn [Np.pairwise_sum].
      destruct (List.length a <? 8)%nat eqn:E8; [reflexivity |].
      destruct (List.length a <=? 128)%nat eqn:E128; [reflexivity |].
      apply Nat.leb_gt in E128.
      assert (Hdiv : (List.length a / 2 < List.length a)%nat)
        by (apply Nat.div_lt; lia).
      assert (Hmod : ((List.length a / 2) mod 8 < 8)%nat)
        by (apply Nat.mod_upper_bound; lia).
      assert (Hhalf : (64 <= List.length a / 2)%nat)
        by (apply Nat.div_le_lower_bound; lia).
      f_equal; apply IH; rewrite ?length_firstn, ?length_skipn; lia.
Qed.

Lemma pairwise_sum_fuel (fuel : nat) (a : list float) :
  (List.length a <= fuel)%nat ->
  Np.pairwise_sum fuel a = Np.pairwise_sum (List.length a) a.
Proof.
  intros H. now apply pairwise_sum_fuel_irrelevant.
Qed.

(** Fewer than 8 values are added from left to right. *)
Lemma sum_short (a : list float) :
  (List.length a < 8)%nat -> Np.sum a = 0 + fold_left PrimFloat.add a 0.
Proof.
  intros H. unfold Np.sum. destruct (List.length a) eqn:E.
  - destruct a; [reflexivity | discriminate].
  - cbn [Np.pairwise_sum]. rewrite E.
    now rewrite (proj2 (Nat.ltb_lt _ _) H).
Qed.

(** ** Dictionaries *)

Section DictFacts.
Context {V : Type}.
Implicit Types (d : Dict.t V) (k : string) (v : V).

Lemma get_set_same k v d : Dict.get k (Dict.set k v d) = Some v.
Proof.
  induction d as [| [k' v'] d IH]; simpl.
  - now rewrite String.eqb_refl.
  - destruct (String.eqb k k') eqn:E; simpl; rewrite E; auto.
Qed.

Lemma get_set_other k k' v d :
  k <> k' -> Dict.get k (Dict.set k' v d) = Dict.get k d.
Proof.
  intros Hne. induction d as [| [k1 v1] d IH]; simpl.
  - apply String.eqb_neq in Hne. now rewrite Hne.
  - destruct (String.eqb k' k1) eqn:E; simpl.
    + apply String.eqb_eq in E. subst k1.
      apply String.eqb_neq in Hne. now rewrite Hne.
    + now rewrite IH.
Qed.

Lemma get_set k k' v d :
  Dict.get k (Dict.set k' v d) = if String.eqb k k' then Some v else Dict.get k d.
Proof.
  destruct (String.eqb k k') eqn:E.
  - apply String.eqb_eq in E. subst. apply get_set_same.
  - apply String.eqb_neq in E. now apply get_set_other.
Qed.

Lemma get_None k d : Dict.get k d = None <-> ~ In k (Dict.keys d).
Proof.
  induction d as [| [k' v'] d IH]; simpl.
  - tauto.
  - destruct (String.eqb k k') eqn:E.
    + apply String.eqb_eq in E. subst. split; [discriminate | tauto].
    + apply String.eqb_neq in E. rewrite IH. split.
      * intros H [H' | H']; [congruence | auto].
      * intros H H'. apply H. now right.
Qed.

Lemma get_Some_In k v d : Dict.get k d = Some v -> In (k, v) d.
Proof.
  induction d as [| [k' v'] d IH]; simpl; [discriminate |].
  destruct (String.eqb k k') eqn:E.
  - apply String.eqb_eq in E. intros [= ->]. subst. now left.
  - auto.
Qed.

Lemma In_get k v d : NoDup (Dict.keys d) -> In (k, v) d -> Dict.get k d = Some v.
Proof.
  induction d as [| [k' v'] d IH]; simpl; [tauto |].
  intros Hnd [H | H].
  - injection H as -> ->. now rewrite String.eqb_refl.
  - inversion Hnd as [| ? ? Hnotin Hnd']; subst.
    destruct (String.eqb k k') eqn:E.
    + apply String.eqb_eq in E. subst. exfalso. apply Hnotin.
      change k' with (fst (k', v)). now apply in_map.
    + auto.
Qed.

Lemma set_fresh k v d : ~ In k (Dict.keys d) -> Dict.set k v d = (d ++ [(k, v)])%list.
Proof.
  unfold Dict.keys.
  induction d as [| [k' v'] d IH]; simpl; intros H; [reflexivity |].
  destruct (String.eqb k k') eqn:E.
  - apply String.eqb_eq in E. subst. tauto.
  - rewrite IH; tauto.
Qed.

Lemma of_items_from (l : list (string * V)) (acc : Dict.t V) :
  NoDup (Dict.keys (acc ++ l)%list) ->
  fold_left (fun d kv => Dict.set (fst kv) (snd kv) d) l acc = (acc ++ l)%list.
Proof.
  revert acc. induction l as [| [k v] l IH]; intros acc Hnd; simpl.
  - now rewrite app_nil_r.
  - rewrite set_fresh.
    + rewrite IH; rewrite <- app_assoc; [reflexivity | exact Hnd].
    + unfold Dict.keys in Hnd. rewrite map_app in Hnd. simpl in Hnd.
      apply NoDup_remove_2 in Hnd. intros Hin. apply Hnd.
      apply in_or_app. now left.
Qed.

(** [dict(items)] of pairs with distinct keys is the list of pairs. *)
Lemma of_items_NoDup (l : list (string * V)) :
  NoDup (Dict.keys l) -> Dict.of_items l = l.
Proof.
  intros H. unfold Dict.of_items. now rewrite of_items_from.
Qed.

Lemma get_Permutation k d d' :
  NoDup (Dict.keys d) -> Permutation d d' -> Dict.get k d = Dict.get k d'.
Proof.
  intros Hnd Hp.
  assert (Hnd' : NoDup (Dict.keys d')).
  { eapply Permutation_NoDup; [| exact Hnd]. now apply Permutation_map. }
  destruct (Dict.get k d) as [v |] eqn:E.
  - symmetry. apply In_get; [exact Hnd' |].
    eapply Permutation_in; [exact Hp |]. now apply get_Some_In.
  - destruct (Dict.get k d') as [v' |] eqn:E'; [| reflexivity].
    apply get_Some_In in E'. apply Permutation_sym in Hp.
    apply (Permutation_in _ Hp) in E'.
    apply In_get in E'; [congruence | exact Hnd].
Qed.

End DictFacts.

(** ** Ranking *)

Lemma metrics_None (df : DataFrame) :
  SolarAnalyzer.calculate_solar_potential_metrics df = None <->
  Dict.get "GHI" (columns df) = None.
Proof.
  unfold SolarAnalyzer.calculate_solar_potential_metrics.
  destruct (Dict.get "GHI" (columns df)); split; congruence.
Qed.

Lemma ranked_In (d : Dict.t DataFrame) (k : string) (r : SolarAnalyzer.Ranking) :
  In (k, r) (ranked d) <->
  exists df m, In (k, df) d /\
    SolarAnalyzer.calculate_solar_potential_metrics df = Some m /\ r = ranking_of m.
Proof.
  unfold ranked. rewrite in_flat_map. split.
  - intros [[k' df] [Hin H]]. simpl in H.
    destruct (SolarAnalyzer.calculate_solar_potential_metrics df) as [m |] eqn:E;
      simpl in H; [| tauto].
    destruct H as [H | []]. injection H as H1 H2. subst. now exists df, m.
  - intros (df & m & Hin & Hm & ->). exists (k, df). split; [exact Hin |].
    simpl. rewrite Hm. now left.
Qed.

Lemma ranked_keys (d : Dict.t DataFrame) (k : string) :
  In k (Dict.keys (ranked d)) -> In k (Dict.keys d).
Proof.
  unfold Dict.keys. rewrite !in_map_iff.
  intros [[k' r] [Hk Hin]]. simpl in Hk. subst k'.
  apply ranked_In in Hin. destruct Hin as (df & m & Hin & _).
  now exists (k, df).
Qed.

Lemma ranked_NoDup (d : Dict.t DataFrame) :
  NoDup (Dict.keys d) -> NoDup (Dict.keys (ranked d)).
Proof.
  induction d as [| [k df] d IH]; simpl; intros Hnd; [constructor |].
  inversion Hnd as [| ? ? Hnotin Hnd']; subst.
  destruct (SolarAnalyzer.calculate_solar_potential_metrics df); simpl; auto.
  constructor; auto.
  intros Hin. apply Hnotin. now apply ranked_keys.
Qed.

Lemma rank_fold (l : Dict.t DataFrame) (acc : Dict.t SolarAnalyzer.Ranking) :
  NoDup (Dict.keys l) ->
  (forall k, In k (Dict.keys l) -> ~ In k (Dict.keys acc)) ->
  fold_left SolarAnalyzer.rank_country l acc = (acc ++ ranked l)%list.
Proof.
  revert acc. induction l as [| [k df] l IH]; intros acc Hnd Hfresh; simpl.
  - now rewrite app_nil_r.
  - inversion Hnd as [| ? ? Hnotin Hnd']; subst.
    destruct (SolarAnalyzer.calculate_solar_potential_metrics df) as [m |] eqn:E; simpl.
    + rewrite set_fresh by (apply Hfresh; now left).
      rewrite IH; [now rewrite <- app_assoc | exact Hnd' |].
      intros k' Hin. unfold Dict.keys. rewrite map_app, in_app_iff. simpl.
      intros [H | [H | []]].
      * apply (Hfresh k'); [now right | exact H].
      * subst k'. now apply Hnotin.
    + apply IH; [exact Hnd' |]. intros k' Hin. apply Hfresh. now right.
Qed.

Lemma insert_reverse_Permutation {A : Type} (key : A -> float) (x : A) (l : list A) :
  Permutation (x :: l) (SolarAnalyzer.insert_reverse key x l).
Proof.
  induction l as [| y l IH]; simpl; [apply Permutation_refl |].
  destruct (key x <? key y); [| apply Permutation_refl].
  eapply perm_trans; [apply perm_swap |]. now apply perm_skip.
Qed.

Lemma sorted_reverse_Permutation {A : Type} (key : A -> float) (l : list A) :
  Permutation l (SolarAnalyzer.sorted_reverse key l).
Proof.
  induction l as [| x l IH]; simpl; [constructor |].
  eapply perm_trans; [| apply insert_reverse_Permutation]. now apply perm_skip.
Qed.

(** On a dictionary, [rank_countries] is the stable sort of [ranked]. *)
Lemma rank_countries_eq (d : Dict.t DataFrame) :
  NoDup (Dict.keys d) ->
  SolarAnalyzer.rank_countries d = SolarAnalyzer.sorted_reverse score (ranked d).
Proof.
  intros Hnd. unfold SolarAnalyzer.rank_countries.
  rewrite rank_fold by (auto; intros ? ? []). simpl.
  apply of_items_NoDup.
  eapply Permutation_NoDup; [| apply ranked_NoDup; exact Hnd].
  apply Permutation_map. apply sorted_reverse_Permutation.
Qed.

Lemma rank_countries_get (d : Dict.t DataFrame) (k : string) :
  NoDup (Dict.keys d) ->
  Dict.get k (SolarAnalyzer.rank_countries d) = Dict.get k (ranked d).
Proof.
  intros Hnd. rewrite rank_countries_eq by exact Hnd. symmetry.
  apply get_Permutation; [now apply ranked_NoDup | apply sorted_reverse_Permutation].
Qed.

Lemma NoDup_keys_unique {V : Type} (d : Dict.t V) (k : string) (v v' : V) :
  NoDup (Dict.keys d) -> In (k, v) d -> In (k, v') d -> v = v'.
Proof.
  intros Hnd H H'. apply In_get in H; [| exact Hnd]. apply In_get in H'; [| exact Hnd].
  congruence.
Qed.

Lemma rank_countries_excluded (d : Dict.t DataFrame) (country : string) (df : DataFrame) :
  NoDup (Dict.keys d) -> In (country, df) d ->
  SolarAnalyzer.calculate_solar_potential_metrics df = None ->
  Dict.get country (SolarAnalyzer.rank_countries d) = None.
Proof.
  intros Hnd Hin E. rewrite rank_countries_get by exact Hnd.
  destruct (Dict.get country (ranked d)) as [r |] eqn:G; [| reflexivity].
  apply get_Some_In, ranked_In in G. destruct G as (df' & m & Hin' & Hm & _).
  rewrite (NoDup_keys_unique d country df df' Hnd Hin Hin') in E. congruence.
Qed.

(** C1.  [rank_countries] gives every country of the input that has GHI
    metrics the composite score
    0.4*averageGHI + 0.3*(100 - coefficientOfVariation)
    + 0.2*highPotentialHours + 0.1*peak95 of its own metrics, and leaves a
    country whose metrics are empty (no GHI column) out of the ranking. *)
Theorem rank_countries_composite_score :
  forall (d : Dict.t DataFrame) (country : string) (df : DataFrame),
    NoDup (Dict.keys d) ->
    In (country, df) d ->
    match SolarAnalyzer.calculate_solar_potential_metrics df with
    | Some m =>
        Dict.get "GHI" (columns df) <> None /\
        exists r,
          Dict.get country (SolarAnalyzer.rank_countries d) = Some r /\
          SolarAnalyzer.metrics r = m /\
          SolarAnalyzer.composite_score r =
            0.4 * SolarAnalyzer.average_ghi m
            + 0.3 * (100 - SolarAnalyzer.cv_ghi m)
            + 0.2 * Np.float_of_nat (SolarAnalyzer.high_potential_hours m)
            + 0.1 * SolarAnalyzer.peak_95th m
    | None =>
        Dict.get "GHI" (columns df) = None /\
        Dict.get country (SolarAnalyzer.rank_countries d) = None
    end.
Proof.
  intros d country df Hnd Hin.
  rewrite rank_countries_get by exact Hnd.
  destruct (SolarAnalyzer.calculate_solar_potential_metrics df) as [m |] eqn:E.
  - split.
    + intros H. apply metrics_None in H. congruence.
    + exists (ranking_of m). split; [| split].
      * apply In_get; [now apply ranked_NoDup |].
        apply ranked_In. now exists df, m.
      * reflexivity.
      * simpl. unfold SolarAnalyzer.composite.
        now rewrite !(float_mul_comm _ 0.4), !(float_mul_comm _ 0.3),
          !(float_mul_comm _ 0.2), !(float_mul_comm _ 0.1).
  - split; [now apply metrics_None |].
    rewrite <- rank_countries_get by exact Hnd.
    now apply (rank_countries_excluded d country df).
Qed.

Lemma rank_countries_composite_score_witness :
  (exists r,
     Dict.get "Benin" (SolarAnalyzer.rank_countries
                         [("Benin", Examples.steady); ("Togo", Examples.without_ghi)])
     = Some r /\
     SolarAnalyzer.composite_score r = 0.4 * 200 + 0.3 * (100 - SolarAnalyzer.cv_ghi (SolarAnalyzer.metrics r)) + 0.2 * 0 + 0.1 * 290) /\
  Dict.get "Togo" (SolarAnalyzer.rank_countries
                     [("Benin", Examples.steady); ("Togo", Examples.without_ghi)])
  = None.
Proof.
  assert (Hnd : NoDup (Dict.keys [("Benin", Examples.steady); ("Togo", Examples.without_ghi)])).
  { repeat constructor; simpl; intuition discriminate. }
  split.
  - destruct (rank_countries_composite_score _ "Benin" Examples.steady Hnd) as [_ [r H]].
    + simpl. auto.
    + exists r. destruct H as (H1 & H2 & H3). split; [exact H1 |].
      rewrite H3, H2. reflexivity.
  - refine (proj2 (rank_countries_composite_score _ "Togo" Examples.without_ghi Hnd _)).
    simpl. auto.
Defined.

(** ** The order of the ranking *)

Section StableSort.
Context {A : Type} (key : A -> float).

Lemma insert_reverse_HdRel (x y : A) (l : list A) :
  HdRel (ge_key key) y l -> ge_key key y x ->
  HdRel (ge_key key) y (SolarAnalyzer.insert_reverse key x l).
Proof.
  intros Hhd Hyx. destruct l as [| z l]; simpl.
  - now constructor.
  - destruct (key x <? key z).
    + constructor. now inversion Hhd.
    + now constructor.
Qed.

Lemma insert_reverse_Sorted (x : A) (l : list A) :
  is_nan (key x) = false ->
  Forall (fun y => is_nan (key y) = false) l ->
  Sorted (ge_key key) l ->
  Sorted (ge_key key) (SolarAnalyzer.insert_reverse key x l).
Proof.
  intros Hx Hl Hs. induction l as [| y l IH]; simpl.
  - repeat constructor.
  - inversion Hl as [| ? ? Hy Hl']; subst.
    inversion Hs as [| ? ? Hs' Hhd]; subst.
    destruct (key x <? key y) eqn:E.
    + constructor; [now apply IH |].
      apply insert_reverse_HdRel; [exact Hhd |].
      unfold ge_key. now apply ltb_leb.
    + constructor; [exact Hs |]. constructor.
      unfold ge_key. now apply ltb_false_leb.
Qed.

Lemma sorted_reverse_Sorted (l : list A) :
  Forall (fun y => is_nan (key y) = false) l ->
  Sorted (ge_key key) (SolarAnalyzer.sorted_reverse key l).
Proof.
  induction 1 as [| x l Hx Hl IH]; simpl; [constructor |].
  apply insert_reverse_Sorted; [exact Hx | | exact IH].
  rewrite Forall_forall in *. intros y Hy. apply Hl.
  eapply Permutation_in; [| exact Hy].
  apply Permutation_sym, sorted_reverse_Permutation.
Qed.

Lemma Sorted_adjacent (l : list A) (i : nat) (a b : A) :
  Sorted (ge_key key) l ->
  nth_error l i = Some a -> nth_error l (S i) = Some b -> ge_key key a b.
Proof.
  intros Hs. revert i. induction Hs as [| x l Hs IH Hhd]; intros i Ha Hb.
  - destruct i; discriminate.
  - destruct i as [| i]; simpl in *.
    + injection Ha as ->. destruct l as [| y l]; [discriminate |].
      injection Hb as ->. now inversion Hhd.
    + eapply IH; eassumption.
Qed.

(** An element never passes an element of equal key: the entries of any
    one key keep their order. *)
Lemma insert_reverse_filter (v : float) (x : A) (l : list A) :
  filter (fun a => key a =? v) (SolarAnalyzer.insert_reverse key x l) =
  filter (fun a => key a =? v) (x :: l).
Proof.
  induction l as [| y l IH]; simpl; [reflexivity |].
  destruct (key x <? key y) eqn:E; [| reflexivity].
  simpl. rewrite IH. simpl.
  destruct (key x =? v) eqn:Ex; [| reflexivity].
  assert (Hy : (key y =? v) = false).
  { rewrite float_eqb_sym, <- (float_eqb_subst _ _ _ Ex). now apply ltb_not_eqb. }
  now rewrite Hy.
Qed.

Lemma sorted_reverse_filter (v : float) (l : list A) :
  filter (fun a => key a =? v) (SolarAnalyzer.sorted_reverse key l) =
  filter (fun a => key a =? v) l.
Proof.
  induction l as [| x l IH]; simpl; [reflexivity |].
  rewrite insert_reverse_filter. simpl. now rewrite IH.
Qed.

End StableSort.

(** C4, as the code has it.  When every country that has GHI metrics gets
    a composite score that is a number, the ranking holds these countries in
    descending order of score, [score[i] >= score[i+1]], and the countries of
    any one score stand in the order of the input. *)
Theorem rank_countries_sorted_stable :
  forall d : Dict.t DataFrame,
    NoDup (Dict.keys d) ->
    Forall (fun x => is_nan (score x) = false) (ranked d) ->
    Permutation (ranked d) (SolarAnalyzer.rank_countries d) /\
    descending (SolarAnalyzer.rank_countries d) /\
    forall v : float,
      filter (fun x => score x =? v) (SolarAnalyzer.rank_countries d) =
      filter (fun x => score x =? v) (ranked d).
Proof.
  intros d Hnd Hnan. rewrite rank_countries_eq by exact Hnd. split; [| split].
  - apply sorted_reverse_Permutation.
  - intros i a b Ha Hb.
    exact (Sorted_adjacent score _ i a b (sorted_reverse_Sorted score _ Hnan) Ha Hb).
  - intros v. apply sorted_reverse_filter.
Qed.

Lemma rank_countries_sorted_stable_witness :
  Dict.keys (ranked Examples.tied_countries) = ["Togo"; "Benin"; "Niger"] /\
  Dict.keys (SolarAnalyzer.rank_countries Examples.tied_countries)
    = ["Benin"; "Togo"; "Niger"] /\
  descending (SolarAnalyzer.rank_countries Examples.tied_countries) /\
  forall v : float,
    filter (fun x => score x =? v) (SolarAnalyzer.rank_countries Examples.tied_countries) =
    filter (fun x => score x =? v) (ranked Examples.tied_countries).
Proof.
  split; [reflexivity |]. split; [vm_compute; reflexivity |].
  refine (proj2 (rank_countries_sorted_stable Examples.tied_countries _ _)).
  - repeat constructor; simpl; intuition discriminate.
  - vm_compute. repeat constructor.
Defined.

(** C4, as stated, fails: a country with a single GHI value has a NaN
    score, and no arrangement of such a ranking is in descending order. *)
Lemma rank_countries_nan_not_descending :
  (exists a b,
     nth_error (SolarAnalyzer.rank_countries Examples.one_reading_countries) 0 = Some a /\
     nth_error (SolarAnalyzer.rank_countries Examples.one_reading_countries) 1 = Some b /\
     (score b <=? score a) = false) /\
  (forall l,
     Permutation (SolarAnalyzer.rank_countries Examples.one_reading_countries) l ->
     ~ descending l).
Proof.
  split.
  - vm_compute. eexists. eexists. split; [reflexivity |]. split; reflexivity.
  - intros l Hp Hdesc.
    assert (Hl : List.length l = 2%nat) by (rewrite <- (Permutation_length Hp); reflexivity).
    destruct l as [| a [| b [| c l]]]; try discriminate.
    assert (Hab : (score b <=? score a) = true) by (apply (Hdesc 0%nat); reflexivity).
    assert (Ha : In a (SolarAnalyzer.rank_countries Examples.one_reading_countries))
      by (eapply Permutation_in; [apply Permutation_sym; exact Hp | now left]).
    assert (Hb : In b (SolarAnalyzer.rank_countries Examples.one_reading_countries))
      by (eapply Permutation_in; [apply Permutation_sym; exact Hp | right; now left]).
    assert (Hnd : NoDup [a; b]).
    { eapply Permutation_NoDup; [exact Hp |]. vm_compute.
      repeat constructor; simpl; intuition discriminate. }
    vm_compute in Ha, Hb.
    destruct Ha as [Ha | [Ha | []]]; destruct Hb as [Hb | [Hb | []]]; subst a b.
    + inversion Hnd; simpl in *; tauto.
    + vm_compute in Hab. discriminate.
    + vm_compute in Hab. discriminate.
    + inversion Hnd; simpl in *; tauto.
Qed.

(** ** Imputation *)

Lemma count_na_zero (a : list float) :
  Np.count_na a = 0%nat <-> Forall (fun x => Np.isna x = false) a.
Proof.
  unfold Np.count_na. induction a as [| x a IH]; simpl.
  - split; [constructor | reflexivity].
  - destruct (Np.isna x) eqn:E; simpl.
    + split; [discriminate |]. intros H. inversion H; congruence.
    + rewrite IH. split; [now constructor | intros H; now inversion H].
Qed.

Lemma fillna_nan (m : float) (a : list float) :
  Np.isna m = true -> Np.fillna m a = a.
Proof.
  intros Hm. apply is_nan_eq in Hm. subst m. unfold Np.fillna.
  induction a as [| x a IH]; simpl; [reflexivity |]. rewrite IH.
  destruct (Np.isna x) eqn:E; [| reflexivity].
  apply is_nan_eq in E. now subst.
Qed.

Lemma fillna_clean (m : float) (a : list float) :
  Np.count_na a = 0%nat -> Np.fillna m a = a.
Proof.
  rewrite count_na_zero. unfold Np.fillna.
  induction 1 as [| x a Hx Ha IH]; simpl; [reflexivity |]. now rewrite Hx, IH.
Qed.

Lemma count_na_fillna (m : float) (a : list float) :
  Np.isna m = false -> Np.count_na (Np.fillna m a) = 0%nat.
Proof.
  intros Hm. apply count_na_zero. unfold Np.fillna.
  induction a as [| x a IH]; simpl; constructor; auto.
  destruct (Np.isna x) eqn:E; assumption.
Qed.

Lemma length_fillna (m : float) (a : list float) :
  List.length (Np.fillna m a) = List.length a.
Proof.
  apply length_map.
Qed.

Lemma Series_eta (s : Series) : {| dtype_of := dtype_of s; values := values s |} = s.
Proof.
  now destruct s.
Qed.

Lemma imputed_nan (s : Series) :
  Np.isna (Np.median (values s)) = true -> imputed s = s.
Proof.
  intros H. unfold imputed. rewrite fillna_nan by exact H. apply Series_eta.
Qed.

Lemma imputed_clean (s : Series) :
  Np.count_na (values s) = 0%nat -> imputed s = s.
Proof.
  intros H. unfold imputed. rewrite fillna_clean by exact H. apply Series_eta.
Qed.

Lemma imputed_missing (s : Series) :
  (0 < Np.count_na (values (imputed s)))%nat -> imputed s = s.
Proof.
  intros H. destruct (Np.isna (Np.median (values s))) eqn:E.
  - now apply imputed_nan.
  - simpl in H. rewrite count_na_fillna in H by exact E. lia.
Qed.

Lemma imputed_idem (s : Series) : imputed (imputed s) = imputed s.
Proof.
  destruct (Np.count_na (values (imputed s))) eqn:E.
  - now apply imputed_clean.
  - rewrite (imputed_missing s) by lia. apply imputed_missing. lia.
Qed.

(** One turn of the loop touches the named column only. *)
Lemma impute_column_spec (df0 : DataFrame) (rep0 : Dict.t nat) (col : string) :
  let res := SolarDataProcessor.impute_column (df0, rep0) col in
  index (fst res) = index df0 /\
  stamps (fst res) = stamps df0 /\
  forall c,
    Dict.get c (columns (fst res)) =
      option_map (fun s => if String.eqb c col then imputed s else s)
        (Dict.get c (columns df0)) /\
    Dict.get c (snd res) =
      match Dict.get c (columns df0) with
      | Some s =>
          if String.eqb c col && (0 <? Np.count_na (values s))%nat
          then Some (Np.count_na (values s))
          else Dict.get c rep0
      | None => Dict.get c rep0
      end.
Proof.
  unfold SolarDataProcessor.impute_column.
  destruct (Dict.get col (columns df0)) as [s |] eqn:G.
  - destruct (0 <? Np.count_na (values s))%nat eqn:C; simpl.
    + split; [reflexivity |]. split; [reflexivity |]. intros c.
      rewrite !get_set. destruct (String.eqb c col) eqn:E.
      * apply String.eqb_eq in E. subst c. rewrite G. simpl. now rewrite C.
      * split; [now destruct (Dict.get c (columns df0)) |].
        now destruct (Dict.get c (columns df0)).
    + split; [reflexivity |]. split; [reflexivity |]. intros c.
      destruct (String.eqb c col) eqn:E.
      * apply String.eqb_eq in E. subst c. rewrite G. simpl. rewrite C.
        rewrite imputed_clean; [auto |]. apply Nat.ltb_ge in C. lia.
      * split; [now destruct (Dict.get c (columns df0)) |].
        now destruct (Dict.get c (columns df0)).
  - simpl. split; [reflexivity |]. split; [reflexivity |]. intros c.
    destruct (String.eqb c col) eqn:E.
    + apply String.eqb_eq in E. subst c. rewrite G. auto.
    + split; [now destruct (Dict.get c (columns df0)) |].
      now destruct (Dict.get c (columns df0)).
Qed.

(** The loop: every named column that is present ends as [imputed], and is
    reported with its missing count when that is positive. *)
Lemma impute_fold (cols : list string) :
  forall (df0 : DataFrame) (rep0 : Dict.t nat),
    let res := fold_left SolarDataProcessor.impute_column cols (df0, rep0) in
    index (fst res) = index df0 /\
    stamps (fst res) = stamps df0 /\
    forall c,
      Dict.get c (columns (fst res)) =
        option_map (fun s => if mem c cols then imputed s else s)
          (Dict.get c (columns df0)) /\
      Dict.get c (snd res) =
        match Dict.get c (columns df0) with
        | Some s =>
            if mem c cols && (0 <? Np.count_na (values s))%nat
            then Some (Np.count_na (values s))
            else Dict.get c rep0
        | None => Dict.get c rep0
        end.
Proof.
  induction cols as [| col cols IH]; intros df0 rep0.
  - simpl. split; [reflexivity |]. split; [reflexivity |]. intros c.
    now destruct (Dict.get c (columns df0)).
  - cbn [fold_left mem existsb].
    destruct (impute_column_spec df0 rep0 col) as (Hi1 & Hs1 & H1).
    destruct (SolarDataProcessor.impute_column (df0, rep0) col) as [df1 rep1] eqn:Hstep.
    simpl in Hi1, Hs1, H1.
    destruct (IH df1 rep1) as (Hi & Hs & H).
    split; [now rewrite Hi |]. split; [now rewrite Hs |]. intros c.
    destruct (H c) as [Hc Hr]. destruct (H1 c) as [Hc1 Hr1].
    rewrite Hc, Hr, Hc1, Hr1. clear Hc Hr Hc1 Hr1.
    destruct (Dict.get c (columns df0)) as [s |]; simpl; [| auto].
    destruct (String.eqb c col) eqn:E; simpl; [| auto].
    split.
    + destruct (mem c cols); [apply f_equal, imputed_idem | reflexivity].
    + change (Np.fillna (Np.median (values s)) (values s)) with (values (imputed s)).
      destruct (mem c cols && (0 <? Np.count_na (values (imputed s)))%nat) eqn:M;
        [| reflexivity].
      apply andb_prop in M. destruct M as [_ M]. apply Nat.ltb_lt in M.
      pose proof (imputed_missing s M) as Hs'. rewrite Hs' in M |- *.
      apply Nat.ltb_lt in M. now rewrite M.
Qed.

(** What [handle_missing_values] does to every column of the table. *)
Lemma handle_missing_values_spec
    (self : SolarDataProcessor.t) (df : DataFrame) (cols : option (list string)) :
  let res := SolarDataProcessor.handle_missing_values self df cols in
  let named := SolarDataProcessor.or_default cols
                 SolarDataProcessor.default_columns_to_impute in
  index (snd res) = index df /\
  stamps (snd res) = stamps df /\
  exists report,
    SolarDataProcessor.missing_values (fst res) = Some report /\
    forall c,
      Dict.get c (columns (snd res)) =
        option_map (fun s => if mem c named then imputed s else s)
          (Dict.get c (columns df)) /\
      Dict.get c report =
        match Dict.get c (columns df) with
        | Some s =>
            if mem c named && (0 <? Np.count_na (values s))%nat
            then Some (Np.count_na (values s))
            else None
        | None => None
        end.
Proof.
  unfold SolarDataProcessor.handle_missing_values.
  destruct (impute_fold
              (SolarDataProcessor.or_default cols
                 SolarDataProcessor.default_columns_to_impute) df Dict.empty)
    as (Hi & Hs & H).
  destruct (fold_left SolarDataProcessor.impute_column _ _) as [df' report].
  simpl in *. split; [exact Hi |]. split; [exact Hs |].
  exists report. split; [reflexivity |]. exact H.
Qed.




Lemma all_missing_dropna (a : list float) :
  Forall (fun x => Np.isna x = true) a -> Np.dropna a = [].
Proof.
  unfold Np.dropna. induction 1 as [| x a Hx Ha IH]; simpl; [reflexivity |].
  now rewrite Hx.
Qed.

Lemma all_missing_count (a : list float) :
  Forall (fun x => Np.isna x = true) a -> Np.count_na a = List.length a.
Proof.
  unfold Np.count_na. induction 1 as [| x a Hx Ha IH]; simpl; [reflexivity |].
  rewrite Hx. simpl. now rewrite IH.
Qed.

Lemma all_missing_median (a : list float) :
  Forall (fun x => Np.isna x = true) a -> Np.median a = nan.
Proof.
  intros H. unfold Np.median. now rewrite all_missing_dropna.
Qed.

(** C8, as the code has it.  A named column whose entries are all missing
    is left as it is, all missing; it is reported like an imputed column, with
    its length as the count, and nothing sets it apart; every other column is
    imputed as usual. *)
Theorem handle_missing_values_all_missing :
  forall (self : SolarDataProcessor.t) (df : DataFrame) (cols : option (list string))
         (col : string) (s : Series),
    mem col (SolarDataProcessor.or_default cols
               SolarDataProcessor.default_columns_to_impute) = true ->
    Dict.get col (columns df) = Some s ->
    values s <> [] ->
    Forall (fun x => Np.isna x = true) (values s) ->
    let res := SolarDataProcessor.handle_missing_values self df cols in
    Dict.get col (columns (snd res)) = Some s /\
    (exists report,
       SolarDataProcessor.missing_values (fst res) = Some report /\
       Dict.get col report = Some (List.length (values s))) /\
    forall c s0,
      Dict.get c (columns df) = Some s0 ->
      Dict.get c (columns (snd res)) =
        Some (if mem c (SolarDataProcessor.or_default cols
                          SolarDataProcessor.default_columns_to_impute)
              then imputed s0 else s0).
Proof.
  intros self df cols col s Hmem Hget Hne Hall res.
  destruct (handle_missing_values_spec self df cols) as (_ & _ & report & Hrep & H).
  fold res in Hrep, H. split; [| split].
  - destruct (H col) as [Hc _]. rewrite Hc, Hget, Hmem. simpl.
    rewrite imputed_nan; [reflexivity |].
    now rewrite all_missing_median.
  - exists report. split; [exact Hrep |].
    destruct (H col) as [_ Hr]. rewrite Hr, Hget, Hmem.
    rewrite all_missing_count by exact Hall.
    destruct (values s) as [| x a]; [congruence | reflexivity].
  - intros c s0 Hc0. destruct (H c) as [Hc _]. now rewrite Hc, Hc0.
Qed.

Lemma handle_missing_values_all_missing_witness :
  Dict.get "GHI"
    (columns (snd (SolarDataProcessor.handle_missing_values
                     SolarDataProcessor.init Examples.no_ghi_data None)))
  = Some (Examples.floats [nan; nan; nan]) /\
  (exists report,
     SolarDataProcessor.missing_values
       (fst (SolarDataProcessor.handle_missing_values
               SolarDataProcessor.init Examples.no_ghi_data None)) = Some report /\
     Dict.get "GHI" report = Some 3%nat).
Proof.
  pose proof (handle_missing_values_all_missing SolarDataProcessor.init
                Examples.no_ghi_data None "GHI" (Examples.floats [nan; nan; nan])
                eq_refl eq_refl) as H.
  simpl in H. destruct H as (H1 & H2 & _).
  - discriminate.
  - repeat constructor.
  - split; [exact H1 | exact H2].
Defined.

(** C8, as stated, fails: the entirely missing GHI column is reported with
    three imputed values, exactly as the DNI column is with one; the result
    carries no other signal, and GHI is still entirely missing. *)
Lemma handle_missing_values_no_signal :
  SolarDataProcessor.handle_missing_values
    SolarDataProcessor.init Examples.no_ghi_data None
  = ({| SolarDataProcessor.missing_values := Some [("GHI", 3%nat); ("DNI", 1%nat)];
        SolarDataProcessor.outliers_detected := None;
        SolarDataProcessor.outliers_removed := None |},
     Examples.table 3 [("GHI", Examples.floats [nan; nan; nan]);
                       ("DNI", Examples.floats [1; 2; 3])]).
Proof.
  reflexivity.
Qed.

(** ** Outlier masks and row selection *)

Lemma length_select_le {A : Type} (m : list bool) (l : list A) :
  (List.length (Np.select m l) <= List.length l)%nat.
Proof.
  revert l. induction m as [| b m IH]; intros [| x l]; simpl; try lia.
  specialize (IH l). destruct b; simpl; lia.
Qed.

Lemma length_select {A : Type} (m : list bool) (l : list A) :
  List.length m = List.length l ->
  List.length (Np.select m l) = Np.count_true m.
Proof.
  unfold Np.count_true.
  revert l. induction m as [| b m IH]; intros [| x l]; simpl; try discriminate; auto.
  intros H. injection H as H. destruct b; simpl; auto.
Qed.

Lemma select_invert_none {A : Type} (m : list bool) (l : list A) :
  Np.any m = false -> List.length m = List.length l ->
  Np.select (Np.invert m) l = l.
Proof.
  unfold Np.any.
  revert l. induction m as [| b m IH]; intros [| x l]; simpl; try discriminate; auto.
  intros Hany H. injection H as H. apply orb_false_elim in Hany.
  destruct Hany as [-> Hany]. simpl. now rewrite IH.
Qed.

Lemma select_Forall {A : Type} (P : A -> Prop) (m : list bool) (l : list A) :
  Forall P l -> Forall P (Np.select m l).
Proof.
  intros H. revert m. induction H as [| x l Hx Hl IH]; intros [| b m]; simpl;
    try constructor.
  destruct b; [constructor |]; auto.
Qed.

Lemma select_clean (m : list bool) (a : list float) :
  Np.count_na a = 0%nat -> Np.count_na (Np.select m a) = 0%nat.
Proof.
  rewrite !count_na_zero. apply select_Forall.
Qed.

Lemma dropna_clean (a : list float) : Np.count_na a = 0%nat -> Np.dropna a = a.
Proof.
  rewrite count_na_zero. unfold Np.dropna.
  induction 1 as [| x a Hx Ha IH]; simpl; [reflexivity |]. now rewrite Hx, IH.
Qed.

Lemma length_dropna (a : list float) :
  (List.length (Np.dropna a) + Np.count_na a = List.length a)%nat.
Proof.
  unfold Np.dropna, Np.count_na.
  induction a as [| x a IH]; simpl; [reflexivity |].
  destruct (Np.isna x); simpl; lia.
Qed.

Lemma length_zscore (a : list float) : List.length (Np.zscore a) = List.length a.
Proof.
  unfold Np.zscore. destruct a as [| a0 a]; [reflexivity |].
  destruct (forallb _ _); now rewrite length_map.
Qed.

(** The mask has one entry for every non-missing value of the column. *)
Lemma length_outlier_mask (s : Series) (t : float) :
  List.length (SolarDataProcessor.outlier_mask s t) = List.length (Np.dropna (values s)).
Proof.
  unfold SolarDataProcessor.outlier_mask, Np.gt, Np.abs.
  now rewrite !length_map, length_zscore.
Qed.

Lemma get_map_values {V W : Type} (g : V -> W) (k : string) (d : Dict.t V) :
  Dict.get k (map (fun kv => (fst kv, g (snd kv))) d) = option_map g (Dict.get k d).
Proof.
  induction d as [| [k' v] d IH]; simpl; [reflexivity |].
  now destruct (String.eqb k k').
Qed.

Lemma wf_column (df : DataFrame) (c : string) (s : Series) :
  wf df -> Dict.get c (columns df) = Some s -> List.length (values s) = nrows df.
Proof.
  intros [Hc _] Hget. apply get_Some_In in Hget.
  rewrite Forall_forall in Hc. exact (Hc _ Hget).
Qed.

Lemma wfb_wf (df : DataFrame) : wfb df = true -> wf df.
Proof.
  unfold wfb, wf. rewrite andb_true_iff, !forallb_forall, !Forall_forall.
  intros [H1 H2]. split; intros x Hx; apply Nat.eqb_eq; auto.
Qed.

(** [df[mask]] with a mask as long as the table: the marked rows, in every
    column. *)
Lemma getitem_mask_aligned (df : DataFrame) (mask : list bool) :
  wf df -> List.length mask = nrows df ->
  exists df',
    getitem_mask df mask = Ok df' /\
    wf df' /\
    index df' = Np.select mask (index df) /\
    nrows df' = Np.count_true mask /\
    forall c,
      Dict.get c (columns df') =
        option_map (fun s => {| dtype_of := dtype_of s;
                                values := Np.select mask (values s) |})
          (Dict.get c (columns df)).
Proof.
  intros [Hc Hs] Hlen. unfold getitem_mask.
  rewrite (proj2 (Nat.eqb_eq _ _) Hlen).
  eexists. split; [reflexivity |].
  assert (Hn : List.length (Np.select mask (index df)) = Np.count_true mask)
    by (apply length_select; exact Hlen).
  split; [| split; [reflexivity | split; [exact Hn |]]].
  - unfold wf, nrows. simpl. rewrite Hn. split.
    + rewrite Forall_map. eapply Forall_impl; [| exact Hc].
      intros kv H. simpl. apply length_select. now rewrite H.
    + rewrite Forall_map. eapply Forall_impl; [| exact Hs].
      intros kv H. simpl. apply length_select. now rewrite H.
  - intros c. simpl.
    apply (get_map_values
             (fun s => {| dtype_of := dtype_of s; values := Np.select mask (values s) |})).
Qed.

Lemma getitem_mask_nrows (df df' : DataFrame) (mask : list bool) :
  getitem_mask df mask = Ok df' -> (nrows df' <= nrows df)%nat.
Proof.
  unfold getitem_mask. destruct (_ =? _)%nat; [| discriminate].
  intros [= <-]. unfold nrows. simpl. apply length_select_le.
Qed.

Lemma getitem_mask_length (df : DataFrame) (mask : list bool) :
  List.length mask <> nrows df ->
  getitem_mask df mask = Raise (ValueError "Item wrong length").
Proof.
  intros H. unfold getitem_mask. now rewrite (proj2 (Nat.eqb_neq _ _) H).
Qed.

(** ** The loop of [remove_outliers] *)

Lemma remove_loop_raise (t : float) (cols : list string) (e : exn) :
  fold_left (fun acc col => df' <- acc ;; SolarDataProcessor.remove_column t df' col)
    cols (Raise e) = Raise e.
Proof.
  induction cols as [| c cols IH]; simpl; auto.
Qed.

Lemma remove_loop_cons (t : float) (c : string) (cols : list string) (df : DataFrame) :
  SolarDataProcessor.remove_loop t (c :: cols) df =
  (df' <- SolarDataProcessor.remove_column t df c ;;
   SolarDataProcessor.remove_loop t cols df').
Proof.
  unfold SolarDataProcessor.remove_loop. simpl.
  destruct (SolarDataProcessor.remove_column t df c) as [df1 | e]; simpl.
  - reflexivity.
  - apply remove_loop_raise.
Qed.

Lemma remove_column_nrows (t : float) (df df' : DataFrame) (c : string) :
  SolarDataProcessor.remove_column t df c = Ok df' -> (nrows df' <= nrows df)%nat.
Proof.
  unfold SolarDataProcessor.remove_column.
  destruct (Dict.get c (columns df)) as [s |]; [| intros [= <-]; lia].
  destruct (Np.any _); [apply getitem_mask_nrows | intros [= <-]; lia].
Qed.

Lemma remove_loop_nrows (t : float) (cols : list string) :
  forall df df',
    SolarDataProcessor.remove_loop t cols df = Ok df' -> (nrows df' <= nrows df)%nat.
Proof.
  induction cols as [| c cols IH]; intros df df'.
  - intros [= <-]. lia.
  - rewrite remove_loop_cons.
    destruct (SolarDataProcessor.remove_column t df c) as [df1 | e] eqn:E; simpl;
      [| discriminate].
    intros H. apply IH in H. apply remove_column_nrows in E. lia.
Qed.

Lemma invert_outlier_mask (t : float) (s : Series) :
  Np.count_na (values s) = 0%nat ->
  Np.invert (SolarDataProcessor.outlier_mask s t) = kept t s.
Proof.
  intros H. unfold SolarDataProcessor.outlier_mask, kept, Np.invert, Np.gt, Np.abs.
  rewrite dropna_clean by exact H. now rewrite !map_map.
Qed.

Lemma remove_column_aligned (t : float) (df : DataFrame) (c : string) (s : Series) :
  wf df ->
  Dict.get c (columns df) = Some s ->
  Np.count_na (values s) = 0%nat ->
  exists df',
    SolarDataProcessor.remove_column t df c = Ok df' /\
    wf df' /\
    index df' = Np.select (kept t s) (index df) /\
    forall c2,
      Dict.get c2 (columns df') =
        option_map (fun s2 => {| dtype_of := dtype_of s2;
                                 values := Np.select (kept t s) (values s2) |})
          (Dict.get c2 (columns df)).
Proof.
  intros Hwf Hget Hclean. unfold SolarDataProcessor.remove_column. rewrite Hget.
  assert (Hlen : List.length (SolarDataProcessor.outlier_mask s t) = nrows df).
  { rewrite length_outlier_mask, dropna_clean by exact Hclean.
    now apply (wf_column df c). }
  destruct (Np.any (SolarDataProcessor.outlier_mask s t)) eqn:Hany.
  - destruct (getitem_mask_aligned df (Np.invert (SolarDataProcessor.outlier_mask s t)) Hwf)
      as (df' & Hok & Hwf' & Hidx & _ & Hcols).
    { unfold Np.invert. now rewrite length_map. }
    rewrite invert_outlier_mask in * by exact Hclean.
    exists df'. auto.
  - exists df. split; [reflexivity |]. split; [exact Hwf |].
    rewrite <- invert_outlier_mask by exact Hclean. split.
    + symmetry. now apply select_invert_none.
    + intros c2. destruct (Dict.get c2 (columns df)) as [s2 |] eqn:G2; simpl;
        [| reflexivity].
      rewrite select_invert_none; [now rewrite Series_eta | exact Hany |].
      rewrite Hlen. symmetry. now apply (wf_column df c2).
Qed.

Lemma remove_loop_total (t : float) (cols : list string) :
  forall df,
    wf df -> no_missing cols df ->
    exists df', SolarDataProcessor.remove_loop t cols df = Ok df' /\ wf df'.
Proof.
  induction cols as [| c cols IH]; intros df Hwf Hclean.
  - exists df. split; [reflexivity | exact Hwf].
  - rewrite remove_loop_cons.
    assert (Hstep : exists df1,
               SolarDataProcessor.remove_column t df c = Ok df1 /\ wf df1 /\
               no_missing cols df1).
    { destruct (Dict.get c (columns df)) as [s |] eqn:G.
      - destruct (remove_column_aligned t df c s Hwf G) as (df1 & Hok & Hwf1 & _ & Hcols).
        { apply (Hclean c s); [now left | exact G]. }
        exists df1. split; [exact Hok |]. split; [exact Hwf1 |].
        intros c2 s2 Hin Hget. rewrite Hcols in Hget.
        destruct (Dict.get c2 (columns df)) as [s0 |] eqn:G0; [| discriminate].
        injection Hget as <-. simpl. apply select_clean.
        apply (Hclean c2 s0); [now right | exact G0].
      - exists df. unfold SolarDataProcessor.remove_column. rewrite G.
        split; [reflexivity |]. split; [exact Hwf |].
        intros c2 s2 Hin. apply Hclean. now right. }
    destruct Hstep as (df1 & Hok & Hwf1 & Hclean1). rewrite Hok. simpl.
    now apply IH.
Qed.

Lemma remove_loop_clean (t : float) (cols checked : list string) :
  forall df,
    wf df -> no_missing checked df -> incl cols checked ->
    exists df',
      SolarDataProcessor.remove_loop t cols df = Ok df' /\ wf df' /\ no_missing checked df'.
Proof.
  induction cols as [| c cols IH]; intros df Hwf Hclean Hincl.
  - exists df. split; [reflexivity |]. now split.
  - rewrite remove_loop_cons.
    assert (Hstep : exists df1,
               SolarDataProcessor.remove_column t df c = Ok df1 /\ wf df1 /\
               no_missing checked df1).
    { destruct (Dict.get c (columns df)) as [s |] eqn:G.
      - destruct (remove_column_aligned t df c s Hwf G) as (df1 & Hok & Hwf1 & _ & Hcols).
        { apply (Hclean c s); [apply Hincl; now left | exact G]. }
        exists df1. split; [exact Hok |]. split; [exact Hwf1 |].
        intros c2 s2 Hin Hget. rewrite Hcols in Hget.
        destruct (Dict.get c2 (columns df)) as [s0 |] eqn:G0; [| discriminate].
        injection Hget as <-. simpl. apply select_clean.
        apply (Hclean c2 s0); [exact Hin | exact G0].
      - exists df. unfold SolarDataProcessor.remove_column. rewrite G.
        split; [reflexivity |]. now split. }
    destruct Hstep as (df1 & Hok & Hwf1 & Hclean1). rewrite Hok. simpl.
    apply IH; [exact Hwf1 | exact Hclean1 |].
    intros x Hx. apply Hincl. now right.
Qed.

(** C10.  The mask of a column has one entry per non-missing value and is
    applied by position to the whole table.  On a table whose checked columns
    have no missing value every mask is as long as the table and
    [remove_outliers] returns; on [gap_and_spike], whose checked column has a
    missing value and an outlier, the mask is shorter than the table and the
    removal raises. *)
Theorem remove_outliers_mask_alignment :
  (forall (s : Series) (t : float),
     (List.length (SolarDataProcessor.outlier_mask s t) + Np.count_na (values s)
      = List.length (values s))%nat) /\
  (forall (self : SolarDataProcessor.t) (df : DataFrame)
          (cols : option (list string)) (t : float),
     wf df ->
     no_missing (SolarDataProcessor.or_default cols
                   SolarDataProcessor.default_outlier_columns) df ->
     (forall c s,
        In c (SolarDataProcessor.or_default cols
                SolarDataProcessor.default_outlier_columns) ->
        Dict.get c (columns df) = Some s ->
        List.length (SolarDataProcessor.outlier_mask s t) = nrows df) /\
     exists self' df',
       SolarDataProcessor.remove_outliers self df cols t = Ok (self', df') /\ wf df') /\
  (wf Examples.gap_and_spike /\
   exists s,
     Dict.get "ModA" (columns Examples.gap_and_spike) = Some s /\
     Np.count_na (values s) = 1%nat /\
     Np.any (SolarDataProcessor.outlier_mask s 3) = true /\
     List.length (SolarDataProcessor.outlier_mask s 3) = 12%nat /\
     nrows Examples.gap_and_spike = 13%nat /\
     SolarDataProcessor.remove_outliers SolarDataProcessor.init
       Examples.gap_and_spike None 3
     = Raise (ValueError "Item wrong length")).
Proof.
  split; [| split].
  - intros s t. rewrite length_outlier_mask. apply length_dropna.
  - intros self df cols t Hwf Hclean. split.
    + intros c s Hin Hget.
      rewrite length_outlier_mask, dropna_clean by exact (Hclean c s Hin Hget).
      now apply (wf_column df c).
    + destruct (remove_loop_total t _ df Hwf Hclean) as (df' & Hok & Hwf').
      unfold SolarDataProcessor.remove_outliers. rewrite Hok. simpl.
      eexists. exists df'. split; [reflexivity | exact Hwf'].
  - split; [apply wfb_wf; reflexivity |].
    eexists. split; [reflexivity |]. repeat split; reflexivity.
Qed.

Lemma remove_outliers_mask_alignment_witness :
  exists self' df',
    SolarDataProcessor.remove_outliers SolarDataProcessor.init
      Examples.two_columns None 3 = Ok (self', df') /\ wf df'.
Proof.
  refine (proj2 (proj1 (proj2 remove_outliers_mask_alignment)
                   SolarDataProcessor.init Examples.two_columns None 3 _ _)).
  - apply wfb_wf. reflexivity.
  - intros c s Hin Hget. simpl in Hin.
    repeat (destruct Hin as [<- | Hin]; [vm_compute in Hget; try discriminate;
                                         injection Hget as <-; reflexivity |]).
    destruct Hin.
Defined.

Lemma map_select_all {A : Type} (m : list bool) (l : Dict.t (list A)) (n : nat) :
  Np.any m = false -> List.length m = n ->
  Forall (fun kv => List.length (snd kv) = n) l ->
  map (fun kv => (fst kv, Np.select (Np.invert m) (snd kv))) l = l.
Proof.
  intros Hany Hlen Hall. induction Hall as [| [k v] l Hv Hl IH]; simpl; [reflexivity |].
  rewrite IH. simpl in Hv. rewrite select_invert_none by congruence. reflexivity.
Qed.

(** One turn on a column without missing values: also the time stamps are
    narrowed to the rows that are kept. *)
Lemma remove_column_stamps (t : float) (df df' : DataFrame) (c : string) (s : Series) :
  wf df ->
  Dict.get c (columns df) = Some s ->
  Np.count_na (values s) = 0%nat ->
  SolarDataProcessor.remove_column t df c = Ok df' ->
  stamps df' = map (fun kv => (fst kv, Np.select (kept t s) (snd kv))) (stamps df) /\
  nrows df' = Np.count_true (kept t s).
Proof.
  intros Hwf Hget Hclean. unfold SolarDataProcessor.remove_column. rewrite Hget.
  assert (Hlen : List.length (SolarDataProcessor.outlier_mask s t) = nrows df).
  { rewrite length_outlier_mask, dropna_clean by exact Hclean.
    now apply (wf_column df c). }
  assert (Hkept : List.length (kept t s) = nrows df).
  { rewrite <- invert_outlier_mask by exact Hclean. unfold Np.invert.
    now rewrite length_map. }
  rewrite <- (invert_outlier_mask t s Hclean) in *.
  destruct (Np.any (SolarDataProcessor.outlier_mask s t)) eqn:Hany.
  - unfold getitem_mask. rewrite (proj2 (Nat.eqb_eq _ _) Hkept).
    intros [= <-]. split; [reflexivity |]. unfold nrows at 1. simpl.
    apply length_select. exact Hkept.
  - intros [= <-]. split.
    + symmetry. apply (map_select_all _ _ (nrows df)); [exact Hany | exact Hlen |].
      exact (proj2 Hwf).
    + unfold nrows at 1. rewrite <- (select_invert_none _ (index df) Hany Hlen) at 1.
      apply length_select. exact Hkept.
Qed.

(** One turn on a column that has a missing value and an outlier: the mask
    is shorter than the table. *)
Lemma remove_column_misaligned (t : float) (df : DataFrame) (c : string) (s : Series) :
  wf df ->
  Dict.get c (columns df) = Some s ->
  Np.any (SolarDataProcessor.outlier_mask s t) = true ->
  Np.count_na (values s) <> 0%nat ->
  SolarDataProcessor.remove_column t df c = Raise (ValueError "Item wrong length").
Proof.
  intros Hwf Hget Hany Hna. unfold SolarDataProcessor.remove_column.
  rewrite Hget, Hany. apply getitem_mask_length.
  unfold Np.invert. rewrite length_map, length_outlier_mask.
  pose proof (length_dropna (values s)) as Hd.
  pose proof (wf_column df c s Hwf Hget) as Hc. lia.
Qed.

Lemma remove_outliers_total
    (self : SolarDataProcessor.t) (df : DataFrame) (cols : option (list string)) (t : float) :
  wf df ->
  no_missing (SolarDataProcessor.or_default cols SolarDataProcessor.default_outlier_columns) df ->
  exists self' df',
    SolarDataProcessor.remove_outliers self df cols t = Ok (self', df') /\
    wf df' /\
    (nrows df' <= nrows df)%nat /\
    SolarDataProcessor.outliers_removed self' =
      Some (Z.of_nat (nrows df) - Z.of_nat (nrows df'))%Z.
Proof.
  intros Hwf Hclean.
  destruct (remove_loop_total t _ df Hwf Hclean) as (df' & Hok & Hwf').
  unfold SolarDataProcessor.remove_outliers. rewrite Hok. simpl.
  eexists. exists df'. split; [reflexivity |]. split; [exact Hwf' |].
  split; [exact (remove_loop_nrows t _ df df' Hok) | reflexivity].
Qed.

(** C2.  [remove_outliers] takes the columns one after the other: a turn
    works on the table the turns before it have left, and the table it leaves
    goes to the next turn; the count that is recorded is the number of rows
    that went.  A turn passes over an absent column and over a column without
    an outlier.  On a column without missing values it keeps the rows whose
    Z-score over the current table does not exceed the threshold, in the
    index, in every column and in the time stamps; on a column with a missing
    value and an outlier it raises.  So [remove_outliers] returns for every
    table whose checked columns have no missing value, and not for every
    table: on [gap_and_spike] it raises.  On [two_columns] the two orders of
    the columns keep different rows, and the single combined pass differs from
    the sequential one. *)
Theorem remove_outliers_sequential :
  (forall t df, SolarDataProcessor.remove_loop t [] df = Ok df) /\
  (forall t c cols df,
     SolarDataProcessor.remove_loop t (c :: cols) df =
     (df' <- SolarDataProcessor.remove_column t df c ;;
      SolarDataProcessor.remove_loop t cols df')) /\
  (forall self df cols t,
     SolarDataProcessor.remove_outliers self df cols t =
     (df' <- SolarDataProcessor.remove_loop t
               (SolarDataProcessor.or_default cols SolarDataProcessor.default_outlier_columns)
               df ;;
      Ok ({| SolarDataProcessor.missing_values := SolarDataProcessor.missing_values self;
             SolarDataProcessor.outliers_detected := SolarDataProcessor.outliers_detected self;
             SolarDataProcessor.outliers_removed :=
               Some (Z.of_nat (nrows df) - Z.of_nat (nrows df'))%Z |},
          df'))) /\
  (forall t df c,
     Dict.get c (columns df) = None ->
     SolarDataProcessor.remove_column t df c = Ok df) /\
  (forall t df c s,
     Dict.get c (columns df) = Some s ->
     Np.any (SolarDataProcessor.outlier_mask s t) = false ->
     SolarDataProcessor.remove_column t df c = Ok df) /\
  (forall t df c s,
     wf df -> Dict.get c (columns df) = Some s -> Np.count_na (values s) = 0%nat ->
     exists df',
       SolarDataProcessor.remove_column t df c = Ok df' /\
       wf df' /\
       nrows df' = Np.count_true (kept t s) /\
       index df' = Np.select (kept t s) (index df) /\
       (forall c2,
          Dict.get c2 (columns df') =
            option_map (fun s2 => {| dtype_of := dtype_of s2;
                                     values := Np.select (kept t s) (values s2) |})
              (Dict.get c2 (columns df))) /\
       stamps df' = map (fun kv => (fst kv, Np.select (kept t s) (snd kv))) (stamps df)) /\
  (forall t df c s,
     wf df -> Dict.get c (columns df) = Some s ->
     Np.any (SolarDataProcessor.outlier_mask s t) = true ->
     Np.count_na (values s) <> 0%nat ->
     SolarDataProcessor.remove_column t df c = Raise (ValueError "Item wrong length")) /\
  (forall self df cols t,
     wf df ->
     no_missing
       (SolarDataProcessor.or_default cols SolarDataProcessor.default_outlier_columns) df ->
     exists self' df',
       SolarDataProcessor.remove_outliers self df cols t = Ok (self', df') /\
       wf df' /\
       (nrows df' <= nrows df)%nat /\
       SolarDataProcessor.outliers_removed self' =
         Some (Z.of_nat (nrows df) - Z.of_nat (nrows df'))%Z) /\
  (Permutation ["GHI"; "DNI"] ["DNI"; "GHI"] /\
   exists a b c,
     SolarDataProcessor.remove_loop 3 ["GHI"; "DNI"] Examples.two_columns = Ok a /\
     SolarDataProcessor.remove_loop 3 ["DNI"; "GHI"] Examples.two_columns = Ok b /\
     remove_single_pass 3 ["GHI"; "DNI"] Examples.two_columns = Ok c /\
     index a = [2; 3; 4; 5; 6; 7; 8; 9; 10; 11; 12]%nat /\
     index b = [1; 2; 3; 4; 5; 6; 7; 8; 9; 10; 11; 12]%nat /\
     index c = [1; 2; 3; 4; 5; 6; 7; 8; 9; 10; 11; 12]%nat) /\
  (wf Examples.gap_and_spike /\
   SolarDataProcessor.remove_outliers SolarDataProcessor.init
     Examples.gap_and_spike None SolarDataProcessor.default_z_threshold
   = Raise (ValueError "Item wrong length")).
Proof.
  split; [reflexivity |]. split; [exact remove_loop_cons |].
  split; [reflexivity |].
  split; [| split; [| split; [| split; [| split; [| split]]]]].
  - intros t df c H. unfold SolarDataProcessor.remove_column. now rewrite H.
  - intros t df c s Hget Hany. unfold SolarDataProcessor.remove_column.
    now rewrite Hget, Hany.
  - intros t df c s Hwf Hget Hclean.
    destruct (remove_column_aligned t df c s Hwf Hget Hclean) as (df' & H1 & H2 & H3 & H4).
    destruct (remove_column_stamps t df df' c s Hwf Hget Hclean H1) as [H5 H6].
    exists df'. split; [exact H1 |]. split; [exact H2 |]. split; [exact H6 |].
    split; [exact H3 |]. split; [exact H4 | exact H5].
  - exact remove_column_misaligned.
  - exact remove_outliers_total.
  - split; [apply perm_swap |].
    eexists. eexists. eexists.
    split; [vm_compute; reflexivity |]. split; [vm_compute; reflexivity |].
    split; [vm_compute; reflexivity |]. repeat split; reflexivity.
  - split; [apply wfb_wf; reflexivity | reflexivity].
Qed.

Lemma remove_outliers_sequential_witness :
  exists df',
    SolarDataProcessor.remove_column 3 Examples.two_columns "GHI" = Ok df' /\
    index df' = [1; 2; 3; 4; 5; 6; 7; 8; 9; 10; 11; 12]%nat.
Proof.
  destruct (proj1 (proj2 (proj2 (proj2 (proj2 (proj2 remove_outliers_sequential))))) 3
              Examples.two_columns "GHI"
              (Examples.floats [100; 0; 0; 0; 0; 0; 0; 0; 0; 0; 0; 0; 0]))
    as (df' & H1 & _ & _ & H2 & _).
  - apply wfb_wf. reflexivity.
  - reflexivity.
  - reflexivity.
  - exists df'. split; [exact H1 |]. rewrite H2. reflexivity.
Defined.

(** ** Row counts *)

Lemma handle_missing_values_nrows
    (self : SolarDataProcessor.t) (df : DataFrame) (cols : option (list string)) :
  nrows (snd (SolarDataProcessor.handle_missing_values self df cols)) = nrows df.
Proof.
  destruct (handle_missing_values_spec self df cols) as (Hi & _).
  unfold nrows. now rewrite Hi.
Qed.

Lemma process_timestamp_nrows (df : DataFrame) (timestamp_col : string) :
  nrows (SolarDataProcessor.process_timestamp df timestamp_col) = nrows df.
Proof.
  unfold SolarDataProcessor.process_timestamp.
  now destruct (Dict.get timestamp_col (stamps df)).
Qed.

Lemma remove_outliers_nrows
    (self self' : SolarDataProcessor.t) (df df' : DataFrame)
    (cols : option (list string)) (t : float) :
  SolarDataProcessor.remove_outliers self df cols t = Ok (self', df') ->
  (nrows df' <= nrows df)%nat.
Proof.
  unfold SolarDataProcessor.remove_outliers.
  destruct (SolarDataProcessor.remove_loop t _ df) as [df1 | e] eqn:E; simpl;
    [| discriminate].
  intros [= _ <-]. now apply remove_loop_nrows in E.
Qed.

(** C5.  [handle_missing_values] and [process_timestamp] return a table
    with the row count of their input, and a table [remove_outliers] returns
    has at most the rows of its input.  But [remove_outliers] does not return
    a table for every input: on [gap_and_spike] it raises, and with it the
    whole of [clean_solar_data], which checks ModA for outliers without
    imputing it. *)
Theorem cleaning_row_counts :
  (forall self df cols,
     nrows (snd (SolarDataProcessor.handle_missing_values self df cols)) = nrows df) /\
  (forall df timestamp_col,
     nrows (SolarDataProcessor.process_timestamp df timestamp_col) = nrows df) /\
  (forall self df cols t self' df',
     SolarDataProcessor.remove_outliers self df cols t = Ok (self', df') ->
     (nrows df' <= nrows df)%nat) /\
  wf Examples.gap_and_spike /\
  SolarDataProcessor.remove_outliers SolarDataProcessor.init
    Examples.gap_and_spike None SolarDataProcessor.default_z_threshold
  = Raise (ValueError "Item wrong length") /\
  SolarDataProcessor.clean_solar_data SolarDataProcessor.init
    (Some Examples.gap_and_spike)
  = Raise (ValueError "Item wrong length").
Proof.
  split; [exact handle_missing_values_nrows |].
  split; [exact process_timestamp_nrows |].
  split; [intros self df cols t self' df'; apply remove_outliers_nrows |].
  split; [apply wfb_wf; reflexivity |].
  split; reflexivity.
Qed.

(** ** Outlier detection *)







(** ** Comparison of countries *)

Lemma samples_keys (metric : string) (d : Dict.t DataFrame) (k : string) :
  In k (Dict.keys (samples metric d)) -> In k (Dict.keys d).
Proof.
  unfold Dict.keys, samples. rewrite !in_map_iff.
  intros [[k' a] [Hk Hin]]. simpl in Hk. subst k'.
  apply in_flat_map in Hin. destruct Hin as [[k' df] [Hin H]]. simpl in H.
  destruct (Dict.get metric (columns df)); simpl in H; [| tauto].
  destruct H as [H | []]. injection H as H1 H2. subst. now exists (k, df).
Qed.

Lemma collect_fold (metric : string) (l : Dict.t DataFrame) (acc : Dict.t (list float)) :
  NoDup (Dict.keys l) ->
  (forall k, In k (Dict.keys l) -> ~ In k (Dict.keys acc)) ->
  fold_left (SolarAnalyzer.collect_sample metric) l acc = (acc ++ samples metric l)%list.
Proof.
  revert acc. induction l as [| [k df] l IH]; intros acc Hnd Hfresh; simpl.
  - now rewrite app_nil_r.
  - inversion Hnd as [| ? ? Hnotin Hnd']; subst.
    destruct (Dict.get metric (columns df)) as [s |] eqn:E; simpl.
    + rewrite set_fresh by (apply Hfresh; now left).
      rewrite IH; [now rewrite <- app_assoc | exact Hnd' |].
      intros k' Hin. unfold Dict.keys. rewrite map_app, in_app_iff. simpl.
      intros [H | [H | []]].
      * apply (Hfresh k'); [now right | exact H].
      * subst k'. now apply Hnotin.
    + apply IH; [exact Hnd' |]. intros k' Hin. apply Hfresh. now right.
Qed.

Lemma length_samples (metric : string) (d : Dict.t DataFrame) :
  List.length (samples metric d) =
  List.length (filter (fun item => Dict.contains metric (columns (snd item))) d).
Proof.
  unfold samples, Dict.contains. induction d as [| [k df] d IH]; simpl; [reflexivity |].
  destruct (Dict.get metric (columns df)); simpl; now rewrite IH.
Qed.

Lemma compare_countries_few
    (f_oneway kruskal : list (list float) -> result (float * float))
    (d : Dict.t DataFrame) (metric : string) :
  NoDup (Dict.keys d) ->
  (List.length (filter (fun item => Dict.contains metric (columns (snd item))) d) < 2)%nat ->
  SolarAnalyzer.compare_countries_statistical f_oneway kruskal d metric = Ok None.
Proof.
  intros Hnd H. unfold SolarAnalyzer.compare_countries_statistical.
  rewrite collect_fold by (auto; intros ? ? []). simpl app.
  rewrite <- length_samples in H. now rewrite (proj2 (Nat.ltb_lt _ _) H).
Qed.

(** C7, as the code has it.  [compare_countries_statistical] returns the
    empty result exactly when fewer than two countries have the metric
    column; with two or more it runs both tests on the samples, whether or not
    a sample has a value. *)
Theorem compare_countries_guard :
  forall (f_oneway kruskal : list (list float) -> result (float * float))
         (d : Dict.t DataFrame) (metric : string),
    NoDup (Dict.keys d) ->
    let n := List.length
               (filter (fun item => Dict.contains metric (columns (snd item))) d) in
    ((n < 2)%nat ->
     SolarAnalyzer.compare_countries_statistical f_oneway kruskal d metric = Ok None) /\
    ((2 <= n)%nat ->
     SolarAnalyzer.compare_countries_statistical f_oneway kruskal d metric =
     (anova_result <- f_oneway (map snd (samples metric d)) ;;
      kruskal_result <- kruskal (map snd (samples metric d)) ;;
      Ok (Some {| SolarAnalyzer.countries := Dict.keys (samples metric d);
                  SolarAnalyzer.sample_sizes :=
                    map (fun kv => (fst kv, List.length (snd kv))) (samples metric d);
                  SolarAnalyzer.anova :=
                    {| SolarAnalyzer.statistic := fst anova_result;
                       SolarAnalyzer.p_value := snd anova_result;
                       SolarAnalyzer.significant := snd anova_result <? 0.05 |};
                  SolarAnalyzer.kruskal_wallis :=
                    {| SolarAnalyzer.statistic := fst kruskal_result;
                       SolarAnalyzer.p_value := snd kruskal_result;
                       SolarAnalyzer.significant := snd kruskal_result <? 0.05 |} |}))).
Proof.
  intros f_oneway kruskal d metric Hnd n. split; intros H.
  - now apply compare_countries_few.
  - unfold SolarAnalyzer.compare_countries_statistical.
    rewrite collect_fold by (auto; intros ? ? []). simpl app.
    subst n. rewrite <- length_samples in H.
    now rewrite (proj2 (Nat.ltb_ge _ _) H).
Qed.

Lemma compare_countries_guard_witness :
  SolarAnalyzer.compare_countries_statistical Examples.flat_test Examples.flat_test
    [("Benin", Examples.steady); ("Togo", Examples.without_ghi)] "GHI" = Ok None.
Proof.
  refine (proj1 (compare_countries_guard Examples.flat_test Examples.flat_test
                   [("Benin", Examples.steady); ("Togo", Examples.without_ghi)] "GHI" _) _).
  - repeat constructor; simpl; intuition discriminate.
  - simpl. lia.
Defined.

(** C7, as stated, fails: Togo has the GHI column and not one non-missing
    value in it, and the comparison does not return the empty result: it runs
    the tests on Benin's sample and Togo's empty sample. *)
Lemma compare_countries_empty_sample :
  samples "GHI" Examples.empty_ghi_countries = [("Benin", [100; 300]); ("Togo", [])] /\
  forall f_oneway kruskal : list (list float) -> result (float * float),
    SolarAnalyzer.compare_countries_statistical f_oneway kruskal
      Examples.empty_ghi_countries "GHI" <> Ok None /\
    forall a b,
      f_oneway [[100; 300]; []] = Ok a -> kruskal [[100; 300]; []] = Ok b ->
      exists c,
        SolarAnalyzer.compare_countries_statistical f_oneway kruskal
          Examples.empty_ghi_countries "GHI" = Ok (Some c) /\
        SolarAnalyzer.sample_sizes c = [("Benin", 2%nat); ("Togo", 0%nat)] /\
        SolarAnalyzer.statistic (SolarAnalyzer.anova c) = fst a.
Proof.
  split; [reflexivity |]. intros f_oneway kruskal.
  unfold SolarAnalyzer.compare_countries_statistical. simpl.
  change (Np.dropna (values (Examples.floats [100; 300]))) with [100; 300].
  change (Np.dropna (values (Examples.floats [nan]))) with (@nil float).
  split.
  - destruct (f_oneway _); simpl; [| discriminate].
    destruct (kruskal _); simpl; discriminate.
  - intros a b Ha Hb. rewrite Ha, Hb. simpl. eexists. split; [reflexivity |].
    split; reflexivity.
Qed.

(** ** Data sufficiency *)

(** NaN is absorbing for the four operations. *)
Lemma nan_add_l (x : float) : nan + x = nan.
Proof.
  apply Prim2SF_inj. rewrite add_spec. change (Prim2SF nan) with S754_nan.
  destruct (Prim2SF x); reflexivity.
Qed.

Lemma nan_add_r (x : float) : x + nan = nan.
Proof.
  apply Prim2SF_inj. rewrite add_spec. change (Prim2SF nan) with S754_nan.
  destruct (Prim2SF x); reflexivity.
Qed.

Lemma nan_sub_r (x : float) : x - nan = nan.
Proof.
  apply Prim2SF_inj. rewrite sub_spec. change (Prim2SF nan) with S754_nan.
  destruct (Prim2SF x); reflexivity.
Qed.

Lemma nan_mul_l (x : float) : nan * x = nan.
Proof.
  apply Prim2SF_inj. rewrite mul_spec. change (Prim2SF nan) with S754_nan.
  destruct (Prim2SF x); reflexivity.
Qed.

Lemma nan_div_l (x : float) : nan / x = nan.
Proof.
  apply Prim2SF_inj. rewrite div_spec. change (Prim2SF nan) with S754_nan.
  destruct (Prim2SF x); reflexivity.
Qed.

(** The composite score of metrics whose coefficient of variation is NaN. *)
Lemma composite_nan_cv (m : SolarAnalyzer.Metrics) :
  is_nan (SolarAnalyzer.cv_ghi m) = true -> is_nan (SolarAnalyzer.composite m) = true.
Proof.
  intros H. apply is_nan_eq in H. unfold SolarAnalyzer.composite. rewrite H.
  now rewrite nan_sub_r, nan_mul_l, nan_add_r, !nan_add_l.
Qed.

Lemma rank_countries_included (d : Dict.t DataFrame) (country : string) (df : DataFrame)
    (m : SolarAnalyzer.Metrics) :
  NoDup (Dict.keys d) -> In (country, df) d ->
  SolarAnalyzer.calculate_solar_potential_metrics df = Some m ->
  Dict.get country (SolarAnalyzer.rank_countries d) = Some (ranking_of m).
Proof.
  intros Hnd Hin Hm. rewrite rank_countries_get by exact Hnd.
  apply In_get; [now apply ranked_NoDup |].
  apply ranked_In. now exists df, m.
Qed.

(** C9, as the code has it.  The absence of the GHI column is the one
    condition [calculate_solar_potential_metrics] answers with the empty
    result, and fewer than two countries with the metric column the one
    [compare_countries_statistical] does.  A country is ranked exactly when
    its table has a GHI column, and then with the metrics computed from the
    non-missing values of that column and the score computed from them.  With
    no non-missing value the average, the deviation, the coefficient of
    variation, the peak, the percentile, the consistency and the composite
    score are NaN and the hours 0; with one, the deviation, the coefficient of
    variation, the consistency and the composite score are NaN. *)
Theorem absent_column_is_no_result :
  (forall df,
     SolarAnalyzer.calculate_solar_potential_metrics df = None <->
     Dict.get "GHI" (columns df) = None) /\
  (forall f_oneway kruskal d metric,
     NoDup (Dict.keys d) ->
     (List.length (filter (fun item => Dict.contains metric (columns (snd item))) d) < 2)%nat ->
     SolarAnalyzer.compare_countries_statistical f_oneway kruskal d metric = Ok None) /\
  (forall d country df,
     NoDup (Dict.keys d) -> In (country, df) d ->
     Dict.get "GHI" (columns df) = None ->
     Dict.get country (SolarAnalyzer.rank_countries d) = None) /\
  (forall d country r,
     NoDup (Dict.keys d) ->
     Dict.get country (SolarAnalyzer.rank_countries d) = Some r ->
     exists df s,
       In (country, df) d /\
       Dict.get "GHI" (columns df) = Some s /\
       SolarAnalyzer.calculate_solar_potential_metrics df = Some (SolarAnalyzer.metrics r) /\
       r = ranking_of (SolarAnalyzer.metrics r) /\
       SolarAnalyzer.average_ghi (SolarAnalyzer.metrics r) = Np.mean (Np.dropna (values s)) /\
       SolarAnalyzer.high_potential_hours (SolarAnalyzer.metrics r) =
         SolarAnalyzer.hours_above 400 (Np.dropna (values s))) /\
  (forall d country df s,
     NoDup (Dict.keys d) -> In (country, df) d ->
     Dict.get "GHI" (columns df) = Some s ->
     exists r,
       Dict.get country (SolarAnalyzer.rank_countries d) = Some r /\
       let ghi_data := Np.dropna (values s) in
       let m := SolarAnalyzer.metrics r in
       SolarAnalyzer.average_ghi m = Np.mean ghi_data /\
       SolarAnalyzer.std_ghi m = Np.std1 ghi_data /\
       SolarAnalyzer.cv_ghi m = (Np.std1 ghi_data / Np.mean ghi_data) * 100 /\
       SolarAnalyzer.peak_ghi m = Np.max ghi_data /\
       SolarAnalyzer.peak_95th m = Np.quantile 0.95 ghi_data /\
       SolarAnalyzer.consistency_score m = 100 - (Np.std1 ghi_data / Np.mean ghi_data) * 100 /\
       SolarAnalyzer.operational_hours m = SolarAnalyzer.hours_above 50 ghi_data /\
       SolarAnalyzer.high_potential_hours m = SolarAnalyzer.hours_above 400 ghi_data /\
       SolarAnalyzer.ranking_average_ghi r = SolarAnalyzer.average_ghi m /\
       SolarAnalyzer.consistency r = 100 - SolarAnalyzer.cv_ghi m /\
       SolarAnalyzer.ranking_high_potential_hours r = SolarAnalyzer.high_potential_hours m /\
       SolarAnalyzer.composite_score r =
         SolarAnalyzer.average_ghi m * 0.4
         + (100 - SolarAnalyzer.cv_ghi m) * 0.3
         + Np.float_of_nat (SolarAnalyzer.high_potential_hours m) * 0.2
         + SolarAnalyzer.peak_95th m * 0.1) /\
  (forall df s,
     Dict.get "GHI" (columns df) = Some s ->
     Np.dropna (values s) = [] ->
     exists m,
       SolarAnalyzer.calculate_solar_potential_metrics df = Some m /\
       is_nan (SolarAnalyzer.average_ghi m) = true /\
       is_nan (SolarAnalyzer.std_ghi m) = true /\
       is_nan (SolarAnalyzer.cv_ghi m) = true /\
       is_nan (SolarAnalyzer.peak_ghi m) = true /\
       is_nan (SolarAnalyzer.peak_95th m) = true /\
       is_nan (SolarAnalyzer.consistency_score m) = true /\
       SolarAnalyzer.operational_hours m = 0%nat /\
       SolarAnalyzer.high_potential_hours m = 0%nat /\
       is_nan (SolarAnalyzer.composite m) = true) /\
  (forall df s x,
     Dict.get "GHI" (columns df) = Some s ->
     Np.dropna (values s) = [x] ->
     exists m,
       SolarAnalyzer.calculate_solar_potential_metrics df = Some m /\
       is_nan (SolarAnalyzer.std_ghi m) = true /\
       is_nan (SolarAnalyzer.cv_ghi m) = true /\
       is_nan (SolarAnalyzer.consistency_score m) = true /\
       is_nan (SolarAnalyzer.composite m) = true).
Proof.
  split; [exact metrics_None |]. split; [| split; [| split; [| split; [| split]]]].
  - intros f_oneway kruskal d metric. apply compare_countries_few.
  - intros d country df Hnd Hin Hghi.
    apply (rank_countries_excluded d country df Hnd Hin).
    now apply metrics_None.
  - intros d country r Hnd Hget. rewrite rank_countries_get in Hget by exact Hnd.
    apply get_Some_In, ranked_In in Hget. destruct Hget as (df & m & Hin & Hm & ->).
    simpl. unfold SolarAnalyzer.calculate_solar_potential_metrics in Hm.
    destruct (Dict.get "GHI" (columns df)) as [s |] eqn:G; [| discriminate].
    exists df, s. split; [exact Hin |]. split; [exact G |].
    unfold SolarAnalyzer.calculate_solar_potential_metrics. rewrite G.
    injection Hm as <-. repeat split; reflexivity.
  - intros d country df s Hnd Hin G.
    eexists. split.
    + eapply rank_countries_included; [exact Hnd | exact Hin |].
      unfold SolarAnalyzer.calculate_solar_potential_metrics. rewrite G. reflexivity.
    + cbv zeta. repeat split; reflexivity.
  - intros df s G Hg. unfold SolarAnalyzer.calculate_solar_potential_metrics.
    rewrite G, Hg. eexists. split; [reflexivity |]. repeat split; reflexivity.
  - intros df s x G Hg. unfold SolarAnalyzer.calculate_solar_potential_metrics.
    rewrite G, Hg. eexists. split; [reflexivity |].
    assert (Hstd : Np.std1 [x] = nan) by reflexivity.
    assert (Hcv : (Np.std1 [x] / Np.mean [x]) * 100 = nan)
      by (rewrite Hstd, nan_div_l, nan_mul_l; reflexivity).
    cbn [SolarAnalyzer.std_ghi SolarAnalyzer.cv_ghi SolarAnalyzer.consistency_score].
    split; [rewrite Hstd; reflexivity |].
    split; [rewrite Hcv; reflexivity |].
    split; [rewrite Hcv, nan_sub_r; reflexivity |].
    apply composite_nan_cv. cbn [SolarAnalyzer.cv_ghi]. rewrite Hcv. reflexivity.
Qed.

Lemma absent_column_is_no_result_witness :
  Dict.get "Togo"
    (SolarAnalyzer.rank_countries
       [("Benin", Examples.steady); ("Togo", Examples.without_ghi)]) = None.
Proof.
  refine (proj1 (proj2 (proj2 absent_column_is_no_result))
            [("Benin", Examples.steady); ("Togo", Examples.without_ghi)]
            "Togo" Examples.without_ghi _ _ _).
  - repeat constructor; simpl; intuition discriminate.
  - simpl. auto.
  - reflexivity.
Defined.

(** C9, as stated, fails: Togo's GHI column has no value, its metrics are
    not the empty result, and it enters the ranking with the average NaN and
    the composite score NaN. *)
Lemma rank_countries_enters_with_nan :
  Dict.get "GHI" (columns Examples.empty_ghi) = Some (Examples.floats [nan]) /\
  exists m r,
    SolarAnalyzer.calculate_solar_potential_metrics Examples.empty_ghi = Some m /\
    Dict.get "Togo" (SolarAnalyzer.rank_countries Examples.empty_ghi_countries) = Some r /\
    SolarAnalyzer.metrics r = m /\
    is_nan (SolarAnalyzer.average_ghi m) = true /\
    is_nan (SolarAnalyzer.peak_95th m) = true /\
    SolarAnalyzer.high_potential_hours m = 0%nat /\
    is_nan (SolarAnalyzer.composite_score r) = true.
Proof.
  split; [reflexivity |].
  eexists. eexists. split; [reflexivity |]. split; [vm_compute; reflexivity |].
  repeat split; reflexivity.
Qed.

(** ** The median of finite values

    The condition of [handle_missing_values_imputes_median] holds for every
    column that has a non-missing value and whose non-missing values are
    finite. *)

Lemma iter_pos_invariant {A : Type} (P : A -> Prop) (f : A -> A) :
  (forall x, P x -> P (f x)) -> forall p x, P x -> P (iter_pos f p x).
Proof.
  intros Hf. induction p as [p IH | p IH |]; intros x Hx; simpl; auto.
Qed.

Lemma shr_1_nonneg (mrs : shr_record) :
  (0 <= shr_m mrs)%Z -> (0 <= shr_m (shr_1 mrs))%Z.
Proof.
  destruct mrs as [m r s]. simpl. destruct m as [| p | p]; simpl; try lia.
  destruct p; simpl; lia.
Qed.

Lemma shr_nonneg (mrs : shr_record) (e n : Z) :
  (0 <= shr_m mrs)%Z -> (0 <= shr_m (fst (shr mrs e n)))%Z.
Proof.
  intros H. unfold shr. destruct n as [| p | p]; simpl; auto.
  apply iter_pos_invariant; auto. apply shr_1_nonneg.
Qed.

Lemma shr_fexp_nonneg (pr em m e : Z) (l : location) :
  (0 <= m)%Z -> (0 <= shr_m (fst (shr_fexp pr em m e l)))%Z.
Proof.
  intros H. unfold shr_fexp. apply shr_nonneg.
  destruct l as [| [ | | ]]; simpl; exact H.
Qed.

Lemma round_nearest_even_nonneg (m : Z) (l : location) :
  (0 <= m)%Z -> (0 <= round_nearest_even m l)%Z.
Proof.
  intros H. unfold round_nearest_even. destruct l as [| [ | | ]]; try lia.
  destruct (Z.even m); lia.
Qed.

(** Rounding a non-negative mantissa gives a zero, a finite value or an
    infinity. *)
Lemma binary_round_aux_not_nan (pr em : Z) (sx : bool) (mx ex : Z) (lx : location) :
  (0 <= mx)%Z -> binary_round_aux pr em sx mx ex lx <> S754_nan.
Proof.
  intros H. unfold binary_round_aux.
  pose proof (shr_fexp_nonneg pr em mx ex lx H) as H1.
  destruct (shr_fexp pr em mx ex lx) as [mrs' e']. simpl in H1.
  pose proof (shr_fexp_nonneg pr em _ e' loc_Exact
                (round_nearest_even_nonneg (shr_m mrs') (loc_of_shr_record mrs') H1))
    as H2.
  destruct (shr_fexp pr em _ e' loc_Exact) as [mrs'' e'']. simpl in H2.
  destruct (shr_m mrs'') as [| p | p]; try discriminate; [| lia].
  destruct (e'' <=? em - pr)%Z; discriminate.
Qed.

Lemma binary_normalize_not_nan (pr em m e : Z) (sz : bool) :
  binary_normalize pr em m e sz <> S754_nan.
Proof.
  unfold binary_normalize, binary_round. destruct m as [| p | p]; try discriminate.
  - destruct (shl_align p e _) as [mz ez]. now apply binary_round_aux_not_nan.
  - destruct (shl_align p e _) as [mz ez]. now apply binary_round_aux_not_nan.
Qed.

Lemma SF64add_finite (x y : spec_float) :
  sf_finite x = true -> sf_finite y = true -> SF64add x y <> S754_nan.
Proof.
  unfold SF64add, SFadd.
  destruct x as [sx | sx | | sx mx ex], y as [sy | sy | | sy my ey]; simpl;
    try discriminate; intros _ _.
  - destruct sx, sy; discriminate.
  - apply binary_normalize_not_nan.
Qed.

Lemma SF64div_two (x : spec_float) :
  x <> S754_nan -> SF64div x (Prim2SF 2) <> S754_nan.
Proof.
  intros H. unfold SF64div, SFdiv.
  replace (Prim2SF 2) with (S754_finite false 4503599627370496 (-51)) by reflexivity.
  destruct x as [sx | sx | | sx mx ex]; try discriminate; [congruence |].
  destruct (SFdiv_core_binary prec emax (Z.pos mx) ex 4503599627370496 (-51))
    as [[mz ez] lz] eqn:E.
  apply binary_round_aux_not_nan.
  unfold SFdiv_core_binary in E.
  match type of E with
  | (let '(q, r) := Z.div_eucl ?m ?d in _) = _ =>
      pose proof (Z.div_eucl_eq m d) as Heq;
      pose proof (Z.mod_pos_bound m d) as Hb;
      assert (Hm : (0 <= m)%Z);
      [| unfold Z.modulo in Hb; destruct (Z.div_eucl m d) as [q r] eqn:D]
  end.
  - destruct (_ - _ - _)%Z; try lia. apply Z.shiftl_nonneg. lia.
  - injection E as <- _ _. specialize (Heq ltac:(lia)). specialize (Hb ltac:(lia)). nia.
Qed.

Lemma finite_not_nan (x : float) : finite x = true -> is_nan x = false.
Proof.
  unfold finite. intros H. apply is_nan_false. intros E. now rewrite E in H.
Qed.

Lemma mean_of_two_finite (a b : float) :
  finite a = true -> finite b = true -> is_nan ((a + b) / 2) = false.
Proof.
  intros Ha Hb. apply is_nan_false. rewrite div_spec, add_spec.
  apply SF64div_two. now apply SF64add_finite.
Qed.

Lemma sort_insert_In (x y : float) (l : list float) :
  In y (Np.insert x l) <-> y = x \/ In y l.
Proof.
  induction l as [| z l IH]; simpl.
  - intuition auto.
  - destruct (x <=? z); simpl; [intuition auto |]. rewrite IH. intuition auto.
Qed.

Lemma sort_In (y : float) (a : list float) : In y (Np.sort a) <-> In y a.
Proof.
  unfold Np.sort. induction a as [| x a IH]; simpl; [tauto |].
  rewrite sort_insert_In, IH. intuition auto.
Qed.

Lemma median_of_finite (a : list float) :
  Np.dropna a <> [] ->
  Forall (fun x => finite x = true) (Np.dropna a) ->
  Np.isna (Np.median a) = false.
Proof.
  intros Hne Hfin. unfold Np.median.
  set (s := Np.sort (Np.dropna a)).
  assert (Hs : forall y, In y s -> finite y = true).
  { intros y Hy. apply (proj1 (sort_In y (Np.dropna a))) in Hy.
    exact (proj1 (Forall_forall _ _) Hfin y Hy). }
  destruct (List.length s) as [| n] eqn:Hn.
  - exfalso. destruct (Np.dropna a) as [| x l] eqn:E; [congruence |].
    assert (Hx : In x s) by (apply sort_In; now left).
    destruct s; [contradiction | discriminate].
  - assert (Hlt : forall k, (k < S n)%nat -> finite (nth k s nan) = true).
    { intros k Hk. apply Hs, nth_In. lia. }
    change (S n =? 0)%nat with false. cbv iota.
    assert (Hhalf : (S n / 2 < S n)%nat) by (apply Nat.div_lt; lia).
    destruct (Nat.odd (S n)).
    + apply finite_not_nan, Hlt, Hhalf.
    + apply mean_of_two_finite; apply Hlt; lia.
Qed.

(** ** The cleaning operations keep a table well formed *)

Lemma Forall_set {V : Type} (P : string * V -> Prop) (k : string) (v : V) (d : Dict.t V) :
  (forall k0, P (k0, v)) -> Forall P d -> Forall P (Dict.set k v d).
Proof.
  intros Hv. induction 1 as [| [k' v'] d Hx Hd IH]; simpl.
  - constructor; [apply Hv | constructor].
  - destruct (String.eqb k k'); constructor; auto.
Qed.

Lemma wf_set_column (df : DataFrame) (col : string) (s : Series) :
  wf df -> List.length (values s) = nrows df -> wf (set_column df col s).
Proof.
  intros [Hc Hs] Hlen. split; [| exact Hs].
  simpl. apply Forall_set; [intros k0; exact Hlen | exact Hc].
Qed.

Lemma wf_impute_column (df : DataFrame) (report : Dict.t nat) (col : string) :
  wf df -> wf (fst (SolarDataProcessor.impute_column (df, report) col)).
Proof.
  intros Hwf. unfold SolarDataProcessor.impute_column.
  destruct (Dict.get col (columns df)) as [s |] eqn:G; [| exact Hwf].
  destruct (0 <? Np.count_na (values s))%nat; [| exact Hwf].
  simpl. apply wf_set_column; [exact Hwf |]. simpl.
  rewrite length_fillna. now apply (wf_column df col).
Qed.

Lemma wf_handle_missing_values
    (self : SolarDataProcessor.t) (df : DataFrame) (cols : option (list string)) :
  wf df -> wf (snd (SolarDataProcessor.handle_missing_values self df cols)).
Proof.
  unfold SolarDataProcessor.handle_missing_values.
  generalize (SolarDataProcessor.or_default cols
                SolarDataProcessor.default_columns_to_impute) as l.
  generalize (@Dict.empty nat) as report.
  intros report l. revert df report.
  induction l as [| col l IH]; intros df report Hwf.
  - exact Hwf.
  - cbn [fold_left].
    pose proof (wf_impute_column df report col Hwf) as H1.
    destruct (SolarDataProcessor.impute_column (df, report) col) as [df1 report1].
    now apply IH.
Qed.

Lemma wf_process_timestamp (df : DataFrame) (timestamp_col : string) :
  wf df -> wf (SolarDataProcessor.process_timestamp df timestamp_col).
Proof.
  intros Hwf. unfold SolarDataProcessor.process_timestamp.
  destruct (Dict.get timestamp_col (stamps df)) as [ts |] eqn:G; [| exact Hwf].
  assert (Hlen : List.length ts = nrows df).
  { destruct Hwf as [_ Hs]. apply get_Some_In in G.
    rewrite Forall_forall in Hs. exact (Hs _ G). }
  repeat (apply wf_set_column;
          [| unfold SolarDataProcessor.derived; simpl; now rewrite length_map]).
  exact Hwf.
Qed.

(** Month 1 and month 12 fall in season 1, month 6 in season 3; every month
    has a season from 1 to 4. *)
Lemma season_range (month : Z) :
  (1 <= month <= 12)%Z ->
  (1 <= SolarDataProcessor.season month <= 4)%Z /\
  SolarDataProcessor.season 1 = 1%Z /\
  SolarDataProcessor.season 12 = 1%Z /\
  SolarDataProcessor.season 6 = 3%Z.
Proof.
  intros H. unfold SolarDataProcessor.season. split; [| repeat split].
  assert (Hm : (0 <= month mod 12 < 12)%Z) by (apply Z.mod_pos_bound; lia).
  split.
  - apply Z.div_le_lower_bound; lia.
  - assert ((month mod 12 + 3) / 3 < 5)%Z by (apply Z.div_lt_upper_bound; lia). lia.
Qed.

(** ** More on the order of binary64 values *)

Ltac compare_cases :=
  repeat match goal with
  | H : context [(?a ?= ?b)%Z] |- _ =>
      let E := fresh "E" in destruct (Z.compare_spec a b) as [E | E | E]; simpl in H
  | |- context [(?a ?= ?b)%Z] =>
      let E := fresh "E" in destruct (Z.compare_spec a b) as [E | E | E]; simpl
  | H : context [PosDef.Pos.compare_cont Eq ?a ?b] |- _ =>
      change (PosDef.Pos.compare_cont Eq a b) with (Pos.compare a b) in H;
      let E := fresh "E" in destruct (Pos.compare_spec a b) as [E | E | E]; simpl in H
  | |- context [PosDef.Pos.compare_cont Eq ?a ?b] =>
      change (PosDef.Pos.compare_cont Eq a b) with (Pos.compare a b);
      let E := fresh "E" in destruct (Pos.compare_spec a b) as [E | E | E]; simpl
  end.

Lemma SFcompare_Lt_trans (a b c : spec_float) :
  SFcompare a b = Some Lt -> SFcompare b c = Some Lt -> SFcompare a c = Some Lt.
Proof.
  destruct a as [sa | sa | | sa ma ea], b as [sb | sb | | sb mb eb],
    c as [sc | sc | | sc mc ec]; simpl;
    try destruct sa; try destruct sb; try destruct sc; simpl;
    try discriminate; try reflexivity; intros H1 H2;
    compare_cases; try discriminate; try reflexivity; try lia.
Qed.

Lemma SFcompare_Eq_subst_r (a b c : spec_float) :
  SFcompare b c = Some Eq -> SFcompare a b = SFcompare a c.
Proof.
  intros H.
  assert (H' : SFcompare c b = Some Eq) by (rewrite SFcompare_sym, H; reflexivity).
  rewrite (SFcompare_sym b a), (SFcompare_sym c a).
  now rewrite (SFcompare_Eq_subst c b a H').
Qed.

Lemma ltb_trans (x y z : float) :
  (x <? y) = true -> (y <? z) = true -> (x <? z) = true.
Proof.
  rewrite !ltb_spec. unfold SFltb. intros H1 H2.
  destruct (SFcompare (Prim2SF x) (Prim2SF y)) as [[ | | ] | ] eqn:E1; try discriminate.
  destruct (SFcompare (Prim2SF y) (Prim2SF z)) as [[ | | ] | ] eqn:E2; try discriminate.
  now rewrite (SFcompare_Lt_trans _ _ _ E1 E2).
Qed.

Lemma leb_trans (x y z : float) :
  (x <=? y) = true -> (y <=? z) = true -> (x <=? z) = true.
Proof.
  rewrite !leb_spec. unfold SFleb. intros H1 H2.
  destruct (SFcompare (Prim2SF x) (Prim2SF y)) as [[ | | ] | ] eqn:E1; try discriminate.
  - now rewrite (SFcompare_Eq_subst _ _ _ E1).
  - destruct (SFcompare (Prim2SF y) (Prim2SF z)) as [[ | | ] | ] eqn:E2; try discriminate.
    + now rewrite <- (SFcompare_Eq_subst_r _ _ _ E2), E1.
    + now rewrite (SFcompare_Lt_trans _ _ _ E1 E2).
Qed.

Lemma ltb_nan_l (x : float) : (nan <? x) = false.
Proof.
  rewrite ltb_spec. reflexivity.
Qed.

(** ** Detection and removal together *)

Lemma detect_fold_get (df : DataFrame) (t : float) (c : string) (cols : list string) :
  forall rep0,
    Dict.get c (fold_left (SolarDataProcessor.detect_column df t) cols rep0) =
    match Dict.get c (columns df) with
    | Some s =>
        if mem c cols && SolarDataProcessor.numeric_dtype (dtype_of s)
        then Some (Np.count_true (SolarDataProcessor.outlier_mask s t))
        else Dict.get c rep0
    | None => Dict.get c rep0
    end.
Proof.
  induction cols as [| c0 cols IH]; intros rep0.
  - simpl. now destruct (Dict.get c (columns df)).
  - cbn [fold_left]. rewrite IH.
    change (mem c (c0 :: cols)) with (String.eqb c c0 || mem c cols).
    unfold SolarDataProcessor.detect_column at 1 2.
    destruct (String.eqb c c0) eqn:E.
    + apply String.eqb_eq in E. subst c0.
      destruct (Dict.get c (columns df)) as [s |]; [| reflexivity]. simpl.
      destruct (SolarDataProcessor.numeric_dtype (dtype_of s)).
      * rewrite get_set_same. now destruct (mem c cols).
      * now rewrite !andb_false_r.
    + assert (Hother : forall n, Dict.get c (Dict.set c0 n rep0) = Dict.get c rep0).
      { intros n. apply get_set_other. intros ->. now rewrite String.eqb_refl in E. }
      simpl.
      destruct (Dict.get c0 (columns df)) as [s0 |];
        [destruct (SolarDataProcessor.numeric_dtype (dtype_of s0)) |];
        try rewrite Hother; reflexivity.
Qed.

Lemma count_true_le (m : list bool) : (Np.count_true m <= List.length m)%nat.
Proof.
  unfold Np.count_true. induction m as [| b m IH]; simpl; [lia |].
  destruct b; simpl; lia.
Qed.

Lemma count_true_invert (m : list bool) :
  (Np.count_true (Np.invert m) + Np.count_true m = List.length m)%nat.
Proof.
  unfold Np.count_true, Np.invert. induction m as [| b m IH]; simpl; [reflexivity |].
  destruct b; simpl; lia.
Qed.


Lemma any_false_count_true (m : list bool) : Np.any m = false -> Np.count_true m = 0%nat.
Proof.
  unfold Np.count_true, Np.any. induction m as [| b m IH]; simpl; [reflexivity |].
  destruct b; simpl; [discriminate | exact IH].
Qed.

(** X1.  The report of [detect_outliers] has an entry for a column exactly
    when the column is named, present and of dtype float64 or int64; the entry
    is the number of outliers among the non-missing values of the column, at
    most their number.  A column that is absent, or of another dtype, is
    passed over without an entry. *)
Theorem detect_outliers_report :
  forall (df : DataFrame) (cols : option (list string)) (t : float) (c : string),
    Dict.get c (SolarDataProcessor.detect_outliers df cols t) =
    match Dict.get c (columns df) with
    | Some s =>
        if mem c (SolarDataProcessor.or_default cols
                    SolarDataProcessor.default_outlier_columns)
           && SolarDataProcessor.numeric_dtype (dtype_of s)
        then Some (Np.count_true (SolarDataProcessor.outlier_mask s t))
        else None
    | None => None
    end /\
    forall n,
      Dict.get c (SolarDataProcessor.detect_outliers df cols t) = Some n ->
      exists s,
        Dict.get c (columns df) = Some s /\
        (n + Np.count_na (values s) <= List.length (values s))%nat.
Proof.
  intros df cols t c.
  assert (H : Dict.get c (SolarDataProcessor.detect_outliers df cols t) =
              match Dict.get c (columns df) with
              | Some s =>
                  if mem c (SolarDataProcessor.or_default cols
                              SolarDataProcessor.default_outlier_columns)
                     && SolarDataProcessor.numeric_dtype (dtype_of s)
                  then Some (Np.count_true (SolarDataProcessor.outlier_mask s t))
                  else None
              | None => None
              end).
  { unfold SolarDataProcessor.detect_outliers. rewrite detect_fold_get.
    now destruct (Dict.get c (columns df)). }
  split; [exact H |]. intros n Hn. rewrite H in Hn.
  destruct (Dict.get c (columns df)) as [s |]; [| discriminate].
  exists s. split; [reflexivity |].
  destruct (mem c _ && _); [| discriminate]. injection Hn as <-.
  pose proof (count_true_le (SolarDataProcessor.outlier_mask s t)) as Hle.
  rewrite length_outlier_mask in Hle.
  pose proof (length_dropna (values s)). lia.
Qed.




(** X3.  For one checked column that is present, of dtype float64 or int64
    and without missing values, [remove_outliers] removes exactly the number
    of rows [detect_outliers] counts for that column. *)
Theorem remove_outliers_removes_detected :
  forall (self : SolarDataProcessor.t) (df : DataFrame) (t : float)
         (c : string) (s : Series),
    wf df ->
    Dict.get c (columns df) = Some s ->
    SolarDataProcessor.numeric_dtype (dtype_of s) = true ->
    Np.count_na (values s) = 0%nat ->
    exists n self' df',
      Dict.get c (SolarDataProcessor.detect_outliers df (Some [c]) t) = Some n /\
      SolarDataProcessor.remove_outliers self df (Some [c]) t = Ok (self', df') /\
      SolarDataProcessor.outliers_removed self' = Some (Z.of_nat n) /\
      (nrows df' + n = nrows df)%nat.
Proof.
  intros self df t c s Hwf Hget Hnum Hclean.
  exists (Np.count_true (SolarDataProcessor.outlier_mask s t)).
  assert (Hlen : List.length (SolarDataProcessor.outlier_mask s t) = nrows df).
  { rewrite length_outlier_mask, dropna_clean by exact Hclean.
    now apply (wf_column df c). }
  destruct (remove_column_aligned t df c s Hwf Hget Hclean) as (df' & Hok & _ & Hidx & _).
  assert (Hrows : (nrows df' + Np.count_true (SolarDataProcessor.outlier_mask s t)
                   = nrows df)%nat).
  { unfold nrows at 1. rewrite Hidx, <- invert_outlier_mask by exact Hclean.
    rewrite length_select by (unfold Np.invert, nrows in *; now rewrite length_map).
    rewrite count_true_invert. exact Hlen. }
  eexists. exists df'. split; [| split; [| split]].
  - unfold SolarDataProcessor.detect_outliers. simpl.
    unfold SolarDataProcessor.detect_column. rewrite Hget, Hnum. apply get_set_same.
  - unfold SolarDataProcessor.remove_outliers. simpl SolarDataProcessor.or_default.
    rewrite remove_loop_cons, Hok. simpl. reflexivity.
  - simpl. f_equal. lia.
  - exact Hrows.
Qed.

Lemma remove_outliers_removes_detected_witness :
  exists n self' df',
    Dict.get "GHI" (SolarDataProcessor.detect_outliers Examples.two_columns
                      (Some ["GHI"]) 3) = Some n /\
    SolarDataProcessor.remove_outliers SolarDataProcessor.init Examples.two_columns
      (Some ["GHI"]) 3 = Ok (self', df') /\
    SolarDataProcessor.outliers_removed self' = Some (Z.of_nat n) /\
    (nrows df' + n = nrows Examples.two_columns)%nat.
Proof.
  refine (remove_outliers_removes_detected SolarDataProcessor.init Examples.two_columns 3
            "GHI" (Examples.floats [100; 0; 0; 0; 0; 0; 0; 0; 0; 0; 0; 0; 0])
            _ eq_refl eq_refl eq_refl).
  apply wfb_wf. reflexivity.
Defined.

(** ** What imputation keeps *)

Lemma keys_set_present {V : Type} (k : string) (v : V) (d : Dict.t V) :
  Dict.get k d <> None -> Dict.keys (Dict.set k v d) = Dict.keys d.
Proof.
  unfold Dict.keys. induction d as [| [k' v'] d IH]; simpl; [congruence |].
  destruct (String.eqb k k') eqn:E; simpl; [reflexivity |].
  intros H. now rewrite IH.
Qed.

Lemma set_same {V : Type} (k : string) (v : V) (d : Dict.t V) :
  Dict.get k d = Some v -> Dict.set k v d = d.
Proof.
  induction d as [| [k' v'] d IH]; simpl; [discriminate |].
  destruct (String.eqb k k') eqn:E.
  - now intros [= ->].
  - intros H. now rewrite IH.
Qed.

Lemma impute_column_keys (df : DataFrame) (report : Dict.t nat) (col : string) :
  Dict.keys (columns (fst (SolarDataProcessor.impute_column (df, report) col))) =
  Dict.keys (columns df).
Proof.
  unfold SolarDataProcessor.impute_column.
  destruct (Dict.get col (columns df)) as [s |] eqn:G; [| reflexivity].
  destruct (0 <? Np.count_na (values s))%nat; [| reflexivity].
  simpl. apply keys_set_present. congruence.
Qed.

Lemma impute_fold_keys (cols : list string) :
  forall df report,
    Dict.keys (columns (fst (fold_left SolarDataProcessor.impute_column cols (df, report)))) =
    Dict.keys (columns df).
Proof.
  induction cols as [| col cols IH]; intros df report; [reflexivity |].
  cbn [fold_left].
  pose proof (impute_column_keys df report col) as H.
  destruct (SolarDataProcessor.impute_column (df, report) col) as [df1 report1].
  simpl in H. now rewrite IH.
Qed.

Lemma fillna_nth (m : float) (a : list float) (i : nat) (x : float) :
  nth_error a i = Some x -> Np.isna x = false -> nth_error (Np.fillna m a) i = Some x.
Proof.
  intros Hn Hx. unfold Np.fillna. rewrite nth_error_map, Hn. simpl. now rewrite Hx.
Qed.

(** X4.  [handle_missing_values] keeps the rows, the time stamps, the names
    and the order of the columns, the dtype and the length of every column and
    every entry that is not missing; a column that is not named is returned as
    it is. *)
Theorem handle_missing_values_keeps :
  forall (self : SolarDataProcessor.t) (df : DataFrame) (cols : option (list string)),
    let res := SolarDataProcessor.handle_missing_values self df cols in
    index (snd res) = index df /\
    stamps (snd res) = stamps df /\
    Dict.keys (columns (snd res)) = Dict.keys (columns df) /\
    forall c s,
      Dict.get c (columns df) = Some s ->
      exists s',
        Dict.get c (columns (snd res)) = Some s' /\
        dtype_of s' = dtype_of s /\
        List.length (values s') = List.length (values s) /\
        (forall i x,
           nth_error (values s) i = Some x -> Np.isna x = false ->
           nth_error (values s') i = Some x) /\
        (mem c (SolarDataProcessor.or_default cols
                  SolarDataProcessor.default_columns_to_impute) = false ->
         s' = s).
Proof.
  intros self df cols res.
  destruct (handle_missing_values_spec self df cols) as (Hi & Hs & report & _ & H).
  fold res in Hi, Hs, H.
  split; [exact Hi |]. split; [exact Hs |]. split.
  - unfold res, SolarDataProcessor.handle_missing_values.
    pose proof (impute_fold_keys
                  (SolarDataProcessor.or_default cols
                     SolarDataProcessor.default_columns_to_impute) df Dict.empty) as Hk.
    destruct (fold_left SolarDataProcessor.impute_column _ _) as [df' report'].
    exact Hk.
  - intros c s Hget. destruct (H c) as [Hc _]. rewrite Hget in Hc. simpl in Hc.
    eexists. split; [exact Hc |].
    destruct (mem c _).
    + repeat split; try discriminate.
      * simpl. apply length_fillna.
      * intros i x. apply fillna_nth.
    + repeat split; auto.
Qed.

Lemma impute_column_fixed (df : DataFrame) (report : Dict.t nat) (col : string) :
  (forall s, Dict.get col (columns df) = Some s -> imputed s = s) ->
  fst (SolarDataProcessor.impute_column (df, report) col) = df.
Proof.
  intros H. unfold SolarDataProcessor.impute_column.
  destruct (Dict.get col (columns df)) as [s |] eqn:G; [| reflexivity].
  destruct (0 <? Np.count_na (values s))%nat; [| reflexivity].
  simpl. unfold set_column. fold (imputed s). rewrite (H s eq_refl).
  rewrite set_same by exact G. now destruct df.
Qed.

Lemma impute_fold_fixed (cols : list string) (df : DataFrame) :
  (forall c s, In c cols -> Dict.get c (columns df) = Some s -> imputed s = s) ->
  forall report,
    fst (fold_left SolarDataProcessor.impute_column cols (df, report)) = df.
Proof.
  induction cols as [| col cols IH]; intros H report; [reflexivity |].
  cbn [fold_left].
  pose proof (impute_column_fixed df report col (fun s => H col s (or_introl eq_refl))) as H1.
  destruct (SolarDataProcessor.impute_column (df, report) col) as [df1 report1].
  simpl in H1. subst df1. apply IH. intros c s Hin. apply H. now right.
Qed.

Lemma mem_In (c : string) (l : list string) : mem c l = true <-> In c l.
Proof.
  unfold mem. rewrite existsb_exists. split.
  - intros [x [Hin Hx]]. apply String.eqb_eq in Hx. now subst.
  - intros H. exists c. split; [exact H | apply String.eqb_refl].
Qed.

(** X5.  [handle_missing_values] is idempotent: applied with the same
    columns to the table it has returned, it returns that table again. *)
Theorem handle_missing_values_idempotent :
  forall (self self' : SolarDataProcessor.t) (df : DataFrame)
         (cols : option (list string)),
    snd (SolarDataProcessor.handle_missing_values self'
           (snd (SolarDataProcessor.handle_missing_values self df cols)) cols) =
    snd (SolarDataProcessor.handle_missing_values self df cols).
Proof.
  intros self self' df cols.
  destruct (handle_missing_values_spec self df cols) as (_ & _ & report & _ & H).
  set (df1 := snd (SolarDataProcessor.handle_missing_values self df cols)) in *.
  unfold SolarDataProcessor.handle_missing_values at 1.
  assert (Hfixed : forall c s1,
             In c (SolarDataProcessor.or_default cols
                     SolarDataProcessor.default_columns_to_impute) ->
             Dict.get c (columns df1) = Some s1 -> imputed s1 = s1).
  { intros c s1 Hin Hget. destruct (H c) as [Hc _]. rewrite Hget in Hc.
    destruct (Dict.get c (columns df)) as [s |]; [| discriminate].
    simpl in Hc. rewrite (proj2 (mem_In c _) Hin) in Hc.
    injection Hc as ->. apply imputed_idem. }
  pose proof (impute_fold_fixed _ df1 Hfixed Dict.empty) as Hfix.
  destruct (fold_left SolarDataProcessor.impute_column _ (df1, Dict.empty))
    as [df2 report2].
  exact Hfix.
Qed.

(** ** Calendar features *)

Lemma season_of_month (m : Z) :
  (1 <= m <= 12)%Z ->
  SolarDataProcessor.season m = (if (m =? 12)%Z then 1 else m / 3 + 1)%Z.
Proof.
  intros H. unfold SolarDataProcessor.season.
  destruct (m =? 12)%Z eqn:E.
  - apply Z.eqb_eq in E. now subst.
  - apply Z.eqb_neq in E. rewrite Z.mod_small by lia.
    replace (m + 3)%Z with (m + 1 * 3)%Z by lia. now rewrite Z.div_add by lia.
Qed.

(** X6.  Without the time stamp column [process_timestamp] returns the
    table as it is.  With it, the table gets the columns Hour, Month,
    DayOfWeek and Season, one entry per row, and every other column, the rows
    and the time stamps stay.  The season of a row is 1 for the months 12, 1
    and 2, 2 for the months 3 to 5, 3 for 6 to 8 and 4 for 9 to 11; a row
    without a time stamp has NaN. *)
Theorem process_timestamp_features :
  forall (df : DataFrame) (timestamp_col : string),
    (Dict.get timestamp_col (stamps df) = None ->
     SolarDataProcessor.process_timestamp df timestamp_col = df) /\
    forall ts,
      Dict.get timestamp_col (stamps df) = Some ts ->
      let df' := SolarDataProcessor.process_timestamp df timestamp_col in
      index df' = index df /\
      stamps df' = stamps df /\
      Dict.get "Hour" (columns df') = Some (SolarDataProcessor.derived dt_hour ts) /\
      Dict.get "Month" (columns df') = Some (SolarDataProcessor.derived dt_month ts) /\
      Dict.get "DayOfWeek" (columns df')
        = Some (SolarDataProcessor.derived dt_dayofweek ts) /\
      (forall c,
         c <> "Hour" -> c <> "Month" -> c <> "DayOfWeek" -> c <> "Season" ->
         Dict.get c (columns df') = Dict.get c (columns df)) /\
      exists season_column,
        Dict.get "Season" (columns df') = Some season_column /\
        List.length (values season_column) = List.length ts /\
        (forall i d,
           nth_error ts i = Some (Some d) -> (1 <= dt_month d <= 12)%Z ->
           nth_error (values season_column) i =
             Some (Np.float_of_Z (if (dt_month d =? 12)%Z then 1 else dt_month d / 3 + 1))) /\
        (forall i,
           nth_error ts i = Some None -> nth_error (values season_column) i = Some nan).
Proof.
  intros df timestamp_col. unfold SolarDataProcessor.process_timestamp. split.
  - intros H. now rewrite H.
  - intros ts H. rewrite H. cbv zeta.
    split; [reflexivity |]. split; [reflexivity |]. unfold set_column. simpl.
    split; [| split; [| split; [| split]]].
    + now rewrite !get_set.
    + now rewrite !get_set.
    + now rewrite !get_set.
    + intros c H1 H2 H3 H4. rewrite !get_set.
      apply String.eqb_neq in H1, H2, H3, H4. now rewrite H1, H2, H3, H4.
    + eexists. split; [apply get_set_same |]. split; [| split].
      * simpl. apply length_map.
      * intros i d Hi Hm. simpl. rewrite nth_error_map, Hi. simpl.
        now rewrite season_of_month.
      * intros i Hi. simpl. now rewrite nth_error_map, Hi.
Qed.

Lemma process_timestamp_features_witness :
  exists season_column,
    Dict.get "Season"
      (columns (SolarDataProcessor.process_timestamp Examples.stamped "Timestamp"))
    = Some season_column /\
    values season_column = [1; 1].
Proof.
  destruct (proj2 (process_timestamp_features Examples.stamped "Timestamp") _ eq_refl)
    as (_ & _ & _ & _ & _ & _ & sc & H1 & _ & H2 & _).
  exists sc. split; [exact H1 |].
  vm_compute in H1. injection H1 as <-. reflexivity.
Defined.

(** ** The cleaning pipeline *)

Lemma handle_missing_values_self (self self2 : SolarDataProcessor.t) (df : DataFrame)
    (cols : option (list string)) :
  snd (SolarDataProcessor.handle_missing_values self df cols) =
  snd (SolarDataProcessor.handle_missing_values self2 df cols) /\
  SolarDataProcessor.missing_values
    (fst (SolarDataProcessor.handle_missing_values self df cols)) =
  SolarDataProcessor.missing_values
    (fst (SolarDataProcessor.handle_missing_values self2 df cols)) /\
  SolarDataProcessor.missing_values
    (fst (SolarDataProcessor.handle_missing_values self df cols)) <> None.
Proof.
  unfold SolarDataProcessor.handle_missing_values.
  destruct (fold_left SolarDataProcessor.impute_column _ _) as [df' report].
  simpl. repeat split. discriminate.
Qed.

(** X7.  [clean_solar_data] returns nothing, and leaves the report alone,
    when the file could not be loaded.  When it returns a table, the table has
    at most the rows of the loaded one, the report holds all three of its
    entries, the outliers are counted on the imputed table, the recorded
    number of removed rows is the difference of the row counts, and neither
    the table nor the report depends on what the report held before. *)
Theorem clean_solar_data_report :
  (forall self, SolarDataProcessor.clean_solar_data self None = Ok (self, None)) /\
  forall (self self' : SolarDataProcessor.t) (df : DataFrame) (out : option DataFrame),
    SolarDataProcessor.clean_solar_data self (Some df) = Ok (self', out) ->
    exists df',
      out = Some df' /\
      (nrows df' <= nrows df)%nat /\
      SolarDataProcessor.missing_values self' <> None /\
      SolarDataProcessor.outliers_detected self' =
        Some (SolarDataProcessor.detect_outliers
                (snd (SolarDataProcessor.handle_missing_values self df None))
                None SolarDataProcessor.default_z_threshold) /\
      SolarDataProcessor.outliers_removed self' =
        Some (Z.of_nat (nrows df) - Z.of_nat (nrows df'))%Z /\
      forall self2,
        SolarDataProcessor.clean_solar_data self2 (Some df) = Ok (self', out).
Proof.
  split; [reflexivity |].
  intros self self' df out. unfold SolarDataProcessor.clean_solar_data.
  intros H.
  assert (Hany : forall self2,
             (let (self1, df1) :=
                SolarDataProcessor.handle_missing_values self2 df None in
              r <- SolarDataProcessor.remove_outliers
                     {| SolarDataProcessor.missing_values :=
                          SolarDataProcessor.missing_values self1;
                        SolarDataProcessor.outliers_detected :=
                          Some (SolarDataProcessor.detect_outliers df1 None
                                  SolarDataProcessor.default_z_threshold);
                        SolarDataProcessor.outliers_removed :=
                          SolarDataProcessor.outliers_removed self1 |}
                     df1 None SolarDataProcessor.default_z_threshold ;;
              Ok (fst r, Some (SolarDataProcessor.process_timestamp (snd r) "Timestamp")))
             = Ok (self', out)).
  { intros self2.
    destruct (handle_missing_values_self self self2 df None) as (Hdf & Hmv & _).
    destruct (SolarDataProcessor.handle_missing_values self df None) as [s1 d1].
    destruct (SolarDataProcessor.handle_missing_values self2 df None) as [s2 d2].
    simpl in Hdf, Hmv. subst d2. rewrite <- Hmv.
    unfold SolarDataProcessor.remove_outliers in *.
    destruct (SolarDataProcessor.remove_loop _ _ d1) as [d3 | e]; simpl in *;
      [exact H | discriminate]. }
  pose proof (handle_missing_values_nrows self df None) as Hrows.
  destruct (handle_missing_values_self self self df None) as (_ & _ & Hmv).
  destruct (SolarDataProcessor.handle_missing_values self df None) as [self1 df1].
  simpl in Hrows, Hmv.
  destruct (SolarDataProcessor.remove_outliers _ df1 None _) as [[self3 df3] | e] eqn:R;
    simpl in H; [| discriminate].
  injection H as <- <-.
  pose proof (remove_outliers_nrows _ _ _ _ _ _ R) as Hle.
  unfold SolarDataProcessor.remove_outliers in R.
  destruct (SolarDataProcessor.remove_loop _ _ df1) as [d3 | e]; simpl in R;
    [| discriminate].
  injection R as <- <-.
  eexists. split; [reflexivity |].
  rewrite process_timestamp_nrows. simpl.
  split; [lia |]. split; [exact Hmv |]. split; [reflexivity |].
  split; [now rewrite Hrows |]. exact Hany.
Qed.

Lemma clean_solar_data_report_witness :
  exists df',
    (nrows df' <= nrows Examples.stamped)%nat /\
    Dict.keys (columns df') = ["GHI"; "Hour"; "Month"; "DayOfWeek"; "Season"].
Proof.
  destruct (proj2 clean_solar_data_report SolarDataProcessor.init
              {| SolarDataProcessor.missing_values := Some [];
                 SolarDataProcessor.outliers_detected := Some [("GHI", 0%nat)];
                 SolarDataProcessor.outliers_removed := Some 0%Z |}
              Examples.stamped
              (Some (SolarDataProcessor.process_timestamp Examples.stamped "Timestamp"))
              eq_refl)
    as (df' & Hout & Hle & _).
  exists df'. split; [exact Hle |]. injection Hout as <-. reflexivity.
Defined.

(** X8.  The steps of [clean_solar_data] before the time stamps are
    read do not raise on a loaded table that is well formed, whose columns
    ModA, ModB and WSgust (checked for outliers, not imputed) have no missing
    value, and whose columns GHI, DNI, DHI, WS and Tamb (imputed, then
    checked) have no missing value or a median that is a number:
    [remove_outliers] returns on the imputed table, with a well-formed table
    of at most as many rows and no missing value in a checked column.  What
    [clean_solar_data] returns for the table, when it returns, is
    [process_timestamp] of that table; whether it returns then rests with the
    reading of the time stamps alone. *)
Theorem cleaning_steps_return :
  forall (self : SolarDataProcessor.t) (df : DataFrame),
    wf df ->
    (forall c s,
       In c ["ModA"; "ModB"; "WSgust"] -> Dict.get c (columns df) = Some s ->
       Np.count_na (values s) = 0%nat) ->
    (forall c s,
       In c ["GHI"; "DNI"; "DHI"; "WS"; "Tamb"] -> Dict.get c (columns df) = Some s ->
       Np.count_na (values s) = 0%nat \/ Np.isna (Np.median (values s)) = false) ->
    let imputed_table := snd (SolarDataProcessor.handle_missing_values self df None) in
    no_missing SolarDataProcessor.default_outlier_columns imputed_table /\
    forall self1,
    exists self' df',
      SolarDataProcessor.remove_outliers self1 imputed_table None
        SolarDataProcessor.default_z_threshold = Ok (self', df') /\
      wf df' /\
      (nrows df' <= nrows df)%nat /\
      no_missing SolarDataProcessor.default_outlier_columns df' /\
      forall self'' out,
        SolarDataProcessor.clean_solar_data self (Some df) = Ok (self'', out) ->
        out = Some (SolarDataProcessor.process_timestamp df' "Timestamp").
Proof.
  intros self df Hwf Hchecked Himputed imputed_table. subst imputed_table.
  pose proof (wf_handle_missing_values self df None Hwf) as Hwf1.
  pose proof (handle_missing_values_nrows self df None) as Hrows.
  destruct (handle_missing_values_spec self df None) as (_ & _ & report & _ & H).
  unfold SolarDataProcessor.clean_solar_data.
  destruct (SolarDataProcessor.handle_missing_values self df None) as [self1 df1].
  simpl in Hwf1, H, Hrows. simpl snd.
  assert (Hclean : no_missing SolarDataProcessor.default_outlier_columns df1).
  { intros c s1 Hin Hget. destruct (H c) as [Hc _]. rewrite Hget in Hc.
    destruct (Dict.get c (columns df)) as [s |] eqn:G; [| discriminate].
    simpl in Hc, Hin.
    assert (Hs : Np.count_na (values s) = 0%nat \/
                 Np.isna (Np.median (values s)) = false ->
                 Np.count_na (values (imputed s)) = 0%nat).
    { intros [H0 | H0]; [now rewrite imputed_clean | now apply count_na_fillna]. }
    repeat (destruct Hin as [<- | Hin];
            [simpl in Hc; injection Hc as ->;
             match type of G with
             | Dict.get ?c0 _ = _ =>
                 first [ apply Hs, (Himputed c0 s); [simpl; tauto | exact G]
                       | apply (Hchecked c0 s); [simpl; tauto | exact G] ]
             end |]).
    destruct Hin. }
  split; [exact Hclean |]. intros self2.
  destruct (remove_loop_clean SolarDataProcessor.default_z_threshold
              SolarDataProcessor.default_outlier_columns
              SolarDataProcessor.default_outlier_columns df1 Hwf1 Hclean (incl_refl _))
    as (df2 & Hok & Hwf2 & Hclean2).
  unfold SolarDataProcessor.remove_outliers. simpl SolarDataProcessor.or_default.
  rewrite Hok. cbn [bind]. eexists. exists df2. split; [reflexivity |].
  split; [exact Hwf2 |].
  split; [rewrite <- Hrows; exact (remove_loop_nrows _ _ df1 df2 Hok) |].
  split; [exact Hclean2 |].
  intros self'' out. cbn [bind fst snd]. now intros [= _ <-].
Qed.

Lemma cleaning_steps_return_witness :
  exists self' df',
    SolarDataProcessor.remove_outliers SolarDataProcessor.init
      (snd (SolarDataProcessor.handle_missing_values SolarDataProcessor.init
              Examples.two_columns None))
      None SolarDataProcessor.default_z_threshold = Ok (self', df') /\
    wf df'.
Proof.
  destruct (proj2 (cleaning_steps_return SolarDataProcessor.init Examples.two_columns
                     ltac:(apply wfb_wf; reflexivity)
                     ltac:(intros c s Hin Hget; simpl in Hin;
                           repeat (destruct Hin as [<- | Hin]; [discriminate Hget |]);
                           destruct Hin)
                     ltac:(intros c s Hin Hget; simpl in Hin;
                           repeat (destruct Hin as [<- | Hin];
                                   [vm_compute in Hget; try discriminate Hget;
                                    injection Hget as <-;
                                    first [left; reflexivity | right; reflexivity] |]);
                           destruct Hin))
              SolarDataProcessor.init)
    as (self' & df' & H1 & H2 & _).
  exists self', df'. split; [exact H1 | exact H2].
Defined.

(** ** Solar potential metrics *)

Lemma filter_length_le {A : Type} (p : A -> bool) (l : list A) :
  (List.length (filter p l) <= List.length l)%nat.
Proof.
  induction l as [| x l IH]; simpl; [lia |]. destruct (p x); simpl; lia.
Qed.

Lemma filter_length_impl {A : Type} (p q : A -> bool) (l : list A) :
  (forall x, p x = true -> q x = true) ->
  (List.length (filter p l) <= List.length (filter q l))%nat.
Proof.
  intros H. induction l as [| x l IH]; simpl; [lia |].
  destruct (p x) eqn:P.
  - rewrite (H x P). simpl. lia.
  - destruct (q x); simpl; lia.
Qed.

(** X9.  In the metrics of a table the high-potential hours (GHI above 400)
    are at most the operational hours (GHI above 50), which are at most the
    number of non-missing GHI values, itself at most the number of rows. *)
Theorem metrics_hours_ordered :
  forall (df : DataFrame) (s : Series) (m : SolarAnalyzer.Metrics),
    wf df ->
    Dict.get "GHI" (columns df) = Some s ->
    SolarAnalyzer.calculate_solar_potential_metrics df = Some m ->
    (SolarAnalyzer.high_potential_hours m <= SolarAnalyzer.operational_hours m)%nat /\
    (SolarAnalyzer.operational_hours m + Np.count_na (values s) <= nrows df)%nat.
Proof.
  intros df s m Hwf Hget Hm.
  unfold SolarAnalyzer.calculate_solar_potential_metrics in Hm. rewrite Hget in Hm.
  injection Hm as <-. simpl. unfold SolarAnalyzer.hours_above. split.
  - apply filter_length_impl. intros x Hx.
    apply (ltb_trans 50 400 x); [reflexivity | exact Hx].
  - pose proof (filter_length_le (fun x => 50 <? x) (Np.dropna (values s))) as H1.
    pose proof (length_dropna (values s)) as H2.
    rewrite <- (wf_column df "GHI" s Hwf Hget). lia.
Qed.

Lemma metrics_hours_ordered_witness :
  exists m,
    SolarAnalyzer.calculate_solar_potential_metrics Examples.bright = Some m /\
    (SolarAnalyzer.high_potential_hours m <= SolarAnalyzer.operational_hours m)%nat /\
    (SolarAnalyzer.operational_hours m <= 2)%nat.
Proof.
  eexists. split; [reflexivity |].
  destruct (metrics_hours_ordered Examples.bright (Examples.floats [500; 450]) _
              (wfb_wf Examples.bright eq_refl) eq_refl eq_refl) as [H1 H2].
  split; [exact H1 |]. vm_compute in H2 |- *. exact H2.
Defined.

(** ** The ranking and the insights *)

Lemma ranked_keys_filter (d : Dict.t DataFrame) :
  Dict.keys (ranked d) =
  Dict.keys (filter (fun item => Dict.contains "GHI" (columns (snd item))) d).
Proof.
  unfold Dict.keys, ranked, Dict.contains,
    SolarAnalyzer.calculate_solar_potential_metrics.
  induction d as [| [k df] d IH]; simpl; [reflexivity |].
  destruct (Dict.get "GHI" (columns df)); simpl; now rewrite IH.
Qed.

(** X10.  The ranking holds exactly the countries of the input whose table
    has a GHI column, each once: no country is added, none of them is
    dropped, whatever the scores are. *)
Theorem rank_countries_covers :
  forall d : Dict.t DataFrame,
    NoDup (Dict.keys d) ->
    NoDup (Dict.keys (SolarAnalyzer.rank_countries d)) /\
    Permutation
      (Dict.keys (filter (fun item => Dict.contains "GHI" (columns (snd item))) d))
      (Dict.keys (SolarAnalyzer.rank_countries d)) /\
    List.length (SolarAnalyzer.rank_countries d) =
      List.length (filter (fun item => Dict.contains "GHI" (columns (snd item))) d).
Proof.
  intros d Hnd. rewrite rank_countries_eq by exact Hnd.
  assert (Hp : Permutation (Dict.keys (ranked d))
                 (Dict.keys (SolarAnalyzer.sorted_reverse score (ranked d))))
    by (apply Permutation_map, sorted_reverse_Permutation).
  split; [| split].
  - eapply Permutation_NoDup; [exact Hp | now apply ranked_NoDup].
  - now rewrite <- ranked_keys_filter.
  - rewrite <- (Permutation_length (sorted_reverse_Permutation score (ranked d))).
    rewrite <- (length_map fst (ranked d)), <- (length_map fst (filter _ d)).
    f_equal. apply ranked_keys_filter.
Qed.

Lemma rank_countries_covers_witness :
  List.length (SolarAnalyzer.rank_countries Examples.tied_countries) = 3%nat.
Proof.
  refine (proj2 (proj2 (rank_countries_covers Examples.tied_countries _))).
  repeat constructor; simpl; intuition discriminate.
Defined.

Lemma leb_refl (x : float) : is_nan x = false -> (x <=? x) = true.
Proof.
  intros H. apply is_nan_false in H. rewrite leb_spec. unfold SFleb.
  now rewrite SFcompare_refl.
Qed.

Lemma Sorted_head_max {A : Type} (key : A -> float) (x : A) (l : list A) :
  Sorted (ge_key key) (x :: l) -> is_nan (key x) = false ->
  forall y, In y (x :: l) -> (key y <=? key x) = true.
Proof.
  intros Hs Hx.
  assert (Ht : Relations_1.Transitive (ge_key key)).
  { intros a b c Hab Hbc. unfold ge_key in *. now apply (leb_trans _ (key b)). }
  apply (Sorted_StronglySorted Ht) in Hs. inversion Hs as [| ? ? _ Hall]; subst.
  intros y [<- | Hy]; [now apply leb_refl |].
  rewrite Forall_forall in Hall. exact (Hall y Hy).
Qed.

Lemma country_metrics_fold (l : Dict.t DataFrame) (acc : Dict.t (option SolarAnalyzer.Metrics)) :
  NoDup (Dict.keys l) ->
  (forall k, In k (Dict.keys l) -> ~ In k (Dict.keys acc)) ->
  fold_left (fun d item =>
               Dict.set (fst item)
                 (SolarAnalyzer.calculate_solar_potential_metrics (snd item)) d) l acc =
  (acc ++ map (fun item =>
                 (fst item, SolarAnalyzer.calculate_solar_potential_metrics (snd item))) l)%list.
Proof.
  revert acc. induction l as [| [k df] l IH]; intros acc Hnd Hfresh; simpl.
  - now rewrite app_nil_r.
  - inversion Hnd as [| ? ? Hnotin Hnd']; subst.
    rewrite set_fresh by (apply Hfresh; now left).
    rewrite IH; [now rewrite <- app_assoc | exact Hnd' |].
    intros k' Hin. unfold Dict.keys. rewrite map_app, in_app_iff. simpl.
    intros [H | [H | []]].
    + apply (Hfresh k'); [now right | exact H].
    + subst k'. now apply Hnotin.
Qed.

Lemma generate_insights_report_inv
    (f_oneway kruskal : list (list float) -> result (float * float))
    (d : Dict.t DataFrame) (ins : SolarAnalyzer.Insights) :
  SolarAnalyzer.generate_insights_report f_oneway kruskal d = Ok ins ->
  exists tests,
    SolarAnalyzer.compare_countries_statistical f_oneway kruskal d "GHI" = Ok tests /\
    SolarAnalyzer.statistical_tests ins = tests /\
    SolarAnalyzer.rankings ins = SolarAnalyzer.rank_countries d /\
    SolarAnalyzer.top_country ins =
      match Dict.keys (SolarAnalyzer.rank_countries d) with
      | k :: _ => Some k
      | [] => None
      end /\
    SolarAnalyzer.statistical_significance ins =
      match tests with
      | Some c => SolarAnalyzer.significant (SolarAnalyzer.anova c)
      | None => false
      end /\
    SolarAnalyzer.country_metrics ins =
      fold_left (fun acc item =>
                   Dict.set (fst item)
                     (SolarAnalyzer.calculate_solar_potential_metrics (snd item)) acc)
        d Dict.empty.
Proof.
  unfold SolarAnalyzer.generate_insights_report.
  destruct (SolarAnalyzer.compare_countries_statistical f_oneway kruskal d "GHI")
    as [tests | e]; simpl; [| discriminate].
  intros [= <-]. exists tests. repeat split.
Qed.

Lemma ranked_nil (d : Dict.t DataFrame) :
  ranked d = [] <->
  forall country df, In (country, df) d -> Dict.get "GHI" (columns df) = None.
Proof.
  split.
  - intros H country df Hin.
    destruct (SolarAnalyzer.calculate_solar_potential_metrics df) as [m |] eqn:E.
    + assert (Hr : In (country, ranking_of m) (ranked d))
        by (apply ranked_In; now exists df, m).
      rewrite H in Hr. destruct Hr.
    + now apply metrics_None.
  - intros H. destruct (ranked d) as [| [k r] l] eqn:E; [reflexivity |].
    assert (Hr : In (k, r) (ranked d)) by (rewrite E; now left).
    apply ranked_In in Hr. destruct Hr as (df & m & Hin & Hm & _).
    apply H, metrics_None in Hin. congruence.
Qed.

Lemma leb_not_eqb_ltb (x y : float) :
  (x <=? y) = true -> (x =? y) = false -> (x <? y) = true.
Proof.
  rewrite leb_spec, eqb_spec, ltb_spec. unfold SFleb, SFeqb, SFltb.
  destruct (SFcompare (Prim2SF x) (Prim2SF y)) as [[ | | ] | ]; congruence.
Qed.

Lemma filter_cons_inv {A : Type} (p : A -> bool) (l l' : list A) (x : A) :
  filter p l = x :: l' ->
  exists before after,
    l = (before ++ x :: after)%list /\ Forall (fun y => p y = false) before.
Proof.
  induction l as [| y l IH]; simpl; [discriminate |].
  destruct (p y) eqn:E.
  - intros [= -> _]. exists [], l. split; [reflexivity | constructor].
  - intros H. destruct (IH H) as (before & after & -> & Hb).
    exists (y :: before), after. split; [reflexivity | now constructor].
Qed.

(** X11.  The top country of the insights is the first country of the
    ranking, and the ranking is that of [rank_countries].  There is none
    exactly when no table of the input has a GHI column.  When every score is
    a number, no ranked country has a higher composite score than the top
    country, and the top country is the first in the order of the input to
    reach that score: every country with a GHI column that comes before it in
    the input has a strictly lower score. *)
Theorem top_country_is_best :
  forall (f_oneway kruskal : list (list float) -> result (float * float))
         (d : Dict.t DataFrame) (ins : SolarAnalyzer.Insights),
    NoDup (Dict.keys d) ->
    SolarAnalyzer.generate_insights_report f_oneway kruskal d = Ok ins ->
    SolarAnalyzer.rankings ins = SolarAnalyzer.rank_countries d /\
    SolarAnalyzer.top_country ins =
      match Dict.keys (SolarAnalyzer.rankings ins) with
      | k :: _ => Some k
      | [] => None
      end /\
    (SolarAnalyzer.top_country ins = None <->
     forall country df, In (country, df) d -> Dict.get "GHI" (columns df) = None) /\
    (Forall (fun x => is_nan (score x) = false) (ranked d) ->
     forall top,
       SolarAnalyzer.top_country ins = Some top ->
       exists r rest,
         SolarAnalyzer.rankings ins = (top, r) :: rest /\
         Dict.get top (SolarAnalyzer.rankings ins) = Some r /\
         (forall c' r',
            Dict.get c' (SolarAnalyzer.rankings ins) = Some r' ->
            (SolarAnalyzer.composite_score r' <=? SolarAnalyzer.composite_score r) = true) /\
         exists before after,
           ranked d = (before ++ (top, r) :: after)%list /\
           Forall (fun x => (score x <? SolarAnalyzer.composite_score r) = true) before).
Proof.
  intros f_oneway kruskal d ins Hnd Hgen.
  destruct (generate_insights_report_inv _ _ _ _ Hgen) as (tests & _ & _ & Hr & Htop & _).
  split; [exact Hr |]. split; [now rewrite Hr |].
  rewrite Htop, Hr, rank_countries_eq by exact Hnd.
  pose proof (sorted_reverse_Permutation score (ranked d)) as Hp.
  split.
  - rewrite <- ranked_nil.
    destruct (SolarAnalyzer.sorted_reverse score (ranked d)) as [| [k r] l] eqn:E; simpl.
    + apply Permutation_sym, Permutation_nil in Hp. split; auto.
    + split; [discriminate |]. intros H. rewrite H in Hp.
      apply Permutation_nil in Hp. discriminate.
  - intros Hnan top Htop'.
    pose proof (sorted_reverse_Sorted score (ranked d) Hnan) as Hs.
    pose proof (sorted_reverse_filter score) as Hf.
    destruct (SolarAnalyzer.sorted_reverse score (ranked d)) as [| [k r] l] eqn:E;
      simpl in Htop'; [discriminate |].
    injection Htop' as <-.
    assert (Hk : is_nan (score (k, r)) = false).
    { rewrite Forall_forall in Hnan. apply Hnan.
      eapply Permutation_in; [apply Permutation_sym; exact Hp | now left]. }
    assert (Hmax : forall y, In y (ranked d) -> (score y <=? score (k, r)) = true).
    { intros y Hy. apply (Sorted_head_max score (k, r) l Hs Hk).
      eapply Permutation_in; [exact Hp | exact Hy]. }
    exists r, l. split; [reflexivity |].
    split; [simpl; now rewrite String.eqb_refl |]. split.
    + intros c' r' Hget. apply get_Some_In in Hget.
      change ((score (c', r') <=? score (k, r)) = true).
      apply Hmax. eapply Permutation_in; [apply Permutation_sym; exact Hp | exact Hget].
    + specialize (Hf (score (k, r)) (ranked d)). rewrite E in Hf. simpl in Hf.
      rewrite (float_eqb_refl _ Hk) in Hf. symmetry in Hf.
      destruct (filter_cons_inv _ _ _ _ Hf) as (before & after & Hsplit & Hb).
      exists before, after. split; [exact Hsplit |].
      rewrite Forall_forall in *. intros y Hy.
      change ((score y <? score (k, r)) = true).
      apply leb_not_eqb_ltb; [| now apply Hb].
      apply Hmax. rewrite Hsplit. apply in_or_app. now left.
Qed.

Lemma top_country_is_best_witness :
  exists ins,
    SolarAnalyzer.generate_insights_report Examples.flat_test Examples.flat_test
      Examples.tied_countries = Ok ins /\
    SolarAnalyzer.top_country ins = Some "Benin" /\
    exists r,
      Dict.get "Benin" (SolarAnalyzer.rankings ins) = Some r /\
      forall c' r',
        Dict.get c' (SolarAnalyzer.rankings ins) = Some r' ->
        (SolarAnalyzer.composite_score r' <=? SolarAnalyzer.composite_score r) = true.
Proof.
  assert (Hgen : exists ins,
             SolarAnalyzer.generate_insights_report Examples.flat_test Examples.flat_test
               Examples.tied_countries = Ok ins /\
             SolarAnalyzer.top_country ins = Some "Benin")
    by (eexists; split; vm_compute; reflexivity).
  destruct Hgen as (ins & Hgen & Htop).
  exists ins. split; [exact Hgen |]. split; [exact Htop |].
  destruct (proj2 (proj2 (proj2 (top_country_is_best Examples.flat_test Examples.flat_test
                                   Examples.tied_countries ins
                                   ltac:(repeat constructor; simpl; intuition discriminate)
                                   Hgen)))
              ltac:(vm_compute; repeat constructor) "Benin" Htop)
    as (r & rest & _ & Hget & Hmax & _).
  exists r. split; [exact Hget | exact Hmax].
Defined.

(** X12.  The insights hold the metrics of every country of the input, in
    the order of the input, with the empty result for a country without a GHI
    column; the ranking is that of [rank_countries].  When fewer than two
    countries have a GHI column the tests are not run: the report is returned
    whatever the tests would do, without test results and with the
    significance false. *)
Theorem insights_cover_input :
  forall (f_oneway kruskal : list (list float) -> result (float * float))
         (d : Dict.t DataFrame),
    NoDup (Dict.keys d) ->
    (forall ins,
       SolarAnalyzer.generate_insights_report f_oneway kruskal d = Ok ins ->
       SolarAnalyzer.country_metrics ins =
         map (fun item =>
                (fst item, SolarAnalyzer.calculate_solar_potential_metrics (snd item))) d /\
       SolarAnalyzer.rankings ins = SolarAnalyzer.rank_countries d) /\
    ((List.length (filter (fun item => Dict.contains "GHI" (columns (snd item))) d) < 2)%nat ->
     exists ins,
       SolarAnalyzer.generate_insights_report f_oneway kruskal d = Ok ins /\
       SolarAnalyzer.statistical_tests ins = None /\
       SolarAnalyzer.statistical_significance ins = false).
Proof.
  intros f_oneway kruskal d Hnd. split.
  - intros ins Hgen.
    destruct (generate_insights_report_inv _ _ _ _ Hgen) as (tests & _ & _ & Hr & _ & _ & Hm).
    split; [| exact Hr]. rewrite Hm.
    now rewrite country_metrics_fold by (auto; intros ? ? []).
  - intros Hfew. unfold SolarAnalyzer.generate_insights_report.
    rewrite (compare_countries_few f_oneway kruskal d "GHI" Hnd Hfew). simpl.
    eexists. split; [reflexivity |]. split; reflexivity.
Qed.

Lemma insights_cover_input_witness :
  exists ins,
    SolarAnalyzer.generate_insights_report Examples.flat_test Examples.flat_test
      [("Benin", Examples.steady); ("Togo", Examples.without_ghi)] = Ok ins /\
    SolarAnalyzer.statistical_tests ins = None /\
    SolarAnalyzer.statistical_significance ins = false.
Proof.
  refine (proj2 (insights_cover_input Examples.flat_test Examples.flat_test
                   [("Benin", Examples.steady); ("Togo", Examples.without_ghi)] _) _).
  - repeat constructor; simpl; intuition discriminate.
  - simpl. lia.
Defined.

Lemma samples_NoDup (metric : string) (d : Dict.t DataFrame) :
  NoDup (Dict.keys d) -> NoDup (Dict.keys (samples metric d)).
Proof.
  induction d as [| [k df] d IH]; simpl; intros Hnd; [constructor |].
  inversion Hnd as [| ? ? Hnotin Hnd']; subst.
  destruct (Dict.get metric (columns df)); simpl; auto.
  constructor; auto.
  intros Hin. apply Hnotin. now apply (samples_keys metric).
Qed.

(** X13.  A comparison that returns test results names at least two
    countries, each once, in the order of the input; the sample size of a
    country is the number of non-missing values of its metric column; and a
    test whose p-value is NaN is reported as not significant. *)
Theorem compare_countries_result :
  forall (f_oneway kruskal : list (list float) -> result (float * float))
         (d : Dict.t DataFrame) (metric : string) (c : SolarAnalyzer.Comparison),
    NoDup (Dict.keys d) ->
    SolarAnalyzer.compare_countries_statistical f_oneway kruskal d metric = Ok (Some c) ->
    (2 <= List.length (SolarAnalyzer.countries c))%nat /\
    NoDup (SolarAnalyzer.countries c) /\
    SolarAnalyzer.countries c =
      Dict.keys (filter (fun item => Dict.contains metric (columns (snd item))) d) /\
    Dict.keys (SolarAnalyzer.sample_sizes c) = SolarAnalyzer.countries c /\
    (forall country n,
       Dict.get country (SolarAnalyzer.sample_sizes c) = Some n ->
       exists df s,
         In (country, df) d /\ Dict.get metric (columns df) = Some s /\
         (n + Np.count_na (values s) = List.length (values s))%nat) /\
    (is_nan (SolarAnalyzer.p_value (SolarAnalyzer.anova c)) = true ->
     SolarAnalyzer.significant (SolarAnalyzer.anova c) = false) /\
    (is_nan (SolarAnalyzer.p_value (SolarAnalyzer.kruskal_wallis c)) = true ->
     SolarAnalyzer.significant (SolarAnalyzer.kruskal_wallis c) = false).
Proof.
  intros f_oneway kruskal d metric c Hnd.
  unfold SolarAnalyzer.compare_countries_statistical.
  rewrite collect_fold by (auto; intros ? ? []). simpl app.
  destruct (List.length (samples metric d) <? 2)%nat eqn:L; [discriminate |].
  apply Nat.ltb_ge in L.
  destruct (f_oneway _) as [a | e]; simpl; [| discriminate].
  destruct (kruskal _) as [b | e]; simpl; [| discriminate].
  intros [= <-]. simpl.
  assert (Hkeys : Dict.keys (samples metric d) =
                  Dict.keys (filter (fun item => Dict.contains metric (columns (snd item))) d)).
  { unfold Dict.keys, samples, Dict.contains.
    clear. induction d as [| [k df] d IH]; simpl; [reflexivity |].
    destruct (Dict.get metric (columns df)); simpl; now rewrite IH. }
  split; [unfold Dict.keys; now rewrite length_map |].
  split; [now apply samples_NoDup |]. split; [exact Hkeys |].
  split; [unfold Dict.keys; now rewrite map_map |].
  split; [| split].
  - intros country n Hget.
    rewrite (get_map_values (fun a : list float => List.length a)) in Hget.
    destruct (Dict.get country (samples metric d)) as [smp |] eqn:G; [| discriminate].
    injection Hget as <-. apply get_Some_In in G. unfold samples in G.
    apply in_flat_map in G. destruct G as [[k df] [Hin G]]. simpl in G.
    destruct (Dict.get metric (columns df)) as [s |] eqn:E; [| destruct G].
    destruct G as [G | []]. injection G as -> <-.
    exists df, s. split; [exact Hin |]. split; [exact E |]. apply length_dropna.
  - intros H. apply is_nan_eq in H. rewrite H. apply ltb_nan_l.
  - intros H. apply is_nan_eq in H. rewrite H. apply ltb_nan_l.
Qed.

Lemma compare_countries_result_witness :
  exists c,
    SolarAnalyzer.compare_countries_statistical Examples.flat_test Examples.flat_test
      Examples.tied_countries "GHI" = Ok (Some c) /\
    SolarAnalyzer.countries c = ["Togo"; "Benin"; "Niger"].
Proof.
  eexists. split; [vm_compute; reflexivity |].
  refine (proj1 (proj2 (proj2 (compare_countries_result Examples.flat_test
                                 Examples.flat_test Examples.tied_countries "GHI" _ _ _)))).
  - repeat constructor; simpl; intuition discriminate.
  - vm_compute. reflexivity.
Defined.

(** ** Summary statistics and correlations *)

(** X14.  Without a country name [calculate_summary_statistics] returns the
    summary of any table.  With one it reads [df['GHI']] and [df['Tamb']] for
    the printed lines: it raises [KeyError] for the first of the two that the
    table lacks, and returns the summary when both are there.  The count of a
    column in the summary is the number of its non-missing values. *)
Theorem calculate_summary_statistics_outcome :
  forall (df : DataFrame) (country_name : option string),
    (exists summary,
       SolarAnalyzer.calculate_summary_statistics df country_name =
       (if SolarAnalyzer.truthy country_name
           && negb (Dict.contains "GHI" (columns df))
        then Failed (KeyError "GHI")
        else if SolarAnalyzer.truthy country_name
                && negb (Dict.contains "Tamb" (columns df))
        then Failed (KeyError "Tamb")
        else Done summary) /\
       forall c s,
         Dict.get c (columns df) = Some s ->
         exists n,
           Dict.get c (SolarAnalyzer.summary_count summary) = Some n /\
           (n + Np.count_na (values s) = List.length (values s))%nat /\
           Dict.get c (SolarAnalyzer.summary_median summary)
             = Some (Np.median (values s))).
Proof.
  intros df country_name. eexists. split.
  - unfold SolarAnalyzer.calculate_summary_statistics, SolarAnalyzer.getitem, Dict.contains.
    destruct (SolarAnalyzer.truthy country_name); simpl; [| reflexivity].
    destruct (Dict.get "GHI" (columns df)); simpl; [| reflexivity].
    destruct (Dict.get "Tamb" (columns df)); simpl; reflexivity.
  - intros c s Hget. simpl. unfold SolarAnalyzer.per_column.
    rewrite (get_map_values (fun s0 => List.length (Np.dropna (values s0)))).
    rewrite (get_map_values (fun s0 => Np.median (Np.dropna (values s0)))).
    rewrite Hget. simpl. eexists. split; [reflexivity |].
    split; [apply length_dropna |].
    f_equal. unfold Np.median.
    assert (Hdd : Np.dropna (Np.dropna (values s)) = Np.dropna (values s)).
    { apply dropna_clean. unfold Np.count_na, Np.dropna.
      induction (values s) as [| x a IH]; simpl; [reflexivity |].
      destruct (Np.isna x) eqn:E; simpl; [exact IH | now rewrite E]. }
    now rewrite Hdd.
Qed.

Lemma get_set_inv {V : Type} (k k' : string) (v v' : V) (d : Dict.t V) :
  Dict.get k (Dict.set k' v' d) = Some v ->
  (k = k' /\ v = v') \/ (k <> k' /\ Dict.get k d = Some v).
Proof.
  rewrite get_set. destruct (String.eqb k k') eqn:E.
  - apply String.eqb_eq in E. intros [= <-]. now left.
  - apply String.eqb_neq in E. intros H. now right.
Qed.

Lemma leb_abs_not_nan (t r : float) : (t <=? PrimFloat.abs r) = true -> is_nan r = false.
Proof.
  intros H. destruct (is_nan r) eqn:E; [| reflexivity].
  apply is_nan_eq in E. subst r. change (PrimFloat.abs nan) with nan in H.
  now rewrite leb_nan_r in H.
Qed.

(** X15.  Every correlation [analyze_correlations] reports belongs to a
    column other than the target, is taken from the correlation series of the
    table, is at least the threshold in absolute value, and is a number: an
    undefined (NaN) correlation is never reported.  Nothing is reported when
    the table lacks the target column. *)
Theorem analyze_correlations_reports :
  forall (corr : DataFrame -> string -> Dict.t float) (df : DataFrame)
         (target_column : string) (threshold : float),
    (Dict.get target_column (columns df) = None ->
     SolarAnalyzer.analyze_correlations corr df target_column threshold = []) /\
    forall col r,
      Dict.get col (SolarAnalyzer.analyze_correlations corr df target_column threshold)
        = Some r ->
      col <> target_column /\
      In (col, r) (corr df target_column) /\
      (threshold <=? PrimFloat.abs r) = true /\
      is_nan r = false.
Proof.
  intros corr df target_column threshold.
  unfold SolarAnalyzer.analyze_correlations, Dict.contains. split.
  - intros H. now rewrite H.
  - destruct (Dict.get target_column (columns df)); simpl; [| discriminate].
    assert (Hfold : forall l acc col r,
               (forall col r, Dict.get col acc = Some r ->
                  col <> target_column /\ In (col, r) (corr df target_column) /\
                  (threshold <=? PrimFloat.abs r) = true) ->
               (forall x, In x l -> In x (corr df target_column)) ->
               Dict.get col
                 (fold_left (SolarAnalyzer.keep_correlation target_column threshold) l acc)
                 = Some r ->
               col <> target_column /\ In (col, r) (corr df target_column) /\
               (threshold <=? PrimFloat.abs r) = true).
    { induction l as [| [c0 r0] l IH]; intros acc col r Hacc Hl; simpl.
      - apply Hacc.
      - apply IH.
        + intros col' r' Hget. unfold SolarAnalyzer.keep_correlation in Hget.
          destruct (negb (String.eqb c0 target_column) && (threshold <=? PrimFloat.abs r0))
            eqn:K; [| now apply Hacc].
          apply get_set_inv in Hget. destruct Hget as [[-> ->] | [_ Hget]];
            [| now apply Hacc].
          apply andb_prop in K. destruct K as [K1 K2].
          split; [| split; [apply Hl; now left | exact K2]].
          apply negb_true_iff, String.eqb_neq in K1. exact K1.
        + intros x Hx. apply Hl. now right. }
    intros col r Hget.
    destruct (Hfold (corr df target_column) Dict.empty col r) as (H1 & H2 & H3).
    + intros col' r' H. discriminate H.
    + auto.
    + exact Hget.
    + repeat split; auto. now apply (leb_abs_not_nan threshold).
Qed.

Lemma analyze_correlations_reports_witness :
  SolarAnalyzer.analyze_correlations Examples.some_corr Examples.steady "GHI" 0.3
  = [("DNI", 0.9); ("WS", -0.5)] /\
  is_nan 0.9 = false.
Proof.
  split; [reflexivity |].
  refine (proj2 (proj2 (proj2 (proj2 (analyze_correlations_reports Examples.some_corr
                   Examples.steady "GHI" 0.3) "DNI" 0.9 _)))).
  reflexivity.
Defined.

(** ** The analysis of a list of files *)

Lemma set_NoDup {V : Type} (k : string) (v : V) (d : Dict.t V) :
  NoDup (Dict.keys d) -> NoDup (Dict.keys (Dict.set k v d)).
Proof.
  intros Hnd. destruct (Dict.get k d) as [v0 |] eqn:G.
  - rewrite keys_set_present by congruence. exact Hnd.
  - apply get_None in G. rewrite set_fresh by exact G.
    unfold Dict.keys in *. rewrite map_app. simpl.
    apply NoDup_app; [exact Hnd | repeat constructor; simpl; tauto |].
    intros x Hx [<- | []]. contradiction.
Qed.

Lemma In_set_inv {V : Type} (c k : string) (x v : V) (d : Dict.t V) :
  In (c, x) (Dict.set k v d) -> (c = k /\ x = v) \/ In (c, x) d.
Proof.
  induction d as [| [k' v'] d IH]; simpl.
  - intros [H | []]. injection H as <- <-. now left.
  - destruct (String.eqb k k') eqn:E; simpl.
    + apply String.eqb_eq in E. subst k'.
      intros [H | H]; [injection H as <- <-; now left | right; now right].
    + intros [H | H]; [right; now left |].
      destruct (IH H) as [H' | H']; [now left | right; now right].
Qed.

Lemma NoDup_two_distinct (l : list string) :
  NoDup l -> (2 <= List.length l)%nat ->
  exists a b, In a l /\ In b l /\ a <> b.
Proof.
  intros Hnd Hlen. destruct l as [| a [| b l]]; simpl in Hlen; try lia.
  exists a, b. split; [now left |]. split; [right; now left |].
  inversion Hnd as [| ? ? Hnotin _]; subst. intros ->. apply Hnotin. now left.
Qed.

Lemma length_rank_countries (d : Dict.t DataFrame) :
  NoDup (Dict.keys d) ->
  List.length (SolarAnalyzer.rank_countries d) =
  List.length (filter (fun item => Dict.contains "GHI" (columns (snd item))) d).
Proof.
  intros Hnd. rewrite rank_countries_eq by exact Hnd.
  rewrite <- (Permutation_length (sorted_reverse_Permutation score (ranked d))).
  rewrite <- (length_map fst (ranked d)), <- (length_map fst (filter _ d)).
  f_equal. apply ranked_keys_filter.
Qed.

Lemma compare_countries_many
    (f_oneway kruskal : list (list float) -> result (float * float))
    (d : Dict.t DataFrame) (metric : string) (tests : option SolarAnalyzer.Comparison) :
  NoDup (Dict.keys d) ->
  (2 <= List.length (filter (fun item => Dict.contains metric (columns (snd item))) d))%nat ->
  SolarAnalyzer.compare_countries_statistical f_oneway kruskal d metric = Ok tests ->
  tests <> None.
Proof.
  intros Hnd H. unfold SolarAnalyzer.compare_countries_statistical.
  rewrite collect_fold by (auto; intros ? ? []). simpl app.
  rewrite <- length_samples in H. rewrite (proj2 (Nat.ltb_ge _ _) H).
  destruct (f_oneway _) as [a | e]; simpl; [| discriminate].
  destruct (kruskal _) as [b | e]; simpl; [| discriminate].
  intros [= <-]. discriminate.
Qed.

Lemma filter_all {A : Type} (p : A -> bool) (l : list A) :
  (forall x, In x l -> p x = true) -> filter p l = l.
Proof.
  induction l as [| x l IH]; simpl; intros H; [reflexivity |].
  rewrite (H x (or_introl eq_refl)). f_equal. apply IH. auto.
Qed.

Section AnalyzeFiles.
Variable read_csv : string -> option DataFrame.
Variable to_csv : DataFrame -> string -> result unit.
Variable corr : DataFrame -> string -> Dict.t float.
Variable f_oneway : list (list float) -> result (float * float).
Variable kruskal : list (list float) -> result (float * float).
Variable items : list (string * string).

Lemma analyze_file_analysed (acc acc' : Dict.t DataFrame) (filepath country : string) :
  analysed read_csv to_csv items acc -> In (filepath, country) items ->
  Analysis.analyze_file read_csv to_csv corr acc (filepath, country) = Done acc' ->
  analysed read_csv to_csv items acc'.
Proof.
  intros [Hnd Hacc] Hitem. unfold Analysis.analyze_file.
  destruct (DataProcessing.load_and_clean_data read_csv to_csv filepath None)
    as [[df |] | e] eqn:Hload; simpl; try discriminate.
  - unfold SolarAnalyzer.calculate_summary_statistics, SolarAnalyzer.getitem.
    destruct (SolarAnalyzer.truthy (Some country)) eqn:T.
    + destruct (Dict.get "GHI" (columns df)) as [g |] eqn:G; simpl; [| discriminate].
      destruct (Dict.get "Tamb" (columns df)) as [t |] eqn:Tm; simpl; [| discriminate].
      intros [= <-]. split; [now apply set_NoDup |].
      intros c df' Hin. apply In_set_inv in Hin.
      destruct Hin as [[-> ->] | Hin]; [| now apply Hacc].
      exists filepath. split; [exact Hitem |]. split; [exact Hload |].
      intros _. rewrite G, Tm. split; discriminate.
    + simpl. intros [= <-]. split; [now apply set_NoDup |].
      intros c df' Hin. apply In_set_inv in Hin.
      destruct Hin as [[-> ->] | Hin]; [| now apply Hacc].
      exists filepath. split; [exact Hitem |]. split; [exact Hload |].
      intros Hne. destruct country; [congruence | discriminate T].
  - intros [= <-]. now split.
Qed.

Lemma analyze_fold_failed (l : list (string * string)) (f : failure) :
  fold_left (fun acc item =>
               country_data <-- acc ;;
               Analysis.analyze_file read_csv to_csv corr country_data item)
    l (Failed f) = Failed f.
Proof.
  induction l as [| item l IH]; simpl; auto.
Qed.

Lemma analyze_fold_analysed (l : list (string * string)) :
  (forall item, In item l -> In item items) ->
  forall acc res,
    analysed read_csv to_csv items acc ->
    fold_left (fun acc item =>
                 country_data <-- acc ;;
                 Analysis.analyze_file read_csv to_csv corr country_data item)
      l (Done acc) = Done res ->
    analysed read_csv to_csv items res.
Proof.
  induction l as [| [filepath country] l IH]; intros Hl acc res Hacc;
    cbn [fold_left and_then].
  - now intros [= <-].
  - destruct (Analysis.analyze_file read_csv to_csv corr acc (filepath, country))
      as [acc' | f] eqn:E.
    + apply IH; [intros item Hin; apply Hl; now right |].
      eapply analyze_file_analysed; [exact Hacc | | exact E].
      apply Hl. now left.
    + now rewrite analyze_fold_failed.
Qed.

End AnalyzeFiles.

Lemma analyze_solar_data_inv
    (read_csv : string -> option DataFrame) (to_csv : DataFrame -> string -> result unit)
    (corr : DataFrame -> string -> Dict.t float)
    (f_oneway kruskal : list (list float) -> result (float * float))
    (filepaths names : list string) (ins : SolarAnalyzer.Insights) :
  Analysis.analyze_solar_data read_csv to_csv corr f_oneway kruskal filepaths (Some names)
    = Done (Some ins) ->
  exists country_data,
    NoDup (Dict.keys country_data) /\
    (forall c df,
       In (c, df) country_data ->
       exists filepath,
         In (filepath, c) (combine filepaths names) /\
         DataProcessing.load_and_clean_data read_csv to_csv filepath None = Ok (Some df) /\
         (c <> EmptyString ->
          Dict.get "GHI" (columns df) <> None /\ Dict.get "Tamb" (columns df) <> None)) /\
    (2 <= List.length country_data)%nat /\
    SolarAnalyzer.generate_insights_report f_oneway kruskal country_data = Ok ins.
Proof.
  unfold Analysis.analyze_solar_data.
  destruct (Analysis.analyzed_countries read_csv to_csv corr filepaths (Some names))
    as [country_data | f] eqn:E; cbn [and_then]; [| discriminate].
  destruct (2 <=? List.length country_data)%nat eqn:L; [| discriminate].
  destruct (SolarAnalyzer.generate_insights_report f_oneway kruskal country_data)
    as [i | e] eqn:G; cbn [and_then lift]; [| discriminate].
  intros [= <-]. exists country_data.
  unfold Analysis.analyzed_countries in E.
  destruct (analyze_fold_analysed read_csv to_csv corr (combine filepaths names)
              (combine filepaths names) (fun _ H => H) Dict.empty country_data) as [Hnd Hall].
  - split; [constructor | intros ? ? []].
  - exact E.
  - split; [exact Hnd |]. split; [exact Hall |]. split; [now apply Nat.leb_le | exact G].
Qed.

Lemma two_distinct_length {A : Type} (x y : A) (l : list A) :
  In x l -> In y l -> x <> y -> (2 <= List.length l)%nat.
Proof.
  destruct l as [| a [| b l]]; simpl; try tauto; try lia.
  intros [<- | []] [<- | []] H. congruence.
Qed.

Lemma default_country_names_nonempty (n : nat) (c : string) :
  In c (Analysis.default_country_names n) -> c <> EmptyString.
Proof.
  unfold Analysis.default_country_names. intros H. apply in_map_iff in H.
  destruct H as (i & <- & _). discriminate.
Qed.

(** X16.  When [analyze_solar_data] returns insights for the given names, at
    least two files and two distinct names were given; the insights hold the
    metrics of at least two countries, each of them the name of a file whose
    cleaning gave a table, and a table under a non-empty name has a GHI and a
    Tamb column (the summary that is printed reads both). *)
Theorem analyze_solar_data_insights :
  forall (read_csv : string -> option DataFrame) (to_csv : DataFrame -> string -> result unit)
         (corr : DataFrame -> string -> Dict.t float)
         (f_oneway kruskal : list (list float) -> result (float * float))
         (filepaths names : list string) (ins : SolarAnalyzer.Insights),
    Analysis.analyze_solar_data read_csv to_csv corr f_oneway kruskal filepaths (Some names)
      = Done (Some ins) ->
    (2 <= List.length filepaths)%nat /\
    (exists a b, In a names /\ In b names /\ a <> b) /\
    (2 <= List.length (SolarAnalyzer.country_metrics ins))%nat /\
    NoDup (Dict.keys (SolarAnalyzer.country_metrics ins)) /\
    (forall c,
       In c (Dict.keys (SolarAnalyzer.country_metrics ins)) ->
       exists filepath df,
         In (filepath, c) (combine filepaths names) /\
         DataProcessing.load_and_clean_data read_csv to_csv filepath None = Ok (Some df) /\
         Dict.get c (SolarAnalyzer.country_metrics ins)
           = Some (SolarAnalyzer.calculate_solar_potential_metrics df) /\
         (c <> EmptyString ->
          Dict.get "GHI" (columns df) <> None /\ Dict.get "Tamb" (columns df) <> None)).
Proof.
  intros read_csv to_csv corr f_oneway kruskal filepaths names ins H.
  destruct (analyze_solar_data_inv _ _ _ _ _ _ _ _ H) as (d & Hnd & Hall & Hlen & Hgen).
  destruct (generate_insights_report_inv _ _ _ _ Hgen) as (tests & _ & _ & _ & _ & _ & Hm).
  rewrite country_metrics_fold in Hm by (auto; intros ? ? []). simpl in Hm.
  assert (Hkeys : Dict.keys (SolarAnalyzer.country_metrics ins) = Dict.keys d).
  { rewrite Hm. unfold Dict.keys. rewrite map_map. reflexivity. }
  assert (Htwo : exists a b, In a (Dict.keys d) /\ In b (Dict.keys d) /\ a <> b).
  { apply NoDup_two_distinct; [exact Hnd |]. unfold Dict.keys. now rewrite length_map. }
  destruct Htwo as (a & b & Ha & Hb & Hab).
  unfold Dict.keys in Ha, Hb. apply in_map_iff in Ha, Hb.
  destruct Ha as ([a' dfa] & Ea & Ha), Hb as ([b' dfb] & Eb & Hb). simpl in Ea, Eb. subst a' b'.
  destruct (Hall a dfa Ha) as (fa & Hfa & _), (Hall b dfb Hb) as (fb & Hfb & _).
  split.
  { assert (Hc : (2 <= List.length (combine filepaths names))%nat).
    { apply (two_distinct_length (fa, a) (fb, b)); auto. congruence. }
    rewrite length_combine in Hc. lia. }
  split.
  { exists a, b. split; [eapply in_combine_r; exact Hfa |].
    split; [eapply in_combine_r; exact Hfb | exact Hab]. }
  split; [rewrite Hm, length_map; exact Hlen |].
  split; [rewrite Hkeys; exact Hnd |].
  intros c Hc. rewrite Hkeys in Hc. unfold Dict.keys in Hc. apply in_map_iff in Hc.
  destruct Hc as ([c' df] & Ec & Hc). simpl in Ec. subst c'.
  destruct (Hall c df Hc) as (fp & Hfp & Hload & Hcols).
  exists fp, df. split; [exact Hfp |]. split; [exact Hload |]. split; [| exact Hcols].
  apply In_get.
  - rewrite Hkeys. exact Hnd.
  - rewrite Hm. apply in_map_iff. exists (c, df). now split.
Qed.


Lemma analyze_solar_data_insights_witness :
  exists ins,
    Analysis.analyze_solar_data Examples.disk Examples.no_export Examples.some_corr
      Examples.flat_test Examples.flat_test
      ["data/benin-malanville.csv"; "data/togo.csv"] (Some ["Benin"; "Togo"])
      = Done (Some ins) /\
    (2 <= List.length (SolarAnalyzer.country_metrics ins))%nat /\
    NoDup (Dict.keys (SolarAnalyzer.country_metrics ins)).
Proof.
  assert (H : exists ins,
             Analysis.analyze_solar_data Examples.disk Examples.no_export Examples.some_corr
               Examples.flat_test Examples.flat_test
               ["data/benin-malanville.csv"; "data/togo.csv"] (Some ["Benin"; "Togo"])
               = Done (Some ins))
    by (vm_compute; eexists; reflexivity).
  destruct H as [ins H]. exists ins. split; [exact H |].
  destruct (analyze_solar_data_insights _ _ _ _ _ _ _ _ H) as (_ & _ & H3 & H4 & _).
  now split.
Defined.

(** X17.  With the default names [Country_1], [Country_2], ... every table
    that is analysed has a GHI column, so insights that are returned name a
    top country, hold the results of both tests, rank every country that was
    analysed, and have metrics for each of them. *)
Theorem analyze_solar_data_default_names :
  forall (read_csv : string -> option DataFrame) (to_csv : DataFrame -> string -> result unit)
         (corr : DataFrame -> string -> Dict.t float)
         (f_oneway kruskal : list (list float) -> result (float * float))
         (filepaths : list string) (ins : SolarAnalyzer.Insights),
    Analysis.analyze_solar_data read_csv to_csv corr f_oneway kruskal filepaths None
      = Done (Some ins) ->
    SolarAnalyzer.top_country ins <> None /\
    SolarAnalyzer.statistical_tests ins <> None /\
    List.length (SolarAnalyzer.rankings ins) = List.length (SolarAnalyzer.country_metrics ins) /\
    (forall c m, In (c, m) (SolarAnalyzer.country_metrics ins) -> m <> None).
Proof.
  intros read_csv to_csv corr f_oneway kruskal filepaths ins H.
  change (Analysis.analyze_solar_data read_csv to_csv corr f_oneway kruskal filepaths
            (Some (Analysis.default_country_names (List.length filepaths)))
          = Done (Some ins)) in H.
  destruct (analyze_solar_data_inv _ _ _ _ _ _ _ _ H) as (d & Hnd & Hall & Hlen & Hgen).
  assert (Hghi : forall item, In item d -> Dict.get "GHI" (columns (snd item)) <> None).
  { intros [c df] Hin. simpl. destruct (Hall c df Hin) as (fp & Hfp & _ & Hcols).
    apply Hcols. eapply default_country_names_nonempty, in_combine_r. exact Hfp. }
  assert (Hfilter : filter (fun item => Dict.contains "GHI" (columns (snd item))) d = d).
  { apply filter_all. intros item Hin. unfold Dict.contains.
    specialize (Hghi item Hin). now destruct (Dict.get "GHI" (columns (snd item))). }
  destruct (generate_insights_report_inv _ _ _ _ Hgen)
    as (tests & Hcmp & Htests & Hr & Htop & _ & Hm).
  rewrite country_metrics_fold in Hm by (auto; intros ? ? []). simpl in Hm.
  assert (Hrank : List.length (SolarAnalyzer.rank_countries d) = List.length d).
  { rewrite length_rank_countries by exact Hnd. now rewrite Hfilter. }
  split.
  { rewrite Htop. destruct (SolarAnalyzer.rank_countries d) as [| [k r] l];
      simpl in *; [lia | discriminate]. }
  split.
  { rewrite Htests. apply (compare_countries_many f_oneway kruskal d "GHI"); auto.
    now rewrite Hfilter. }
  split; [rewrite Hr, Hm, length_map; exact Hrank |].
  intros c m Hin. rewrite Hm in Hin. apply in_map_iff in Hin.
  destruct Hin as (item & E & Hin). injection E as _ <-.
  unfold SolarAnalyzer.calculate_solar_potential_metrics.
  specialize (Hghi item Hin). destruct (Dict.get "GHI" (columns (snd item))); congruence.
Qed.

Lemma analyze_solar_data_default_names_witness :
  exists ins,
    Analysis.analyze_solar_data Examples.disk Examples.no_export Examples.some_corr
      Examples.flat_test Examples.flat_test
      ["data/benin-malanville.csv"; "data/togo.csv"] None = Done (Some ins) /\
    SolarAnalyzer.top_country ins <> None /\
    SolarAnalyzer.statistical_tests ins <> None.
Proof.
  assert (H : exists ins,
             Analysis.analyze_solar_data Examples.disk Examples.no_export Examples.some_corr
               Examples.flat_test Examples.flat_test
               ["data/benin-malanville.csv"; "data/togo.csv"] None = Done (Some ins))
    by (vm_compute; eexists; reflexivity).
  destruct H as [ins H]. exists ins. split; [exact H |].
  destruct (analyze_solar_data_default_names _ _ _ _ _ _ _ H) as (H1 & H2 & _).
  now split.
Defined.

(** ** Files: loading, exporting and the batch of countries *)

Lemma clean_solar_data_loaded (self self' : SolarDataProcessor.t)
    (loaded out : option DataFrame) :
  SolarDataProcessor.clean_solar_data self loaded = Ok (self', out) ->
  (out = None <-> loaded = None).
Proof.
  unfold SolarDataProcessor.clean_solar_data. destruct loaded as [df |].
  - destruct (SolarDataProcessor.handle_missing_values self df None) as [self1 df1].
    destruct (SolarDataProcessor.remove_outliers _ df1 None _) as [r | e]; simpl;
      [| discriminate].
    intros [= _ <-]. split; discriminate.
  - intros [= _ <-]. tauto.
Qed.

Section LoadAndClean.
Variable read_csv : string -> option DataFrame.
Variable to_csv : DataFrame -> string -> result unit.

Lemma load_and_clean_data_loaded (filepath : string) (export_path : option string)
    (out : option DataFrame) :
  DataProcessing.load_and_clean_data read_csv to_csv filepath export_path = Ok out ->
  (out = None <-> read_csv filepath = None).
Proof.
  unfold DataProcessing.load_and_clean_data, DataProcessing.clean_solar_data.
  destruct (SolarDataProcessor.clean_solar_data SolarDataProcessor.init (read_csv filepath))
    as [[self' out'] | e] eqn:E; cbn [bind snd]; [| discriminate].
  apply clean_solar_data_loaded in E.
  destruct out' as [df |], export_path as [path |]; cbn [bind snd];
    try (intros [= <-]; exact E).
  destruct (String.length path =? 0)%nat; cbn [bind snd]; [intros [= <-]; exact E |].
  destruct (to_csv df path) as [u | e]; cbn [bind snd]; [intros [= <-]; exact E | discriminate].
Qed.

End LoadAndClean.

(** X18.  Exporting changes nothing of what [load_and_clean_data] returns
    but for the failure of the export: with a non-empty export path it
    returns a table exactly when it returns that table without exporting and
    writing that table to the path succeeds; the empty path is no path; a
    file that cannot be read gives [None] whatever the export would do. *)
Theorem load_and_clean_data_export :
  forall (read_csv : string -> option DataFrame) (to_csv : DataFrame -> string -> result unit)
         (filepath path : string),
    path <> EmptyString ->
    (forall df,
       DataProcessing.load_and_clean_data read_csv to_csv filepath (Some path) = Ok (Some df) <->
       DataProcessing.load_and_clean_data read_csv to_csv filepath None = Ok (Some df) /\
       to_csv df path = Ok tt) /\
    (forall df e,
       DataProcessing.load_and_clean_data read_csv to_csv filepath None = Ok (Some df) ->
       to_csv df path = Raise e ->
       DataProcessing.load_and_clean_data read_csv to_csv filepath (Some path) = Raise e) /\
    DataProcessing.load_and_clean_data read_csv to_csv filepath (Some EmptyString) =
      DataProcessing.load_and_clean_data read_csv to_csv filepath None /\
    (read_csv filepath = None ->
     DataProcessing.load_and_clean_data read_csv to_csv filepath (Some path) = Ok None).
Proof.
  intros read_csv to_csv filepath path Hpath.
  assert (Hlen : (String.length path =? 0)%nat = false)
    by (destruct path; [congruence | reflexivity]).
  unfold DataProcessing.load_and_clean_data, DataProcessing.clean_solar_data.
  destruct (read_csv filepath) as [t |] eqn:R.
  - destruct (SolarDataProcessor.clean_solar_data SolarDataProcessor.init (Some t))
      as [[self' out] | e] eqn:E; cbn [bind snd].
    + assert (Hout : out <> None)
        by (intros H; apply (clean_solar_data_loaded _ _ _ _ E) in H; discriminate).
      destruct out as [d |]; [| congruence]. cbn [bind snd]. rewrite Hlen.
      split; [| split; [| split; [reflexivity | discriminate]]].
      * intros df. destruct (to_csv d path) as [[] | e] eqn:T; cbn [bind snd].
        -- split; [intros [= <-]; now split | intros [H _]; exact H].
        -- split; [discriminate | intros [[= <-] H]; congruence].
      * intros df e [= <-] T. rewrite T. reflexivity.
    + split; [| split; [| split; [reflexivity | discriminate]]].
      * intros df. split; [discriminate | intros [H _]; discriminate].
      * discriminate.
  - cbn [SolarDataProcessor.clean_solar_data bind snd].
    split; [| split; [| split; [reflexivity | reflexivity]]].
    + intros df. split; [discriminate | intros [H _]; discriminate].
    + discriminate.
Qed.

Lemma load_and_clean_data_export_witness :
  DataProcessing.load_and_clean_data Examples.disk Examples.no_export
    "data/togo.csv" (Some EmptyString) =
  DataProcessing.load_and_clean_data Examples.disk Examples.no_export "data/togo.csv" None.
Proof.
  refine (proj1 (proj2 (proj2
    (load_and_clean_data_export Examples.disk Examples.no_export "data/togo.csv"
       "out/togo_clean.csv" _)))).
  discriminate.
Defined.

(** X19.  The results of [batch_process_countries] have an entry for
    exactly the configured countries whose input file exists, in the
    configured order; the entry is what [load_and_clean_data] returns for the
    file of the country in the data directory, exported under the lower-case
    name of the country in the output directory, and it is [None] exactly
    when the file could not be read. *)
Theorem batch_process_countries_results :
  forall (read_csv : string -> option DataFrame) (to_csv : DataFrame -> string -> result unit)
         (path_exists : string -> bool) (data_dir output_dir : string)
         (results : Dict.t (option DataFrame)),
    DataProcessing.batch_process_countries read_csv to_csv path_exists data_dir output_dir
      = Ok results ->
    Dict.keys results =
      map fst (filter (fun item => path_exists (path_join data_dir (snd item)))
                 DataProcessing.country_files) /\
    (forall country df,
       Dict.get country results = Some df ->
       exists filename,
         Dict.get country DataProcessing.country_files = Some filename /\
         path_exists (path_join data_dir filename) = true /\
         DataProcessing.load_and_clean_data read_csv to_csv (path_join data_dir filename)
           (Some (path_join output_dir (lower country ++ "_clean.csv"))) = Ok df /\
         (df = None <-> read_csv (path_join data_dir filename) = None)).
Proof.
  intros read_csv to_csv path_exists data_dir output_dir results.
  unfold DataProcessing.batch_process_countries, DataProcessing.country_files.
  cbn [fold_left filter snd bind]. unfold DataProcessing.process_file. cbv zeta.
  set (p1 := path_join data_dir "benin-malanville.csv").
  set (p2 := path_join data_dir "sierra_leone.csv").
  set (p3 := path_join data_dir "togo.csv").
  set (o1 := path_join output_dir (lower "Benin" ++ "_clean.csv")).
  set (o2 := path_join output_dir (lower "Sierra_Leone" ++ "_clean.csv")).
  set (o3 := path_join output_dir (lower "Togo" ++ "_clean.csv")).
  pose proof (load_and_clean_data_loaded read_csv to_csv p1 (Some o1)) as L1.
  pose proof (load_and_clean_data_loaded read_csv to_csv p2 (Some o2)) as L2.
  pose proof (load_and_clean_data_loaded read_csv to_csv p3 (Some o3)) as L3.
  destruct (path_exists p1) eqn:E1;
    [destruct (DataProcessing.load_and_clean_data read_csv to_csv p1 (Some o1))
       as [d1 | e1] eqn:R1; [| discriminate] |];
    (destruct (path_exists p2) eqn:E2;
     [destruct (DataProcessing.load_and_clean_data read_csv to_csv p2 (Some o2))
        as [d2 | e2] eqn:R2; [| discriminate] |]);
    (destruct (path_exists p3) eqn:E3;
     [destruct (DataProcessing.load_and_clean_data read_csv to_csv p3 (Some o3))
        as [d3 | e3] eqn:R3; [| discriminate] |]);
    intros [= <-]; (split; [reflexivity |]); intros country df;
    cbn [bind Dict.set Dict.empty Dict.get String.eqb Ascii.eqb Bool.eqb];
    repeat match goal with
      | |- context [String.eqb country ?k] =>
          let E := fresh "E" in
          destruct (String.eqb country k) eqn:E;
          [apply String.eqb_eq in E; subst country |]
      end;
    cbn [Dict.get String.eqb Ascii.eqb Bool.eqb];
    try discriminate;
    intros [= <-]; eexists; (split; [reflexivity |]); auto.
Qed.

Lemma batch_process_countries_results_witness :
  exists results,
    DataProcessing.batch_process_countries Examples.disk Examples.no_export Examples.on_disk
      "data" "out" = Ok results /\
    Dict.keys results = ["Benin"; "Sierra_Leone"; "Togo"].
Proof.
  assert (H : exists results,
             DataProcessing.batch_process_countries Examples.disk Examples.no_export
               Examples.on_disk "data" "out" = Ok results)
    by (vm_compute; eexists; reflexivity).
  destruct H as [results H]. exists results. split; [exact H |].
  rewrite (proj1 (batch_process_countries_results _ _ _ _ _ _ H)). reflexivity.
Defined.

(** ** The configured countries *)

(** X20.  [get_country_filepath] returns paths exactly for the countries
    of [get_all_countries] and raises the value error for every other name.
    The raw file has the name [batch_process_countries] reads for the country
    and the cleaned file the name it gives the export, and for a directory
    that is not empty and has no trailing separator both paths are the joins
    of the directory and the file name. *)
Theorem get_country_filepath_agrees :
  forall (country data_dir : string),
    (forall raw cleaned,
       Settings.get_country_filepath country (Some data_dir) = Ok (raw, cleaned) ->
       In country Settings.get_all_countries /\
       exists filename,
         Dict.get country DataProcessing.country_files = Some filename /\
         raw = data_dir ++ "/" ++ filename /\
         cleaned = data_dir ++ "/" ++ lower country ++ "_clean.csv" /\
         (data_dir <> EmptyString -> ends_with_sep data_dir = false ->
          raw = path_join data_dir filename /\
          cleaned = path_join data_dir (lower country ++ "_clean.csv"))) /\
    (In country Settings.get_all_countries ->
     exists paths, Settings.get_country_filepath country (Some data_dir) = Ok paths) /\
    (~ In country Settings.get_all_countries ->
     Settings.get_country_filepath country (Some data_dir)
       = Raise (ValueError ("Unknown country: " ++ country))).
Proof.
  intros country data_dir.
  assert (Hjoin : forall name,
             prefix "/" name = false ->
             data_dir <> EmptyString -> ends_with_sep data_dir = false ->
             data_dir ++ "/" ++ name = path_join data_dir name).
  { intros name Hn Hd He. unfold path_join. rewrite Hn, He.
    destruct data_dir; [congruence | reflexivity]. }
  unfold Settings.get_country_filepath, Settings.get_all_countries, Settings.COUNTRIES,
    DataProcessing.country_files.
  cbn [Dict.get Dict.keys map fst In].
  destruct (String.eqb country "Benin") eqn:E1;
    [apply String.eqb_eq in E1; subst country |
     destruct (String.eqb country "Sierra_Leone") eqn:E2;
     [apply String.eqb_eq in E2; subst country |
      destruct (String.eqb country "Togo") eqn:E3;
      [apply String.eqb_eq in E3; subst country |]]].
  1-3: split; [| split; [intros _; eexists; reflexivity | intros H; exfalso; apply H; tauto]];
    intros raw cleaned [= <- <-]; (split; [tauto |]);
    eexists; (split; [reflexivity |]); (split; [reflexivity |]); (split; [reflexivity |]);
    intros Hd He; split; apply Hjoin; auto.
  apply String.eqb_neq in E1, E2, E3.
  split; [discriminate |]. split; [| reflexivity].
  intros [H | [H | [H | []]]]; congruence.
Qed.

Lemma get_country_filepath_agrees_witness :
  Settings.get_country_filepath "Egypt" (Some "data")
    = Raise (ValueError "Unknown country: Egypt").
Proof.
  refine (proj2 (proj2 (get_country_filepath_agrees "Egypt" "data")) _).
  vm_compute. intros [H | [H | [H | []]]]; discriminate H.
Defined.

(** ** The comparative analysis of main.py *)

Lemma filter_nil_iff {A : Type} (p : A -> bool) (l : list A) :
  filter p l = [] <-> forall x, In x l -> p x = false.
Proof.
  induction l as [| x l IH]; simpl.
  - split; [intros _ ? [] | reflexivity].
  - destruct (p x) eqn:E.
    + split; [discriminate | intros H; specialize (H x (or_introl eq_refl)); congruence].
    + rewrite IH. split.
      * intros H y [<- | Hy]; auto.
      * intros H y Hy. apply H. now right.
Qed.

(** X21.  [run_comparative_analysis] returns nothing for fewer than two
    countries.  Insights it returns cover every country of the input, but the
    guard counts countries, not GHI columns: the insights name no top country
    exactly when no country has a GHI column, and hold no test results exactly
    when fewer than two countries have one. *)
Theorem run_comparative_analysis_outcome :
  forall (f_oneway kruskal : list (list float) -> result (float * float))
         (country_data : Dict.t DataFrame),
    NoDup (Dict.keys country_data) ->
    ((List.length country_data < 2)%nat ->
     Main.run_comparative_analysis f_oneway kruskal country_data = Ok None) /\
    (forall ins,
       Main.run_comparative_analysis f_oneway kruskal country_data = Ok (Some ins) ->
       (2 <= List.length country_data)%nat /\
       Dict.keys (SolarAnalyzer.country_metrics ins) = Dict.keys country_data /\
       (SolarAnalyzer.top_country ins = None <->
        forall c df, In (c, df) country_data -> Dict.get "GHI" (columns df) = None) /\
       (SolarAnalyzer.statistical_tests ins = None <->
        (List.length (filter (fun item => Dict.contains "GHI" (columns (snd item)))
                        country_data) < 2)%nat)).
Proof.
  intros f_oneway kruskal d Hnd. unfold Main.run_comparative_analysis. split.
  - intros H. now rewrite (proj2 (Nat.ltb_lt _ _) H).
  - intros ins. destruct (List.length d <? 2)%nat eqn:L; [discriminate |].
    apply Nat.ltb_ge in L.
    destruct (SolarAnalyzer.generate_insights_report f_oneway kruskal d) as [i | e] eqn:G;
      cbn [bind]; [| discriminate].
    intros [= <-].
    destruct (generate_insights_report_inv _ _ _ _ G)
      as (tests & Hcmp & Htests & _ & Htop & _ & Hm).
    rewrite country_metrics_fold in Hm by (auto; intros ? ? []). simpl in Hm.
    pose proof (length_rank_countries d Hnd) as Hrank.
    split; [exact L |]. split; [| split].
    + rewrite Hm. unfold Dict.keys. rewrite map_map. reflexivity.
    + rewrite Htop. split.
      * intros H c df Hin.
        assert (Hnil : filter (fun item => Dict.contains "GHI" (columns (snd item))) d = []).
        { destruct (SolarAnalyzer.rank_countries d) as [| [k r] l]; [| discriminate H].
          simpl in Hrank. symmetry in Hrank. now apply length_zero_iff_nil in Hrank. }
        pose proof (proj1 (filter_nil_iff _ _) Hnil (c, df) Hin) as Hc.
        unfold Dict.contains in Hc. simpl in Hc.
        now destruct (Dict.get "GHI" (columns df)).
      * intros H.
        assert (Hnil : filter (fun item => Dict.contains "GHI" (columns (snd item))) d = []).
        { apply filter_nil_iff. intros [c df] Hin. unfold Dict.contains. simpl.
          now rewrite (H c df Hin). }
        rewrite Hnil in Hrank.
        destruct (SolarAnalyzer.rank_countries d) as [| [k r] l]; [reflexivity | discriminate].
    + rewrite Htests. split.
      * intros ->. apply Nat.nle_gt. intros Hmany.
        now apply (compare_countries_many f_oneway kruskal d "GHI" None Hnd Hmany).
      * intros Hfew. rewrite (compare_countries_few f_oneway kruskal d "GHI" Hnd Hfew) in Hcmp.
        congruence.
Qed.

Lemma run_comparative_analysis_outcome_witness :
  exists ins,
    Main.run_comparative_analysis Examples.flat_test Examples.flat_test
      [("Benin", Examples.without_ghi); ("Togo", Examples.without_ghi)] = Ok (Some ins) /\
    SolarAnalyzer.top_country ins = None.
Proof.
  assert (Hnd : NoDup (Dict.keys [("Benin", Examples.without_ghi);
                                  ("Togo", Examples.without_ghi)])).
  { repeat constructor; simpl; intuition discriminate. }
  assert (H : exists ins,
             Main.run_comparative_analysis Examples.flat_test Examples.flat_test
               [("Benin", Examples.without_ghi); ("Togo", Examples.without_ghi)]
               = Ok (Some ins))
    by (vm_compute; eexists; reflexivity).
  destruct H as [ins H]. exists ins. split; [exact H |].
  apply (proj2 (run_comparative_analysis_outcome Examples.flat_test Examples.flat_test
                  _ Hnd) ins H).
  intros c df [[= <- <-] | [[= <- <-] | []]]; reflexivity.
Defined.
